(** * devtools-backend: dictionary, shopping calculator and word concatenation

    A shallow embedding of the business logic of the backend
    (app/shopping, app/dictionary, app/words) together with the properties
    its specification states about it.

    Conventions of the embedding.
    - A Python [str] is a [string]; its characters are the code points
      0..255, so the whitespace and case tables below are the Latin-1 part
      of the Unicode tables Python uses.
    - A Python [float] is an IEEE 754 binary64 value, a [spec_float] with
      precision 53 and maximal exponent 1024; [+] and [*] are [SFadd] and
      [SFmul] at that format.
    - A Python [dict] handed to a lookup is a [gmap]; where the code iterates
      over a dict, the items come as a list in insertion order.
    - A raised exception is the [Raise] constructor of [result]. *)

From Stdlib Require Import ZArith QArith Qpower Qabs Lia Lqa Bool List Ascii String Permutation.
From Stdlib Require Import Floats.SpecFloat.
From stdpp Require Import base option list strings gmap.

Import ListNotations.
Local Open Scope string_scope.
Local Open Scope list_scope.
Local Open Scope Z_scope.

(** ** Exceptions and results *)

(** The messages of the [ValueError]s the code raises; a value that the
    message text interpolates is left out, the names are kept. *)
Inductive message : Type :=
  | CostsInputEmpty                      (* Costs input cannot be empty *)
  | CostNotNumber (key : string)         (* Cost for 'key' must be a number, got: ... *)
  | CostNegative (key : string)          (* Cost for 'key' cannot be negative: ... *)
  | InvalidPrice (item price_str : string)
      (* Invalid price format for 'item': 'price_str'. Must be a number. *)
  | CouldNotConvert (repr : string)      (* could not convert string to float: repr *)
  | CostsNotParsed                       (* Could not parse costs input. Use format: ... *)
  | ItemsInputEmpty                      (* Items input cannot be empty *)
  | NoItems                              (* At least one item is required *)
  | WordEmpty                            (* Word cannot be empty *)
  | DefinitionEmpty                      (* Definition cannot be empty *)
  | WordEmptyOrWhitespace.               (* Word cannot be empty or only whitespace *)

Inductive exn : Type :=
  | ValueError (msg : message)
  | OverflowError
  | AttributeError
  | InvalidOperation
  | IntegrityError
  | DictionaryWordNotFoundError (word : string)
  | DictionaryWordAlreadyExistsError (word : string).

Inductive result (A : Type) : Type :=
  | Ok (a : A)
  | Raise (e : exn).

Arguments Ok {A} a.
Arguments Raise {A} e.

(** Sequencing: the first exception raised ends the computation. *)
#[global] Instance result_ret : MRet result := fun _ a => Ok a.
#[global] Instance result_bind : MBind result := fun _ _ k r =>
  match r with
  | Ok a => k a
  | Raise e => Raise e
  end.

(** ** Python string primitives *)

Module PyStr.

(** [str.isspace] on one character (code points below 256). *)
Definition isspace (c : ascii) : bool :=
  let n := N_of_ascii c in
  ((9 <=? n) && (n <=? 13) || (28 <=? n) && (n <=? 32)
   || (n =? 133) || (n =? 160))%N.

Fixpoint lstrip (s : string) : string :=
  match s with
  | EmptyString => EmptyString
  | String c s' => if isspace c then lstrip s' else s
  end.

Fixpoint rstrip (s : string) : string :=
  match s with
  | EmptyString => EmptyString
  | String c s' =>
      match rstrip s' with
      | EmptyString => if isspace c then EmptyString else String c EmptyString
      | r => String c r
      end
  end.

(** [s.strip()] *)
Definition strip (s : string) : string := rstrip (lstrip s).

(** Truth value of a string: [if s] holds for a non-empty one. *)
Definition truthy (s : string) : bool :=
  match s with
  | EmptyString => false
  | String _ _ => true
  end.

(** [c in s] for a one-character needle. *)
Fixpoint contains (c : ascii) (s : string) : bool :=
  match s with
  | EmptyString => false
  | String a s' => Ascii.eqb a c || contains c s'
  end.

(** Splitting at every character that satisfies [p]: [s.split(sep)] for a
    one-character [sep], and [re.split] on a character class.  Empty pieces
    are kept. *)
Fixpoint split_at (p : ascii -> bool) (s : string) : list string :=
  match s with
  | EmptyString => [EmptyString]
  | String c s' =>
      if p c then EmptyString :: split_at p s'
      else match split_at p s' with
           | w :: ws => String c w :: ws
           | [] => [String c EmptyString]
           end
  end.

Definition split_char (sep : ascii) (s : string) : list string :=
  split_at (Ascii.eqb sep) s.

(** [s.split()]: pieces between runs of whitespace, none of them empty. *)
Definition split_ws (s : string) : list string :=
  List.filter truthy (split_at isspace s).

(** [s.startswith(c)] for a one-character prefix. *)
Definition startswith (c : ascii) (s : string) : bool :=
  match s with
  | String a _ => Ascii.eqb a c
  | EmptyString => false
  end.

(** [str.lower] on one character: A-Z and the Latin-1 capitals. *)
Definition lower_char (c : ascii) : ascii :=
  let n := N_of_ascii c in
  if ((65 <=? n) && (n <=? 90)
      || (192 <=? n) && (n <=? 222) && negb (n =? 215))%N
  then ascii_of_N (n + 32) else c.

Fixpoint lower (s : string) : string :=
  match s with
  | EmptyString => EmptyString
  | String c s' => String (lower_char c) (lower s')
  end.

(** ["".join(chars)] for a list of one-character strings. *)
Definition join (chars : list ascii) : string := string_of_list_ascii chars.

End PyStr.

(** ** app/words/service.py *)

Module Words.

Record WordConcatResponse : Type := {
  result_ : string;
  words : list string;
  characters_extracted : nat;
  characters_skipped : nat
}.

(** [_is_valid_index]: [0 <= index < len(word)]. *)
Definition _is_valid_index (word : string) (index : Z) : bool :=
  ((0 <=? index) && (index <? Z.of_nat (String.length word)))%Z.

(** The loop of [_extract_characters_by_index] from position [index] on,
    with the accumulators [result_chars] and [skipped_count]. *)
Fixpoint extract_loop (index : nat) (ws : list string)
    (result_chars : list ascii) (skipped_count : nat) : list ascii * nat :=
  match ws with
  | [] => (result_chars, skipped_count)
  | word :: rest =>
      if _is_valid_index word (Z.of_nat index) then
        match String.get index word with
        | Some c => extract_loop (S index) rest (result_chars ++ [c]) skipped_count
        | None => extract_loop (S index) rest result_chars skipped_count
        end
      else extract_loop (S index) rest result_chars (S skipped_count)
  end.

Definition _extract_characters_by_index (ws : list string) : list ascii * nat :=
  extract_loop 0 ws [] 0.

Definition concatenate_words (request_words : list string) : WordConcatResponse :=
  let '(extracted_chars, skipped_count) := _extract_characters_by_index request_words in
  {| result_ := PyStr.join extracted_chars;
     words := request_words;
     characters_extracted := List.length extracted_chars;
     characters_skipped := skipped_count |}.

End Words.

(** ** Python floats and decimals *)

Module PyFloat.

Definition float : Type := spec_float.

Definition prec : Z := 53.
Definition emax : Z := 1024.

(** [x + y], [x * y] and [x < y] on floats. *)
Definition fadd (x y : float) : float := SFadd prec emax x y.
Definition fmul (x y : float) : float := SFmul prec emax x y.
Definition flt (x y : float) : bool := SFltb x y.

(** The literal [0.0]. *)
Definition zero : float := S754_zero false.

(** The float nearest to [n / d] (ties to even), with the sign [neg]:
    the quotient digits and the position of the remainder come from
    [SFdiv_core_binary], the rounding from [binary_round_aux]. *)
Definition of_ratio (neg : bool) (n : Z) (d : positive) : float :=
  match n with
  | Zpos n' =>
      let '(mz, ez, lz) := SFdiv_core_binary prec emax (Zpos n') 0 (Zpos d) 0 in
      binary_round_aux prec emax neg mz ez lz
  | _ => S754_zero neg
  end.

(** The float nearest to [c * 10^e]: what a numeric literal, [float(str)]
    and [float(Decimal)] evaluate to. *)
Definition of_decimal (neg : bool) (c : Z) (e : Z) : float :=
  if 0 <=? e then of_ratio neg (c * 10 ^ e) 1
  else of_ratio neg c (Z.to_pos (10 ^ (- e))).

(** [float(n)] for a Python int: correctly rounded, [OverflowError] when
    the int is too large for a float. *)
Definition of_int (n : Z) : result float :=
  match of_ratio (n <? 0) (Z.abs n) 1 with
  | S754_infinity _ => Raise OverflowError
  | f => Ok f
  end.

Definition is_finite (x : float) : bool :=
  match x with
  | S754_zero _ | S754_finite _ _ _ => true
  | _ => false
  end.

End PyFloat.

Module Decimal.

(** A [decimal.Decimal]: sign, coefficient and exponent, or a special
    value. *)
Inductive decimal : Type :=
  | Dec (neg : bool) (coeff : Z) (exp : Z)
  | DInf (neg : bool)
  | DNaN.

(** Number of decimal digits of a positive integer, [0] for [n <= 0]. *)
Fixpoint digits10_fuel (fuel : nat) (n : Z) : Z :=
  match fuel with
  | O => 0
  | S fuel' => if n <=? 0 then 0 else 1 + digits10_fuel fuel' (n / 10)
  end.

Definition digits10 (n : Z) : Z := digits10_fuel (S (Z.to_nat (Z.log2 n))) n.

Section Shortest.
(** The positive float [m * 2^e]. *)
Variables (m : positive) (e : Z).

(** The float and the ends of the interval of the reals that round to
    it, in units of [2^(e-2)].  The lower end is nearer when [m] is the
    least mantissa of its binade. *)
Definition mid4 : Z := 4 * Zpos m.
Definition low4 : Z :=
  if (Zpos m =? 2 ^ (PyFloat.prec - 1)) && (3 - PyFloat.emax - PyFloat.prec <? e)
  then 4 * Zpos m - 1 else 4 * Zpos m - 2.
Definition high4 : Z := 4 * Zpos m + 2.

(** [c * 10^p] against [u * 2^(e-2)], both cleared of negative powers. *)
Definition cmp_units (c p u : Z) : comparison :=
  let lhs := c * 10 ^ Z.max p 0 * 2 ^ Z.max (2 - e) 0 in
  let rhs := u * 2 ^ Z.max (e - 2) 0 * 10 ^ Z.max (- p) 0 in
  lhs ?= rhs.

(** Does the decimal [c * 10^p] read back as the float?  The ends of the
    interval belong to it when [m] is even. *)
Definition reads_back (c p : Z) : bool :=
  let lo_ok := match cmp_units c p low4 with
               | Gt => true | Eq => Z.even (Zpos m) | Lt => false end in
  let hi_ok := match cmp_units c p high4 with
               | Lt => true | Eq => Z.even (Zpos m) | Gt => false end in
  lo_ok && hi_ok.

(** [floor (m * 2^e / 10^p)] *)
Definition floor_at (p : Z) : Z :=
  (Zpos m * 2 ^ Z.max e 0 * 10 ^ Z.max (- p) 0)
  / (2 ^ Z.max (- e) 0 * 10 ^ Z.max p 0).

(** The decimal exponent [k] with [10^(k-1) <= m * 2^e < 10^k]. *)
Definition decpt : Z :=
  digits10 ((Zpos m * 2 ^ Z.max e 0 * 10 ^ 400) / 2 ^ Z.max (- e) 0) - 400.

(** The exact decimal expansion of the float. *)
Definition exact_digits : Z * Z :=
  if 0 <=? e then (Zpos m * 2 ^ e, 0) else (Zpos m * 5 ^ (- e), e).

(** The nearer of the two decimals with last digit at [10^p] around the
    float, among those that read back; the even one on a tie. *)
Definition candidate (p : Z) : option Z :=
  let c := floor_at p in
  match reads_back c p, reads_back (c + 1) p with
  | true, true =>
      match cmp_units (2 * c + 1) p (2 * mid4) with
      | Gt => Some c
      | Lt => Some (c + 1)
      | Eq => Some (if Z.even c then c else c + 1)
      end
  | true, false => Some c
  | false, true => Some (c + 1)
  | false, false => None
  end.

(** Try [n], [n + 1], ... significant digits, [fuel] times, for the
    decimal exponent [k]. *)
Fixpoint shortest_from (k : Z) (fuel : nat) (n : Z) : Z * Z :=
  match fuel with
  | O => exact_digits
  | S fuel' =>
      match candidate (k - n) with
      | Some c => (c, k - n)
      | None => shortest_from k fuel' (n + 1)
      end
  end.

(** The digits of [repr]: the shortest decimal that reads back as the
    float (17 digits always do). *)
Definition shortest : Z * Z := shortest_from decpt 17 1.
End Shortest.

(** [Decimal(str(value))]: [str] of a float prints the shortest digits
    that read back as the same float, and [Decimal] takes them as they are
    (["0.0"] for a zero, ["inf"] and ["nan"] for the special values). *)
Definition of_float_str (x : PyFloat.float) : decimal :=
  match x with
  | S754_zero s => Dec s 0 (-1)
  | S754_infinity s => DInf s
  | S754_nan => DNaN
  | S754_finite s m e => let '(c, p) := shortest m e in Dec s c p
  end.

(** The context precision of the [decimal] module. *)
Definition context_prec : Z := 28.

(** [d.quantize(Decimal('0.01'), rounding=ROUND_HALF_UP)]: the coefficient
    at exponent -2, a discarded part of a half or more rounding away from
    zero.  Fails on an infinity and when the result needs more than
    [context_prec] digits. *)
Definition quantize_cents (d : decimal) : result decimal :=
  match d with
  | DNaN => Ok DNaN
  | DInf _ => Raise InvalidOperation
  | Dec s c p =>
      let c' :=
        if -2 <=? p then c * 10 ^ (p + 2)
        else
          let unit := 10 ^ (- 2 - p) in
          if unit <=? 2 * (c mod unit) then c / unit + 1 else c / unit in
      if context_prec <? digits10 c' then Raise InvalidOperation
      else Ok (Dec s c' (-2))
  end.

(** [float(d)] *)
Definition to_float (d : decimal) : PyFloat.float :=
  match d with
  | Dec s c p => PyFloat.of_decimal s c p
  | DInf s => S754_infinity s
  | DNaN => S754_nan
  end.

End Decimal.

(** ** [float(s)] for a string *)

Module FloatParse.

Definition is_digit (c : ascii) : bool :=
  ((48 <=? N_of_ascii c) && (N_of_ascii c <=? 57))%N.

Definition digit_val (c : ascii) : Z := Z.of_N (N_of_ascii c) - 48.

(** Whitespace that [float] removes around its argument. *)
Definition float_space (c : ascii) : bool :=
  let n := N_of_ascii c in
  ((9 <=? n) && (n <=? 13) || (n =? 32) || (n =? 133) || (n =? 160))%N.

Fixpoint lstrip_space (s : string) : string :=
  match s with
  | EmptyString => EmptyString
  | String c s' => if float_space c then lstrip_space s' else s
  end.

Fixpoint rstrip_space (s : string) : string :=
  match s with
  | EmptyString => EmptyString
  | String c s' =>
      match rstrip_space s' with
      | EmptyString => if float_space c then EmptyString else String c EmptyString
      | r => String c r
      end
  end.

(** Underscores may only stand between two digits; they are removed. *)
Fixpoint drop_underscores (prev : ascii) (s : string) : option string :=
  match s with
  | EmptyString => if Ascii.eqb prev "_" then None else Some EmptyString
  | String c s' =>
      if Ascii.eqb c "_" then
        if is_digit prev then drop_underscores c s' else None
      else if Ascii.eqb prev "_" && negb (is_digit c) then None
      else option_map (String c) (drop_underscores c s')
  end.

(** The leading digits of [s]: their value after [acc], their number after
    [n], and the rest of [s]. *)
Fixpoint take_digits (acc n : Z) (s : string) : Z * Z * string :=
  match s with
  | String c s' =>
      if is_digit c then take_digits (10 * acc + digit_val c) (n + 1) s'
      else (acc, n, s)
  | EmptyString => (acc, n, s)
  end.

(** An optional sign. *)
Definition take_sign (s : string) : bool * string :=
  match s with
  | String "-" s' => (true, s')
  | String "+" s' => (false, s')
  | _ => (false, s)
  end.

(** The exponent part: nothing, or [e] or [E], an optional sign and at
    least one digit, up to the end of the string. *)
Definition parse_exponent (s : string) : option Z :=
  match s with
  | EmptyString => Some 0
  | String c s' =>
      if Ascii.eqb c "e" || Ascii.eqb c "E" then
        let '(eneg, s1) := take_sign s' in
        match take_digits 0 0 s1 with
        | (ev, ne, EmptyString) =>
            if 0 <? ne then Some (if eneg then - ev else ev) else None
        | _ => None
        end
      else None
  end.

(** A decimal number without its sign: digits, an optional point and more
    digits (one digit at least), an optional exponent. *)
Definition parse_number (neg : bool) (s : string) : option PyFloat.float :=
  let '(ip, ni, r1) := take_digits 0 0 s in
  let '(c, nf, r2) :=
    match r1 with
    | String "." r => take_digits ip 0 r
    | _ => (ip, 0, r1)
    end in
  if 0 <? ni + nf then
    match parse_exponent r2 with
    | Some ev => Some (PyFloat.of_decimal neg c (ev - nf))
    | None => None
    end
  else None.

(** [float(s)]: [None] stands for the [ValueError] it raises. *)
Definition float_of_string (s : string) : option PyFloat.float :=
  let s1 := rstrip_space (lstrip_space s) in
  match (if PyStr.contains "_" s1 then drop_underscores Ascii.zero s1 else Some s1) with
  | None => None
  | Some s2 =>
      let '(neg, body) := take_sign s2 in
      let word := PyStr.lower body in
      if String.eqb word "inf" || String.eqb word "infinity"
      then Some (S754_infinity neg)
      else if String.eqb word "nan" then Some S754_nan
      else parse_number neg body
  end.

(** [repr(s)] of a string: the quotes and the escapes of the characters
    that are not printable. *)
Definition hex_digit (n : N) : ascii :=
  ascii_of_N (if (n <? 10)%N then 48 + n else 87 + n)%N.

Definition repr_char (quote : ascii) (c : ascii) : string :=
  let n := N_of_ascii c in
  if Ascii.eqb c "\" then "\\"
  else if Ascii.eqb c quote then String "\" (String c EmptyString)
  else if (n =? 9)%N then "\t"
  else if (n =? 10)%N then "\n"
  else if (n =? 13)%N then "\r"
  else if ((n <? 32) || (127 <=? n) && (n <=? 160) || (n =? 173))%N
  then String "\" (String "x" (String (hex_digit (n / 16))
                                 (String (hex_digit (n mod 16)) EmptyString)))
  else String c EmptyString.

Fixpoint repr_body (quote : ascii) (s : string) : string :=
  match s with
  | EmptyString => EmptyString
  | String c s' => (repr_char quote c ++ repr_body quote s')%string
  end.

Definition repr_str (s : string) : string :=
  let dquote : ascii := ascii_of_N 34 in
  let quote : ascii :=
    if PyStr.contains "'" s && negb (PyStr.contains dquote s) then dquote
    else "'"%char in
  (String quote (repr_body quote s) ++ String quote EmptyString)%string.

End FloatParse.

(** ** app/shopping/service.py *)

Module ShoppingService.

Import PyFloat.

Record ShoppingTotalRequest : Type := {
  costs : gmap string float;
  items : list string;
  tax : float
}.

Record ShoppingTotalResponse : Type := {
  subtotal : float;
  tax_amount : float;
  total : float;
  items_found : list string;
  items_not_found : list string;
  items_count : nat
}.

(** The local [rounded] of [_round_to_decimal_places]. *)
Definition rounded (value : float) : result Decimal.decimal :=
  Decimal.quantize_cents (Decimal.of_float_str value).

Definition _round_to_decimal_places (value : float) : result float :=
  r ← rounded value; Ok (Decimal.to_float r).

(** The loop of [_calculate_subtotal] with its three accumulators. *)
Fixpoint subtotal_loop (costs : gmap string float) (items : list string)
    (subtotal : float) (items_found items_not_found : list string)
    : float * list string * list string :=
  match items with
  | [] => (subtotal, items_found, items_not_found)
  | item :: rest =>
      let item_stripped := if PyStr.truthy item then PyStr.strip item else "" in
      if negb (PyStr.truthy item_stripped) then
        subtotal_loop costs rest subtotal items_found items_not_found
      else
        match costs !! item_stripped with
        | Some item_cost =>
            subtotal_loop costs rest (fadd subtotal item_cost)
              (items_found ++ [item_stripped]) items_not_found
        | None =>
            subtotal_loop costs rest subtotal
              items_found (items_not_found ++ [item_stripped])
        end
  end.

Definition _calculate_subtotal (items : list string) (costs : gmap string float)
    : float * list string * list string :=
  subtotal_loop costs items zero [] [].

Definition _calculate_tax_and_total (subtotal tax_rate : float) : float * float :=
  let tax_amount := fmul subtotal tax_rate in
  let total := fadd subtotal tax_amount in
  (tax_amount, total).

Definition calculate_total (request : ShoppingTotalRequest)
    : result ShoppingTotalResponse :=
  let '(subtotal, items_found, items_not_found) :=
    _calculate_subtotal (items request) (costs request) in
  let '(tax_amount, total) := _calculate_tax_and_total subtotal (tax request) in
  subtotal_rounded ← _round_to_decimal_places subtotal;
  tax_amount_rounded ← _round_to_decimal_places tax_amount;
  total_rounded ← _round_to_decimal_places total;
  let items_count := (length items_found + length items_not_found)%nat in
  Ok {| subtotal := subtotal_rounded;
        tax_amount := tax_amount_rounded;
        total := total_rounded;
        items_found := items_found;
        items_not_found := items_not_found;
        items_count := items_count |}.

End ShoppingService.

(** ** app/shopping/models.py *)

Module ShoppingModels.

Import PyFloat.

(** The values [json.loads] builds.  The items of a dict come in insertion
    order, their keys pairwise distinct. *)
#[warnings="-register-all"]
Inductive pyvalue : Type :=
  | PyNone
  | PyBool (b : bool)
  | PyInt (n : Z)
  | PyFloat (x : float)
  | PyStr (s : string)
  | PyList (l : list pyvalue)
  | PyDict (items : list (string * pyvalue)).

(** [isinstance(value, (int, float))]; [bool] is a subclass of [int]. *)
Definition is_int_or_float (value : pyvalue) : bool :=
  match value with
  | PyInt _ | PyFloat _ | PyBool _ => true
  | _ => false
  end.

(** [value < 0] for a value that passed [is_int_or_float]. *)
Definition lt_zero (value : pyvalue) : bool :=
  match value with
  | PyInt n => n <? 0
  | PyFloat x => flt x zero
  | _ => false
  end.

(** [float(value)] for a value that passed [is_int_or_float]. *)
Definition float_of_value (value : pyvalue) : result float :=
  match value with
  | PyInt n => of_int n
  | PyFloat x => Ok x
  | PyBool true => Ok (of_decimal false 1 0)
  | _ => Ok zero
  end.

(** [needle in hay] for strings. *)
Fixpoint is_infix (needle hay : string) : bool :=
  String.prefix needle hay
  || match hay with
     | EmptyString => false
     | String _ hay' => is_infix needle hay'
     end.

Definition newline : ascii := ascii_of_N 10.

(** The character class [[,;\n]] of the line splitter. *)
Definition is_line_sep (c : ascii) : bool :=
  Ascii.eqb c "," || Ascii.eqb c ";" || Ascii.eqb c newline.

(** The last character of a string, as a string. *)
Fixpoint last_char (s : string) : string :=
  match s with
  | EmptyString => EmptyString
  | String c EmptyString => String c EmptyString
  | String _ s' => last_char s'
  end.

(** [\s*(.+)$] on the text after the colon: the white space goes to [\s*]
    as long as one character is left for the group. *)
Definition match_price (rest : string) : option string :=
  match PyStr.lstrip rest with
  | String c r => Some (String c r)
  | EmptyString =>
      match rest with
      | EmptyString => None
      | _ => Some (last_char rest)
      end
  end.

(** The lazy [(.+?)] grows one character at a time until a colon with a
    non-empty rest follows; [name] is what it holds so far. *)
Fixpoint match_name (name rest : string) : option (string * string) :=
  match rest with
  | EmptyString => None
  | String c rest' =>
      match (if Ascii.eqb c ":" then match_price rest' else None) with
      | Some price => Some (name, price)
      | None => match_name (name ++ String c EmptyString)%string rest'
      end
  end.

(** [re.match(r'^(.+?)[:]\s*(.+)$', line)]: the two groups.  A line has no
    newline in it (the lines come from a split at newlines), so [.] takes
    every character. *)
Definition match_item_price (line : string) : option (string * string) :=
  match line with
  | EmptyString => None
  | String c rest => match_name (String c EmptyString) rest
  end.

(** The loop over the items of the decoded JSON object. *)
Fixpoint json_loop (items : list (string * pyvalue))
    (costs_dict : gmap string float) : result (gmap string float) :=
  match items with
  | [] => Ok costs_dict
  | (key, value) :: rest =>
      if negb (is_int_or_float value) then Raise (ValueError (CostNotNumber key))
      else if lt_zero value then Raise (ValueError (CostNegative key))
      else x ← float_of_value value; json_loop rest (<[key := x]> costs_dict)
  end.

(** The [except ValueError] clause around [float(price_str)]: the error of
    [float] is raised again as it is when its text contains "cannot be
    negative", and replaced otherwise. *)
Definition price_error (item price_str : string) : message :=
  let r := FloatParse.repr_str price_str in
  if is_infix "cannot be negative" ("could not convert string to float: " ++ r)%string
  then CouldNotConvert r
  else InvalidPrice item price_str.

(** The loop over the lines of the key:value format. *)
Fixpoint lines_loop (lines : list string)
    (costs_dict : gmap string float) : result (gmap string float) :=
  match lines with
  | [] => Ok costs_dict
  | line :: rest =>
      let line := PyStr.strip line in
      if negb (PyStr.truthy line) then lines_loop rest costs_dict
      else
        match match_item_price line with
        | Some (g1, g2) =>
            let item := PyStr.strip g1 in
            let price_str := PyStr.strip g2 in
            if negb (PyStr.truthy item) then lines_loop rest costs_dict
            else
              match FloatParse.float_of_string price_str with
              | Some price =>
                  if flt price zero then Raise (ValueError (CostNegative item))
                  else lines_loop rest (<[item := price]> costs_dict)
              | None => Raise (ValueError (price_error item price_str))
              end
        | None => lines_loop rest costs_dict
        end
  end.

(** The key:value part of [_parse_costs], on the trimmed input. *)
Definition parse_key_value (costs_input : string) : result (gmap string float) :=
  costs_dict ← lines_loop (PyStr.split_at is_line_sep costs_input) ∅;
  if decide (costs_dict = ∅) then Raise (ValueError CostsNotParsed)
  else Ok costs_dict.

(** What the JSON part does with a decoded document. *)
Definition costs_of_json (doc : pyvalue) : result (gmap string float) :=
  match doc with
  | PyDict items => json_loop items ∅
  | _ => Raise AttributeError
  end.

Section ParseCosts.
(** [json.loads]; [None] stands for [json.JSONDecodeError]. *)
Variable json_loads : string -> option pyvalue.

Definition _parse_costs (costs_input : string) : result (gmap string float) :=
  let costs_input := PyStr.strip costs_input in
  if negb (PyStr.truthy costs_input) then Raise (ValueError CostsInputEmpty)
  else
    match (if PyStr.startswith "{" (PyStr.strip costs_input)
           then json_loads costs_input else None) with
    | Some doc => costs_of_json doc
    | None => parse_key_value costs_input
    end.
End ParseCosts.

(** [[item.strip() for item in pieces if item.strip()]] *)
Definition stripped_nonempty (pieces : list string) : list string :=
  map PyStr.strip (List.filter (fun item => PyStr.truthy (PyStr.strip item)) pieces).

Definition _parse_items (items_input : string) : result (list string) :=
  let items_input := PyStr.strip items_input in
  if negb (PyStr.truthy items_input) then Raise (ValueError ItemsInputEmpty)
  else
    let items :=
      if PyStr.contains "," items_input
      then stripped_nonempty (PyStr.split_char "," items_input)
      else if PyStr.contains newline items_input
      then stripped_nonempty (PyStr.split_char newline items_input)
      else if PyStr.contains " " items_input
              && (1 <? length (PyStr.split_ws items_input))%nat
      then stripped_nonempty (PyStr.split_ws items_input)
      else if PyStr.truthy (PyStr.strip items_input)
      then [PyStr.strip items_input] else [] in
    let items := List.filter PyStr.truthy items in
    match items with
    | [] => Raise (ValueError NoItems)
    | _ => Ok items
    end.

End ShoppingModels.

(** ** app/dictionary/service.py *)

Module Dictionary.

(** The columns of a dictionary entry the service reads and writes. *)
Record DictionaryEntry : Type := {
  word : string;
  definition : string
}.

(** [IDictionaryRepository]: the operations the service calls, on a
    repository state [R].  An operation that can raise returns the state it
    leaves behind together with its outcome. *)
Class IDictionaryRepository (R : Type) : Type := {
  find_by_word : R -> string -> option DictionaryEntry;
  create : R -> string -> string -> R * result DictionaryEntry;
  commit : R -> R * result unit;
  rollback : R -> R
}.

Definition _validate_word_input (word definition : string) : result unit :=
  if negb (PyStr.truthy word) || negb (PyStr.truthy (PyStr.strip word))
  then Raise (ValueError WordEmpty)
  else if negb (PyStr.truthy definition)
          || negb (PyStr.truthy (PyStr.strip definition))
  then Raise (ValueError DefinitionEmpty)
  else Ok tt.

Section Service.
Context {R : Type} `{IDictionaryRepository R}.

(** The two [except] clauses of [add_word]: roll back and translate. *)
Definition add_word_except (repo : R) (normalized_word : string) (e : exn)
    : R * result DictionaryEntry :=
  match e with
  | IntegrityError =>
      (rollback repo, Raise (DictionaryWordAlreadyExistsError normalized_word))
  | ValueError msg => (rollback repo, Raise (ValueError msg))
  | _ => (repo, Raise e)
  end.

Definition add_word (repo : R) (word definition : string)
    : R * result DictionaryEntry :=
  match _validate_word_input word definition with
  | Raise e => (repo, Raise e)
  | Ok _ =>
      let normalized_word := PyStr.lower (PyStr.strip word) in
      let normalized_definition := PyStr.strip definition in
      match find_by_word repo normalized_word with
      | Some _ => (repo, Raise (DictionaryWordAlreadyExistsError normalized_word))
      | None =>
          match create repo normalized_word normalized_definition with
          | (repo1, Ok entry) =>
              match commit repo1 with
              | (repo2, Ok _) => (repo2, Ok entry)
              | (repo2, Raise e) => add_word_except repo2 normalized_word e
              end
          | (repo1, Raise e) => add_word_except repo1 normalized_word e
          end
      end
  end.

Definition get_word (repo : R) (word : string) : result DictionaryEntry :=
  if negb (PyStr.truthy word) || negb (PyStr.truthy (PyStr.strip word))
  then Raise (ValueError WordEmptyOrWhitespace)
  else
    let normalized_word := PyStr.lower (PyStr.strip word) in
    match find_by_word repo normalized_word with
    | None => Raise (DictionaryWordNotFoundError normalized_word)
    | Some entry => Ok entry
    end.
End Service.

(** Modelled from the spec: app/dictionary/repository.py and
    app/dictionary/db_models.py are not part of the sources at hand.  The
    store is "a key-value lookup keyed by lowercased word" with a
    "unique constraint"; its tests add that the lookup ignores case, that
    [create] trims its arguments and rejects empty ones, and that an entry
    is only kept once committed. *)
Record store : Type := {
  committed : gmap string DictionaryEntry;
  pending : gmap string DictionaryEntry
}.

Definition empty_store : store := {| committed := ∅; pending := ∅ |}.

Definition store_find (st : store) (w : string) : option DictionaryEntry :=
  match pending st !! PyStr.lower w with
  | Some entry => Some entry
  | None => committed st !! PyStr.lower w
  end.

Definition store_create (st : store) (w d : string) : store * result DictionaryEntry :=
  if negb (PyStr.truthy (PyStr.strip w)) then (st, Raise (ValueError WordEmpty))
  else if negb (PyStr.truthy (PyStr.strip d)) then (st, Raise (ValueError DefinitionEmpty))
  else
    match store_find st (PyStr.strip w) with
    | Some _ => (st, Raise IntegrityError)
    | None =>
        let entry := {| word := PyStr.strip w; definition := PyStr.strip d |} in
        ({| committed := committed st;
            pending := <[PyStr.lower (PyStr.strip w) := entry]> (pending st) |},
         Ok entry)
    end.

Definition store_commit (st : store) : store * result unit :=
  ({| committed := pending st ∪ committed st; pending := ∅ |}, Ok tt).

Definition store_rollback (st : store) : store :=
  {| committed := committed st; pending := ∅ |}.

#[global] Instance store_repository : IDictionaryRepository store := {
  find_by_word := store_find;
  create := store_create;
  commit := store_commit;
  rollback := store_rollback
}.

End Dictionary.

(** ** Definitions on the side of the specification *)

Module Spec.

(** The words of a list with their positions. *)
Definition indexed_from (start : nat) (ws : list string) : list (nat * string) :=
  combine (seq start (length ws)) ws.

(** A word is long enough for its position. *)
Definition long_enough (iw : nat * string) : bool :=
  (fst iw <? String.length (snd iw))%nat.

(** The character a word contributes: the one at its own position. *)
Definition own_char (iw : nat * string) : list ascii :=
  if long_enough iw then
    match String.get (fst iw) (snd iw) with
    | Some c => [c]
    | None => []
    end
  else [].

(** The requested items as the calculator reads them: trimmed, the blank
    ones left out. *)
Definition trimmed_items (items : list string) : list string :=
  List.filter PyStr.truthy (map PyStr.strip items).

(** An item has a price in the cost table. *)
Definition priced (costs : gmap string PyFloat.float) (item : string) : bool :=
  match costs !! item with
  | Some _ => true
  | None => false
  end.

(** Every token trimmed, the empty ones dropped. *)
Definition tokens (pieces : list string) : list string :=
  List.filter PyStr.truthy (map PyStr.strip pieces).

(** The delimiter rules of the item-list parser on a trimmed input, the
    first that applies; [spaced] says when the third rule may apply. *)
Definition item_pieces (spaced : string -> bool) (s : string) : list string :=
  if PyStr.contains "," s then PyStr.split_char "," s
  else if PyStr.contains ShoppingModels.newline s
  then PyStr.split_char ShoppingModels.newline s
  else if spaced s && (1 <? length (PyStr.split_ws s))%nat then PyStr.split_ws s
  else [s].

Definition parse_items_by (spaced : string -> bool) (input : string)
    : option (list string) :=
  match tokens (item_pieces spaced (PyStr.strip input)) with
  | [] => None
  | l => Some l
  end.

(** "contains whitespace" *)
Fixpoint has_whitespace (s : string) : bool :=
  match s with
  | EmptyString => false
  | String c s' => PyStr.isspace c || has_whitespace s'
  end.

(** The parser as the claim words it: the third rule asks for any
    whitespace. *)
Definition parse_items_claimed : string -> option (list string) :=
  parse_items_by has_whitespace.

(** The parser with the third rule asking for a space character. *)
Definition parse_items_spaces : string -> option (list string) :=
  parse_items_by (PyStr.contains " ").

(** The outcome of a parser run: its value, or nothing when it raised. *)
Definition value_of {A : Type} (r : result A) : option A :=
  match r with
  | Ok a => Some a
  | Raise _ => None
  end.

(** The float a decimal literal [c * 10^e] of the program text denotes. *)
Definition literal (c e : Z) : PyFloat.float := PyFloat.of_decimal false c e.

Definition sign_of (neg : bool) : Q := if neg then (- 1)%Q else 1%Q.

(** The real numbers a finite float and a finite decimal stand for. *)
Definition float_value (x : PyFloat.float) : Q :=
  match x with
  | S754_finite s m e => (sign_of s * inject_Z (Zpos m) * 2 ^ e)%Q
  | _ => 0%Q
  end.

Definition decimal_value (d : Decimal.decimal) : Q :=
  match d with
  | Decimal.Dec s c p => (sign_of s * inject_Z c * 10 ^ p)%Q
  | _ => 0%Q
  end.

(** A number of cents: the coefficient of a decimal with exponent -2. *)
Definition cents_of (d : Decimal.decimal) : Z :=
  match d with
  | Decimal.Dec s c _ => if s then - c else c
  | _ => 0
  end.

(** Rounding the binary value [m * 2^e] itself to cents, halves upwards:
    what the rounding would give without the detour through the text. *)
Definition binary_half_up_cents (m : positive) (e : Z) : Z :=
  (2 * 100 * Zpos m * 2 ^ Z.max e 0 + 2 ^ Z.max (- e) 0) / (2 * 2 ^ Z.max (- e) 0).

(** The cart of the end-to-end example: apple 1.50, banana 0.75, both
    requested, tax rate 0.1. *)
Definition example_cart : ShoppingService.ShoppingTotalRequest :=
  {| ShoppingService.costs :=
       <["banana" := literal 75 (-2)]> (<["apple" := literal 150 (-2)]> ∅);
     ShoppingService.items := ["apple"; "banana"];
     ShoppingService.tax := literal 1 (-1) |}.

(** *** The key:value format, line by line *)

(** The text before and after the first colon of [s] that has something
    after it. *)
Fixpoint colon_split (s : string) : option (string * string) :=
  match s with
  | EmptyString => None
  | String c s' =>
      if Ascii.eqb c ":" then
        match s' with
        | EmptyString => None
        | _ => Some (EmptyString, s')
        end
      else
        match colon_split s' with
        | Some (name, rest) => Some (String c name, rest)
        | None => None
        end
  end.

(** [<name>:<price>]: the name has one character at least, so the colon
    is looked for from the second character on. *)
Definition name_and_price (line : string) : option (string * string) :=
  match line with
  | EmptyString => None
  | String c s =>
      match colon_split s with
      | Some (name, rest) => Some (String c name, rest)
      | None => None
      end
  end.

(** What a candidate line amounts to. *)
Inductive line_outcome : Type :=
  | Skipped
  | Priced (name : string) (price : PyFloat.float)
  | BadPrice (name text : string)
  | NegativePrice (name : string).

Definition read_line (line : string) : line_outcome :=
  match name_and_price (PyStr.strip line) with
  | None => Skipped
  | Some (name, rest) =>
      if negb (PyStr.truthy (PyStr.strip name)) then Skipped
      else
        match FloatParse.float_of_string (PyStr.strip rest) with
        | None => BadPrice (PyStr.strip name) (PyStr.strip rest)
        | Some price =>
            if PyFloat.flt price PyFloat.zero then NegativePrice (PyStr.strip name)
            else Priced (PyStr.strip name) price
        end
  end.

(** The error of the first line that is not accepted, if there is one. *)
Fixpoint first_rejection (outcomes : list line_outcome) : option message :=
  match outcomes with
  | [] => None
  | BadPrice name text :: _ => Some (ShoppingModels.price_error name text)
  | NegativePrice name :: _ => Some (CostNegative name)
  | _ :: rest => first_rejection rest
  end.

(** The name:price pairs of the lines, in the order of the lines. *)
Fixpoint priced_pairs (outcomes : list line_outcome)
    : list (string * PyFloat.float) :=
  match outcomes with
  | [] => []
  | Priced name price :: rest => (name, price) :: priced_pairs rest
  | _ :: rest => priced_pairs rest
  end.

(** The candidate lines of an input. *)
Definition outcomes_of (input : string) : list line_outcome :=
  map read_line (PyStr.split_at ShoppingModels.is_line_sep input).

Definition store_pair (d : gmap string PyFloat.float) (p : string * PyFloat.float)
    : gmap string PyFloat.float :=
  <[p.1 := p.2]> d.

(** The cost table of the pairs, a later pair for a name replacing an
    earlier one. *)
Definition last_wins (pairs : list (string * PyFloat.float))
    : gmap string PyFloat.float :=
  list_to_map (reverse pairs).

(** The key:value format as the specification describes it. *)
Definition key_value_costs (text : string) : result (gmap string PyFloat.float) :=
  match first_rejection (outcomes_of text) with
  | Some msg => Raise (ValueError msg)
  | None =>
      match priced_pairs (outcomes_of text) with
      | [] => Raise (ValueError CostsNotParsed)
      | pairs => Ok (last_wins pairs)
      end
  end.

(** A JSON value that is a number and not below zero, with the float it
    stands for. *)
Definition nonnegative_number (value : ShoppingModels.pyvalue)
    : option PyFloat.float :=
  match value with
  | ShoppingModels.PyInt n =>
      if n <? 0 then None
      else match PyFloat.of_int n with
           | Ok x => Some x
           | Raise _ => None
           end
  | ShoppingModels.PyFloat x => if PyFloat.flt x PyFloat.zero then None else Some x
  | _ => None
  end.

(** The record after shifting [M] right by [k >= 1] places: the quotient,
    whether the remainder reaches the half, and whether it is neither zero
    nor the half. *)
Definition shifted (M : Z) (k : nat) : shr_record :=
  let rem := M mod 2 ^ Z.of_nat k in
  let half := 2 ^ (Z.of_nat k - 1) in
  {| shr_m := M / 2 ^ Z.of_nat k;
     shr_r := half <=? rem;
     shr_s := negb (rem =? 0) && negb (rem =? half) |}.

(** The float with sign [s], mantissa [m] and exponent [e]: a zero for
    [m = 0], an infinity beyond the largest exponent. *)
Definition assemble (s : bool) (m e : Z) : PyFloat.float :=
  match m with
  | Z0 => S754_zero s
  | Zpos p =>
      if e <=? PyFloat.emax - PyFloat.prec then S754_finite s p e
      else S754_infinity s
  | Zneg _ => S754_nan
  end.

(** Half a unit in the last place of a finite float; for a zero, half the
    least positive float. *)
Definition half_ulp (x : PyFloat.float) : Q :=
  match x with
  | S754_finite _ _ e => (2 ^ (e - 1))%Q
  | S754_zero _ => (2 ^ (-1075))%Q
  | _ => 0%Q
  end.

(** What the rounding of an exact [m * 2^e] returns: a float in canonical
    form, within half a unit in the last place of the exact value; an
    infinity only for a value of [2^1023] or more. *)
Definition rounds_to (z : PyFloat.float) (exact : Q) : Prop :=
  valid_binary PyFloat.prec PyFloat.emax z = true
  /\ match z with
     | S754_nan => False
     | S754_infinity _ => (2 ^ 1023 <= Qabs exact)%Q
     | _ => (Qabs (float_value z - exact) <= half_ulp z)%Q
     end.

(** A cart with one item priced 9007199254740994 (2^53 + 2) at tax rate
    0.5. *)
Definition large_cart : ShoppingService.ShoppingTotalRequest :=
  {| ShoppingService.costs := {[ "x" := literal 9007199254740994 0 ]};
     ShoppingService.items := ["x"];
     ShoppingService.tax := literal 5 (-1) |}.

(** A double quote, for the JSON texts of the examples. *)
Definition dquote : string := String (ascii_of_N 34) EmptyString.

(** A decoder that rejects every document, and one that returns the same
    document for every text: stand-ins for [json.loads] in the examples. *)
Definition decode_nothing : string -> option ShoppingModels.pyvalue :=
  fun _ => None.

Definition decode_as (doc : ShoppingModels.pyvalue)
    : string -> option ShoppingModels.pyvalue :=
  fun _ => Some doc.

End Spec.
(** ** app/core/utils.py *)

Module Utils.

(** The messages of the [ValueError]s the module raises. *)
Inductive error : Type :=
  | StringEmpty                        (* String cannot be empty *)
  | StringOnlyWhitespace               (* String cannot be only whitespace *)
  | FieldEmpty (field_name : string).  (* <field_name> cannot be empty or only whitespace *)

(** [normalize_string(value, to_lower)]; [inl] is the [ValueError]
    raised. *)
Definition normalize_string (value : string) (to_lower : bool) : error + string :=
  if negb (PyStr.truthy value) then inl StringEmpty
  else
    let normalized := PyStr.strip value in
    if negb (PyStr.truthy normalized) then inl StringOnlyWhitespace
    else
      let normalized := if to_lower then PyStr.lower normalized else normalized in
      inr normalized.

(** [is_empty_or_whitespace(value)] for an [Optional[str]]. *)
Definition is_empty_or_whitespace (value : option string) : bool :=
  match value with
  | None => true
  | Some s =>
      if negb (PyStr.truthy s) then true
      else negb (PyStr.truthy (PyStr.strip s))
  end.

(** [validate_not_empty(value, field_name)] *)
Definition validate_not_empty (value field_name : string) : error + string :=
  if is_empty_or_whitespace (Some value) then inl (FieldEmpty field_name)
  else inr (PyStr.strip value).

End Utils.

(** ** app/words/models.py *)

Module WordsModels.

Inductive error : Type :=
  | AtLeastOneWord                     (* At least one word is required *)
  | WordAtPositionEmpty (i : nat).     (* Word at position <i> cannot be empty *)

(** The loop of [validate_words_not_empty] over [enumerate(v)], from
    position [i] on. *)
Fixpoint words_loop (i : nat) (v : list string) : error + unit :=
  match v with
  | [] => inr tt
  | word :: rest =>
      if negb (PyStr.truthy word) || negb (PyStr.truthy (PyStr.strip word))
      then inl (WordAtPositionEmpty i)
      else words_loop (S i) rest
  end.

(** The validator of [WordConcatRequest.words]. *)
Definition validate_words_not_empty (v : list string) : error + list string :=
  match v with
  | [] => inl AtLeastOneWord
  | _ =>
      match words_loop 0 v with
      | inl e => inl e
      | inr _ => inr (map PyStr.strip v)
      end
  end.

End WordsModels.

(** ** app/shopping/models.py: the validators of ShoppingTotalRequest *)

Module ShoppingValidators.

Import PyFloat.

Inductive error : Type :=
  | NegativeCost (item : string)       (* Cost for '<item>' cannot be negative: ... *)
  | AtLeastOneItem                     (* At least one item is required *)
  | OnlyEmptyStrings.                  (* Items list cannot contain only empty strings *)

(** The loop of [validate_costs] over [v.items()]. *)
Fixpoint costs_loop (items : list (string * float)) : error + unit :=
  match items with
  | [] => inr tt
  | (item, cost) :: rest =>
      if flt cost zero then inl (NegativeCost item) else costs_loop rest
  end.

(** [validate_costs]: the dict comes as the list of its items. *)
Definition validate_costs (v : list (string * float)) : error + list (string * float) :=
  match costs_loop v with
  | inl e => inl e
  | inr _ => inr v
  end.

Definition validate_items_not_empty (v : list string) : error + list string :=
  match v with
  | [] => inl AtLeastOneItem
  | _ =>
      let filtered :=
        map PyStr.strip
          (List.filter (fun item => PyStr.truthy item && PyStr.truthy (PyStr.strip item)) v) in
      match filtered with
      | [] => inl OnlyEmptyStrings
      | _ => inr filtered
      end
  end.

End ShoppingValidators.

(** ** app/dictionary/schemas.py *)

Module DictionarySchemas.

Inductive error : Type :=
  | WordBlank                          (* Word cannot be empty or only whitespace *)
  | DefinitionBlank.                   (* Definition cannot be empty or only whitespace *)

(** The validator of [WordAddRequest.word]. *)
Definition validate_word (v : string) : error + string :=
  let word := PyStr.strip v in
  if negb (PyStr.truthy word) then inl WordBlank else inr word.

(** The validator of [WordAddRequest.definition]. *)
Definition validate_definition (v : string) : error + string :=
  let definition := PyStr.strip v in
  if negb (PyStr.truthy definition) then inl DefinitionBlank else inr definition.

End DictionarySchemas.

(** ** Notions used to state the properties of the code above *)

Module Props.

Import PyFloat.

(** The characters of a string. *)
Definition chars (s : string) : list ascii := list_ascii_of_string s.

(** A string of whitespace only; the empty string is one. *)
Definition blank (s : string) : bool := forallb PyStr.isspace (chars s).

(** A string as the validators and parsers leave it: not blank, and with
    no white space around it (trimming it changes nothing). *)
Definition clean (item : string) : Prop :=
  blank item = false /\ PyStr.strip item = item.

(** A name as the key:value format of the cost table stores it: clean
    and without a character that ends a line of the format. *)
Definition stored_name (key : string) : Prop :=
  clean key /\ forall a : ascii, In a (chars key) -> ShoppingModels.is_line_sep a = false.

(** A string made of commas and whitespace only. *)
Definition commas_and_space (s : string) : bool :=
  forallb (fun c => Ascii.eqb c "," || PyStr.isspace c) (chars s).

(** [sep.join(items)] *)
Fixpoint join_with (sep : string) (items : list string) : string :=
  match items with
  | [] => ""
  | [x] => x
  | x :: rest => (x ++ sep ++ join_with sep rest)%string
  end.

(** The position of the first blank word of a list, counted from [i]. *)
Fixpoint first_blank (i : nat) (v : list string) : option nat :=
  match v with
  | [] => None
  | w :: rest => if blank w then Some i else first_blank (S i) rest
  end.

(** The prices of the requested items that have one, in request order. *)
Definition prices_of (costs : gmap string float) (items : list string) : list float :=
  omap (fun item => costs !! item) (Spec.trimmed_items items).

(** A repository without state in which another writer is always first:
    no word is found, and creating one violates the unique constraint.  A
    stand-in for the examples. *)
Definition lost_race : Dictionary.IDictionaryRepository unit :=
  {| Dictionary.find_by_word := fun _ _ => None;
     Dictionary.create := fun _ _ _ => (tt, Raise IntegrityError);
     Dictionary.commit := fun _ => (tt, Ok tt);
     Dictionary.rollback := fun _ => tt |}.

(** A float that is not below zero: [x < 0] is false. *)
Definition not_negative (x : float) : bool := negb (flt x zero).

(** [-x] *)
Definition fneg (x : float) : float := SFopp x.

(** A zero of either sign. *)
Definition is_zero (x : float) : bool :=
  match x with
  | S754_zero _ => true
  | _ => false
  end.

End Props.

(** * Properties *)

(** ** Word concatenation *)

Module WordsFacts.

Import Words Spec.

Lemma get_in_range (w : string) (i : nat) :
  (i < String.length w)%nat -> exists c, String.get i w = Some c.
Proof.
  revert i; induction w as [|a w IH]; intros i Hi; simpl in *.
  - lia.
  - destruct i as [|i]; [eauto|]. apply IH. lia.
Qed.

Lemma valid_index_long_enough (w : string) (i : nat) :
  _is_valid_index w (Z.of_nat i) = long_enough (i, w).
Proof.
  unfold _is_valid_index, long_enough; simpl.
  destruct (Nat.ltb_spec i (String.length w)).
  - apply andb_true_iff; split; [apply Z.leb_le|apply Z.ltb_lt]; lia.
  - apply andb_false_iff; right; apply Z.ltb_ge; lia.
Qed.

(** The loop adds the characters of the long enough words to
    [result_chars] and the number of the others to [skipped_count]. *)
Lemma extract_loop_spec (ws : list string) :
  forall (i : nat) (acc : list ascii) (sk : nat),
    extract_loop i ws acc sk
    = (acc ++ flat_map own_char (indexed_from i ws),
       (sk + length (List.filter (fun iw => negb (long_enough iw)) (indexed_from i ws)))%nat).
Proof.
  induction ws as [|w ws IH]; intros i acc sk.
  - simpl. rewrite app_nil_r. f_equal. lia.
  - cbn [extract_loop]. rewrite valid_index_long_enough.
    unfold indexed_from in *. cbn [length seq combine flat_map List.filter].
    unfold own_char at 1. destruct (long_enough (i, w)) eqn:Hle; cbn [negb fst snd].
    + destruct (get_in_range w i) as [c Hc].
      { unfold long_enough in Hle; simpl in Hle. apply Nat.ltb_lt in Hle. exact Hle. }
      rewrite Hc, IH, <- app_assoc. reflexivity.
    + rewrite IH. cbn [length app]. f_equal. lia.
Qed.

Lemma filter_split_length {A : Type} (p : A -> bool) (l : list A) :
  (length (List.filter p l) + length (List.filter (fun x => negb (p x)) l))%nat = length l.
Proof.
  induction l as [|x l IH]; simpl; [reflexivity|].
  destruct (p x); simpl; lia.
Qed.

Lemma own_chars_length (l : list (nat * string)) :
  length (flat_map own_char l) = length (List.filter long_enough l).
Proof.
  induction l as [|[i w] l IH]; simpl; [reflexivity|].
  rewrite length_app, IH. unfold own_char.
  destruct (long_enough (i, w)) eqn:Hle; simpl; [|reflexivity].
  destruct (get_in_range w i) as [c Hc].
  { unfold long_enough in Hle; simpl in Hle. apply Nat.ltb_lt in Hle. exact Hle. }
  simpl in Hc. rewrite Hc. reflexivity.
Qed.

(** C9: the result is made of the characters at position i of the words at
    index i whose length exceeds i, in list order; those words are counted
    as extracted and all others as skipped; "hello", "world", "test" gives
    "hos" with 3 extracted and 0 skipped. *)
Theorem concatenate_words_by_position :
  (forall ws : list string,
     let r := concatenate_words ws in
     let positions := indexed_from 0 ws in
     result_ r = PyStr.join (flat_map own_char positions)
     /\ characters_extracted r = length (List.filter long_enough positions)
     /\ characters_skipped r
        = length (List.filter (fun iw => negb (long_enough iw)) positions)
     /\ (characters_extracted r + characters_skipped r)%nat = length ws
     /\ (forall i w, In (i, w) positions ->
           if long_enough (i, w)
           then exists c, String.get i w = Some c /\ own_char (i, w) = [c]
           else own_char (i, w) = []))
  /\ (let r := concatenate_words ["hello"; "world"; "test"] in
      result_ r = "hos" /\ characters_extracted r = 3%nat
      /\ characters_skipped r = 0%nat).
Proof.
  split; [|repeat split; reflexivity].
  intros ws r positions. subst r positions.
  unfold concatenate_words, _extract_characters_by_index.
  rewrite extract_loop_spec. cbn [app Nat.add result_ characters_extracted characters_skipped].
  rewrite own_chars_length.
  repeat split.
  - rewrite filter_split_length. unfold indexed_from.
    rewrite length_combine, length_seq. lia.
  - intros i w _. unfold own_char. destruct (long_enough (i, w)) eqn:Hle; [|reflexivity].
    destruct (get_in_range w i) as [c Hc].
    { unfold long_enough in Hle; simpl in Hle. apply Nat.ltb_lt in Hle. exact Hle. }
    exists c. cbn [fst snd]. rewrite Hc. auto.
Qed.

Lemma concatenate_words_by_position_witness :
  In (1%nat, "hi") (indexed_from 0 ["hello"; "hi"; "test"])
  /\ exists c, String.get 1 "hi" = Some c /\ own_char (1%nat, "hi") = [c].
Proof.
  assert (Hin : In (1%nat, "hi") (indexed_from 0 ["hello"; "hi"; "test"]))
    by (right; left; reflexivity).
  split; [exact Hin|].
  destruct concatenate_words_by_position as [Hall _].
  destruct (Hall ["hello"; "hi"; "test"]) as (_ & _ & _ & _ & Hchar).
  exact (Hchar 1%nat "hi" Hin).
Defined.

End WordsFacts.

(** ** The cart calculator: found and missing items *)

Module ItemsFacts.

Import PyFloat ShoppingService Spec.

Lemma strip_empty_guard (item : string) :
  (if PyStr.truthy item then PyStr.strip item else "") = PyStr.strip item.
Proof. destruct item; reflexivity. Qed.

(** The loop appends the priced items to [items_found] and the others to
    [items_not_found], in the order of the request. *)
Lemma subtotal_loop_items (costs : gmap string float) (items : list string) :
  forall (sub : float) (found missing : list string),
    let '(_, found', missing') := subtotal_loop costs items sub found missing in
    found' = found ++ List.filter (priced costs) (trimmed_items items)
    /\ missing' = missing
                  ++ List.filter (fun i => negb (priced costs i)) (trimmed_items items).
Proof.
  induction items as [|item items IH]; intros sub found missing.
  - simpl. rewrite !app_nil_r. auto.
  - cbn [subtotal_loop]. rewrite strip_empty_guard.
    unfold trimmed_items in *. cbn [map List.filter].
    destruct (PyStr.truthy (PyStr.strip item)) eqn:Ht; cbn [negb].
    + cbn [List.filter].
      destruct (costs !! PyStr.strip item) as [c|] eqn:Hc.
      * assert (Hp : priced costs (PyStr.strip item) = true)
          by (unfold priced; rewrite Hc; reflexivity).
        rewrite Hp. cbn [negb].
        specialize (IH (fadd sub c) (found ++ [PyStr.strip item]) missing).
        destruct (subtotal_loop _ _ _ _ _) as [[s f] m].
        destruct IH as [-> ->]. rewrite <- app_assoc. auto.
      * assert (Hp : priced costs (PyStr.strip item) = false)
          by (unfold priced; rewrite Hc; reflexivity).
        rewrite Hp. cbn [negb].
        specialize (IH sub found (missing ++ [PyStr.strip item])).
        destruct (subtotal_loop _ _ _ _ _) as [[s f] m].
        destruct IH as [-> ->]. rewrite <- app_assoc. auto.
    + apply IH.
Qed.

Lemma filter_partition_perm {A : Type} (p : A -> bool) (l : list A) :
  Permutation (List.filter p l ++ List.filter (fun x => negb (p x)) l) l.
Proof.
  induction l as [|x l IH]; simpl; [constructor|].
  destruct (p x); simpl.
  - constructor. exact IH.
  - apply Permutation_sym, Permutation_cons_app, Permutation_sym, IH.
Qed.

(** What [calculate_total] returns in its item fields. *)
Lemma calculate_total_items (request : ShoppingTotalRequest)
    (resp : ShoppingTotalResponse) :
  calculate_total request = Ok resp ->
  items_found resp = List.filter (priced (costs request)) (trimmed_items (items request))
  /\ items_not_found resp
     = List.filter (fun i => negb (priced (costs request) i)) (trimmed_items (items request))
  /\ items_count resp = (length (items_found resp) + length (items_not_found resp))%nat.
Proof.
  unfold calculate_total, _calculate_subtotal.
  pose proof (subtotal_loop_items (costs request) (items request) zero [] []) as Hloop.
  destruct (subtotal_loop _ _ _ _ _) as [[sub found] missing].
  destruct Hloop as [-> ->]. cbn [app].
  destruct (_calculate_tax_and_total sub (tax request)) as [t T].
  destruct (_round_to_decimal_places sub); [|discriminate].
  destruct (_round_to_decimal_places t); [|discriminate].
  destruct (_round_to_decimal_places T); [|discriminate].
  cbn. intros [= <-]. cbn. auto.
Qed.

(** C4: in every response of calculate_total, items_found and
    items_not_found are the priced and the unpriced trimmed non-empty items
    of the request, each in input order; together they are, as a multiset,
    those items (blank items are in neither list); and items_count is the
    sum of the two lengths. *)
Theorem calculate_total_partitions_items (request : ShoppingTotalRequest)
    (resp : ShoppingTotalResponse) :
  calculate_total request = Ok resp ->
  let kept := trimmed_items (items request) in
  Permutation (items_found resp ++ items_not_found resp) kept
  /\ items_found resp = List.filter (priced (costs request)) kept
  /\ items_not_found resp = List.filter (fun i => negb (priced (costs request) i)) kept
  /\ items_count resp = (length (items_found resp) + length (items_not_found resp))%nat
  /\ items_count resp = length kept
  /\ (forall i, In i (items_found resp ++ items_not_found resp) ->
        PyStr.truthy i = true).
Proof.
  intros Hcall kept.
  destruct (calculate_total_items request resp Hcall) as (Hf & Hm & Hc).
  assert (Hperm : Permutation (items_found resp ++ items_not_found resp) kept).
  { rewrite Hf, Hm. apply filter_partition_perm. }
  repeat split; auto.
  - rewrite Hc, <- length_app. apply Permutation_length, Hperm.
  - intros i Hi. eapply Permutation_in in Hi; [|exact Hperm].
    unfold kept, trimmed_items in Hi. apply filter_In in Hi. tauto.
Qed.

Lemma calculate_total_partitions_items_witness :
  exists resp : ShoppingTotalResponse,
    calculate_total example_cart = Ok resp
    /\ Permutation (items_found resp ++ items_not_found resp)
         (trimmed_items (items example_cart))
    /\ items_count resp = length (trimmed_items (items example_cart)).
Proof.
  eexists. split; [vm_compute; reflexivity|].
  refine (let H := calculate_total_partitions_items example_cart _ _ in _).
  Unshelve. 3:{ vm_compute. reflexivity. }
  cbv zeta in H. destruct H as (Hperm & _ & _ & _ & Hcount & _).
  split; [exact Hperm|exact Hcount].
Defined.

End ItemsFacts.

(** ** The item-list parser *)

Module ParseItemsFacts.

Import ShoppingModels Spec.

Lemma filter_map_commute {A B : Type} (f : A -> B) (p : B -> bool) (l : list A) :
  List.filter p (map f l) = map f (List.filter (fun x => p (f x)) l).
Proof.
  induction l as [|x l IH]; simpl; [reflexivity|].
  destruct (p (f x)); simpl; rewrite IH; reflexivity.
Qed.

Lemma filter_idem {A : Type} (p : A -> bool) (l : list A) :
  List.filter p (List.filter p l) = List.filter p l.
Proof.
  induction l as [|x l IH]; simpl; [reflexivity|].
  destruct (p x) eqn:Hp; simpl; rewrite ?Hp, IH; reflexivity.
Qed.

(** The comprehension of the parser computes the tokens, and filtering
    them again changes nothing. *)
Lemma stripped_nonempty_tokens (pieces : list string) :
  stripped_nonempty pieces = tokens pieces.
Proof. unfold stripped_nonempty, tokens. symmetry. apply filter_map_commute. Qed.

Lemma tokens_filtered (pieces : list string) :
  List.filter PyStr.truthy (tokens pieces) = tokens pieces.
Proof. apply filter_idem. Qed.

Lemma tokens_of_empty : tokens [""] = [].
Proof. reflexivity. Qed.

Lemma item_pieces_empty (spaced : string -> bool) :
  item_pieces spaced "" = [""].
Proof.
  unfold item_pieces. cbn [PyStr.contains]. cbn [PyStr.split_ws PyStr.split_at List.filter PyStr.truthy length].
  rewrite andb_false_r. reflexivity.
Qed.

(** C7 (as amended): the parser splits on commas if there is one, else on
    newlines if there is one, else on whitespace if the input has a space
    character and more than one token, else takes the trimmed input as one
    item; tokens are trimmed, empty ones dropped, and it fails exactly when
    no token is left. *)
Theorem parse_items_precedence (input : string) :
  value_of (_parse_items input) = parse_items_spaces input
  /\ (match _parse_items input with
      | Ok l => l = tokens (item_pieces (PyStr.contains " ") (PyStr.strip input))
                /\ l <> []
      | Raise _ => tokens (item_pieces (PyStr.contains " ") (PyStr.strip input)) = []
      end).
Proof.
  unfold _parse_items, parse_items_spaces, parse_items_by.
  destruct (PyStr.truthy (PyStr.strip input)) eqn:Hne; cbn [negb].
  - set (s := PyStr.strip input) in *.
    assert (Hitems :
      List.filter PyStr.truthy
        (if PyStr.contains "," s then stripped_nonempty (PyStr.split_char "," s)
         else if PyStr.contains newline s
         then stripped_nonempty (PyStr.split_char newline s)
         else if PyStr.contains " " s && (1 <? length (PyStr.split_ws s))%nat
         then stripped_nonempty (PyStr.split_ws s)
         else if PyStr.truthy (PyStr.strip s) then [PyStr.strip s] else [])
      = tokens (item_pieces (PyStr.contains " ") s)).
    { unfold item_pieces.
      destruct (PyStr.contains "," s);
        [rewrite stripped_nonempty_tokens; apply tokens_filtered|].
      destruct (PyStr.contains newline s);
        [rewrite stripped_nonempty_tokens; apply tokens_filtered|].
      destruct (PyStr.contains " " s && (1 <? length (PyStr.split_ws s))%nat);
        [rewrite stripped_nonempty_tokens; apply tokens_filtered|].
      unfold tokens. cbn [map List.filter].
      destruct (PyStr.truthy (PyStr.strip s)) eqn:Hs; cbn [List.filter];
        rewrite ?Hs; reflexivity. }
    rewrite Hitems.
    destruct (tokens (item_pieces (PyStr.contains " ") s)) as [|t ts];
      cbn [value_of]; repeat split; congruence.
  - destruct (PyStr.strip input); [|discriminate].
    rewrite item_pieces_empty, tokens_of_empty. cbn [value_of]. auto.
Qed.

(** C7 as worded fails on a tab between two words: the parser keeps the
    input as one item, the claim splits it at the tab. *)
Lemma parse_items_tab_not_split :
  let input := String "a" (String (ascii_of_N 9) "b") in
  _parse_items input = Ok [input]
  /\ parse_items_claimed input = Some ["a"; "b"]
  /\ value_of (_parse_items input) <> parse_items_claimed input.
Proof. vm_compute. repeat split; discriminate. Qed.

End ParseItemsFacts.

(** ** The dictionary service *)

Module DictionaryFacts.

Import Dictionary.

Lemma strip_truthy_nonempty (s : string) :
  PyStr.truthy (PyStr.strip s) = true -> PyStr.truthy s = true.
Proof. destruct s; [discriminate|reflexivity]. Qed.

Lemma lstrip_head (s : string) :
  match PyStr.lstrip s with
  | EmptyString => True
  | String c _ => PyStr.isspace c = false
  end.
Proof.
  induction s as [|c s IH]; simpl; [exact I|].
  destruct (PyStr.isspace c) eqn:Hc; [exact IH|exact Hc].
Qed.

Lemma rstrip_head (c : ascii) (s : string) :
  PyStr.isspace c = false -> exists r, PyStr.rstrip (String c s) = String c r.
Proof.
  intros Hc. simpl. destruct (PyStr.rstrip s); rewrite ?Hc; eauto.
Qed.

Lemma rstrip_idem (s : string) : PyStr.rstrip (PyStr.rstrip s) = PyStr.rstrip s.
Proof.
  induction s as [|c s IH]; simpl; [reflexivity|].
  destruct (PyStr.rstrip s) as [|a r] eqn:Hr.
  - destruct (PyStr.isspace c) eqn:Hc; simpl; rewrite ?Hc; reflexivity.
  - cbn [PyStr.rstrip] in *. rewrite IH. reflexivity.
Qed.

(** Trimming twice is trimming once. *)
Lemma strip_idem (s : string) : PyStr.strip (PyStr.strip s) = PyStr.strip s.
Proof.
  unfold PyStr.strip.
  pose proof (lstrip_head s) as Hh.
  destruct (PyStr.lstrip s) as [|c t] eqn:Hl; [reflexivity|].
  destruct (rstrip_head c t Hh) as [r Hr]. rewrite Hr.
  cbn [PyStr.lstrip]. rewrite Hh, <- Hr. apply rstrip_idem.
Qed.

Lemma validate_ok (w d : string) :
  PyStr.truthy (PyStr.strip w) = true ->
  PyStr.truthy (PyStr.strip d) = true ->
  _validate_word_input w d = Ok tt.
Proof.
  intros Hw Hd. unfold _validate_word_input.
  rewrite (strip_truthy_nonempty w Hw), (strip_truthy_nonempty d Hd), Hw, Hd.
  reflexivity.
Qed.

(** Adding to a store that lacks the word commits the new entry. *)
Lemma add_word_fresh (st : store) (w d : string) :
  PyStr.truthy (PyStr.strip w) = true ->
  PyStr.truthy (PyStr.strip d) = true ->
  PyStr.truthy (PyStr.strip (PyStr.lower (PyStr.strip w))) = true ->
  PyStr.truthy (PyStr.strip (PyStr.strip d)) = true ->
  store_find st (PyStr.lower (PyStr.strip w)) = None ->
  store_find st (PyStr.strip (PyStr.lower (PyStr.strip w))) = None ->
  let key := PyStr.lower (PyStr.strip (PyStr.lower (PyStr.strip w))) in
  let entry := {| word := PyStr.strip (PyStr.lower (PyStr.strip w));
                  definition := PyStr.strip (PyStr.strip d) |} in
  add_word st w d
  = ({| committed := <[key := entry]> (pending st) ∪ committed st; pending := ∅ |},
     Ok entry).
Proof.
  intros Hw Hd Hw' Hd' Hfree Hfree' key entry.
  unfold add_word. rewrite (validate_ok w d Hw Hd).
  cbn [find_by_word create commit store_repository].
  rewrite Hfree. unfold store_create. rewrite Hw', Hd', Hfree'. reflexivity.
Qed.

(** C8: from a store without "python", adding "Python" with a definition d
    that is not blank succeeds and persists: the store it leaves is the
    given one with the new entry committed under "python" and nothing
    pending; get("PYTHON") then returns the entry with word "python" and
    definition d trimmed; adding the word again in any casing (with a
    definition that is not blank) fails with AlreadyExistsError and leaves
    the store as it is; and get of a word without entry fails with
    NotFoundError. *)
Theorem dictionary_add_then_get (st : store) (d : string) :
  find_by_word st "python" = None ->
  PyStr.truthy (PyStr.strip d) = true ->
  let entry := {| word := "python"; definition := PyStr.strip d |} in
  let st1 := {| committed := <["python" := entry]> (pending st) ∪ committed st;
                pending := ∅ |} in
  add_word st "Python" d = (st1, Ok entry)
  /\ committed st1 !! "python" = Some entry
  /\ pending st1 = ∅
  /\ get_word st1 "PYTHON" = Ok entry
  /\ (forall w d' : string,
        PyStr.lower (PyStr.strip w) = "python" ->
        PyStr.truthy (PyStr.strip d') = true ->
        add_word st1 w d' = (st1, Raise (DictionaryWordAlreadyExistsError "python")))
  /\ (forall (st' : store) (w : string),
        PyStr.truthy (PyStr.strip w) = true ->
        find_by_word st' (PyStr.lower (PyStr.strip w)) = None ->
        get_word st' w = Raise (DictionaryWordNotFoundError (PyStr.lower (PyStr.strip w)))).
Proof.
  intros Hfree Hd entry st1. cbn [find_by_word store_repository] in Hfree.
  pose proof (strip_idem d) as Hidem.
  split.
  { rewrite add_word_fresh; try assumption; try reflexivity.
    - cbn. rewrite Hidem. reflexivity.
    - rewrite Hidem. exact Hd. }
  split.
  { unfold st1. cbn [committed].
    apply lookup_union_Some_l. apply lookup_insert_eq. }
  split; [reflexivity|].
  assert (Hfind : forall w, PyStr.lower w = "python" ->
            store_find st1 w = Some entry).
  { intros w Hw. unfold store_find, st1. cbn [pending committed]. rewrite Hw.
    rewrite lookup_empty.
    apply lookup_union_Some_l. apply lookup_insert_eq. }
  split; [|split].
  - unfold get_word. cbn [find_by_word store_repository].
    change (PyStr.lower (PyStr.strip "PYTHON")) with "python".
    cbn [PyStr.truthy negb orb].
    change (PyStr.truthy (PyStr.strip "PYTHON")) with true. cbn [negb].
    rewrite Hfind; reflexivity.
  - intros w d' Hw Hd'. unfold add_word.
    assert (Hwt : PyStr.truthy (PyStr.strip w) = true).
    { destruct (PyStr.strip w); [discriminate Hw|reflexivity]. }
    rewrite (validate_ok w d' Hwt Hd'). cbn [find_by_word store_repository].
    rewrite Hw, Hfind; reflexivity.
  - intros st' w Hw Hnone. unfold get_word.
    rewrite (strip_truthy_nonempty w Hw), Hw, Hnone. reflexivity.
Qed.

Lemma dictionary_add_then_get_witness :
  find_by_word empty_store "python" = None
  /\ PyStr.truthy (PyStr.strip "A programming language") = true
  /\ exists st1 : store,
       add_word empty_store "Python" "A programming language"
       = (st1, Ok {| word := "python"; definition := "A programming language" |})
       /\ committed st1 !! "python"
          = Some {| word := "python"; definition := "A programming language" |}
       /\ pending st1 = ∅
       /\ get_word st1 "PYTHON"
          = Ok {| word := "python"; definition := "A programming language" |}.
Proof.
  split; [reflexivity|]. split; [reflexivity|].
  destruct (dictionary_add_then_get empty_store "A programming language"
              eq_refl eq_refl) as (Hadd & Hcommitted & Hpending & Hget & _).
  eexists. split; [exact Hadd|]. split; [exact Hcommitted|].
  split; [exact Hpending|exact Hget].
Defined.

End DictionaryFacts.

(** ** Decimals: digits, quantize, and the text of a float *)

Module DecimalFacts.

Import PyFloat Decimal Spec.

Local Open Scope Q_scope.

Lemma Q2_neq0 : ~ 2 == 0.
Proof. discriminate. Qed.

Lemma Q10_neq0 : ~ 10 == 0.
Proof. discriminate. Qed.

Lemma pow2_pos (e : Z) : 0 < 2 ^ e.
Proof. apply Qpower_0_lt. reflexivity. Qed.

Lemma pow10_pos (p : Z) : 0 < 10 ^ p.
Proof. apply Qpower_0_lt. reflexivity. Qed.

Lemma inject_pow2 (n : Z) : (0 <= n)%Z -> inject_Z (2 ^ n) == 2 ^ n.
Proof. intros Hn. apply (Zpower_Qpower 2 n Hn). Qed.

Lemma inject_pow10 (n : Z) : (0 <= n)%Z -> inject_Z (10 ^ n) == 10 ^ n.
Proof. intros Hn. apply (Zpower_Qpower 10 n Hn). Qed.

(** [10^p] split into its numerator and denominator parts. *)
Lemma pow10_split (p : Z) :
  10 ^ p * inject_Z (10 ^ Z.max (- p) 0) == inject_Z (10 ^ Z.max p 0).
Proof.
  rewrite !inject_pow10 by lia. rewrite <- Qpower_plus by exact Q10_neq0.
  replace (p + Z.max (- p) 0)%Z with (Z.max p 0) by lia. reflexivity.
Qed.

Lemma pow2_split (e : Z) :
  2 ^ e * inject_Z (2 ^ Z.max (- e) 0) == inject_Z (2 ^ Z.max e 0).
Proof.
  rewrite !inject_pow2 by lia. rewrite <- Qpower_plus by exact Q2_neq0.
  replace (e + Z.max (- e) 0)%Z with (Z.max e 0) by lia. reflexivity.
Qed.

Local Close Scope Q_scope.

(** *** Counting decimal digits *)

Lemma digits10_fuel_bounds (fuel : nat) :
  forall n : Z, 0 < n -> n < 2 ^ Z.of_nat fuel ->
    10 ^ (digits10_fuel fuel n - 1) <= n < 10 ^ digits10_fuel fuel n.
Proof.
  induction fuel as [|fuel IH]; intros n Hpos Hlt.
  - simpl in Hlt. lia.
  - cbn [digits10_fuel]. destruct (Z.leb_spec n 0) as [|_]; [lia|].
    replace (1 + digits10_fuel fuel (n / 10) - 1) with (digits10_fuel fuel (n / 10)) by lia.
    assert (Hdm : n = 10 * (n / 10) + n mod 10) by (apply Z.div_mod; lia).
    assert (Hr : 0 <= n mod 10 < 10) by (apply Z.mod_pos_bound; lia).
    destruct (Z.eq_dec (n / 10) 0) as [Hz|Hnz].
    + rewrite Hz. assert (Hd0 : digits10_fuel fuel 0 = 0) by (destruct fuel; reflexivity).
      rewrite Hd0. change (10 ^ 0) with 1. change (10 ^ (1 + 0)) with 10. lia.
    + assert (Hq : 0 < n / 10) by (pose proof (Z.div_pos n 10); lia).
      assert (Hfuel : n / 10 < 2 ^ Z.of_nat fuel).
      { rewrite Nat2Z.inj_succ, Z.pow_succ_r in Hlt by lia. lia. }
      specialize (IH (n / 10) Hq Hfuel).
      assert (Hd : 0 <= digits10_fuel fuel (n / 10)).
      { destruct (Z.le_gt_cases 0 (digits10_fuel fuel (n / 10))) as [|Hneg]; [assumption|].
        rewrite (Z.pow_neg_r 10 _ Hneg) in IH. lia. }
      assert (Hd1 : 1 <= digits10_fuel fuel (n / 10)).
      { destruct (Z.eq_dec (digits10_fuel fuel (n / 10)) 0) as [H0|H0]; [|lia].
        rewrite H0 in IH. change (10 ^ 0) with 1 in IH. lia. }
      rewrite Z.pow_add_r by lia. change (10 ^ 1) with 10.
      set (d := digits10_fuel fuel (n / 10)) in *.
      assert (Hstep : 10 ^ d = 10 * 10 ^ (d - 1)).
      { rewrite <- Z.pow_succ_r by lia. f_equal. lia. }
      lia.
Qed.

Lemma digits10_bounds (n : Z) :
  0 < n -> 10 ^ (digits10 n - 1) <= n < 10 ^ digits10 n.
Proof.
  intros Hn. unfold digits10. apply digits10_fuel_bounds; [exact Hn|].
  rewrite Nat2Z.inj_succ, Z2Nat.id by apply Z.log2_nonneg.
  apply Z.log2_spec. exact Hn.
Qed.

Lemma digits10_nonpos (n : Z) : n <= 0 -> digits10 n = 0.
Proof.
  intros Hn. unfold digits10. cbn [digits10_fuel].
  destruct (Z.leb_spec n 0); [reflexivity|lia].
Qed.

(** A number below [10^k] has at most [k] digits. *)
Lemma digits10_le (n k : Z) : 0 <= k -> n < 10 ^ k -> digits10 n <= k.
Proof.
  intros Hk Hn. destruct (Z.le_gt_cases n 0) as [Hle|Hpos].
  - rewrite digits10_nonpos by exact Hle. exact Hk.
  - destruct (digits10_bounds n Hpos) as [Hlo _].
    destruct (Z.le_gt_cases (digits10 n) k) as [|Hgt]; [assumption|].
    assert (10 ^ k <= 10 ^ (digits10 n - 1)) by (apply Z.pow_le_mono_r; lia).
    lia.
Qed.

(** A number with more than [k] digits is at least [10^k]. *)
Lemma digits10_gt (n k : Z) : 0 <= k -> k < digits10 n -> 10 ^ k <= n.
Proof.
  intros Hk Hd. destruct (Z.le_gt_cases n 0) as [Hle|Hpos].
  - rewrite digits10_nonpos in Hd by exact Hle. lia.
  - destruct (digits10_bounds n Hpos) as [Hlo _].
    assert (10 ^ k <= 10 ^ (digits10 n - 1)) by (apply Z.pow_le_mono_r; lia).
    lia.
Qed.

(** *** Quantize to cents, halves away from zero *)

Local Open Scope Q_scope.

Lemma inject_lt (a b : Z) : (a < b)%Z -> inject_Z a < inject_Z b.
Proof. rewrite <- Zlt_Qlt. auto. Qed.

Lemma inject_le (a b : Z) : (a <= b)%Z -> inject_Z a <= inject_Z b.
Proof. rewrite <- Zle_Qle. auto. Qed.

(** An integer inequality between scaled numbers, read in the rationals. *)
Lemma scaled_bracket (X : Q) (c u N : Z) :
  (0 < u)%Z -> X * inject_Z u == inject_Z c ->
  (2 * (N * u) <= 2 * c + u)%Z -> (2 * c < 2 * (N * u) + u)%Z ->
  inject_Z N - (1 # 2) <= X < inject_Z N + (1 # 2).
Proof.
  intros Hu HX Hlo Hhi.
  assert (HuQ : 0 < inject_Z u) by (apply (inject_lt 0 u Hu)).
  apply inject_le in Hlo. apply inject_lt in Hhi.
  rewrite !inject_Z_plus, !inject_Z_mult in Hlo, Hhi.
  rewrite <- HX in Hlo, Hhi.
  change (inject_Z 2) with 2 in *.
  assert (Elo : (inject_Z N - (1 # 2)) * inject_Z u
                == inject_Z N * inject_Z u - (1 # 2) * inject_Z u) by ring.
  assert (Ehi : (inject_Z N + (1 # 2)) * inject_Z u
                == inject_Z N * inject_Z u + (1 # 2) * inject_Z u) by ring.
  split.
  - apply (Qmult_le_r _ _ (inject_Z u) HuQ). rewrite Elo.
    clear Elo Ehi HX. generalize dependent (inject_Z N * inject_Z u).
    generalize dependent (X * inject_Z u). intros; lra.
  - apply (Qmult_lt_r _ _ (inject_Z u) HuQ). rewrite Ehi.
    clear Elo Ehi HX. generalize dependent (inject_Z N * inject_Z u).
    generalize dependent (X * inject_Z u). intros; lra.
Qed.

Lemma quantize_cents_spec (s : bool) (c p : Z) :
  (0 <= c)%Z ->
  match quantize_cents (Dec s c p) with
  | Ok r =>
      exists N : Z,
        r = Dec s N (-2) /\ (0 <= N < 10 ^ context_prec)%Z
        /\ inject_Z N - (1 # 2) <= 100 * (inject_Z c * 10 ^ p) < inject_Z N + (1 # 2)
  | Raise ex =>
      ex = InvalidOperation
      /\ inject_Z (10 ^ context_prec) - (1 # 2) <= 100 * (inject_Z c * 10 ^ p)
  end.
Proof.
  intros Hc. unfold quantize_cents.
  set (N := if (-2 <=? p)%Z then (c * 10 ^ (p + 2))%Z
            else if (10 ^ (-2 - p) <=? 2 * (c mod 10 ^ (-2 - p)))%Z
                 then (c / 10 ^ (-2 - p) + 1)%Z else (c / 10 ^ (-2 - p))%Z).
  assert (HN : (0 <= N)%Z
               /\ inject_Z N - (1 # 2) <= 100 * (inject_Z c * 10 ^ p) < inject_Z N + (1 # 2)).
  { subst N. destruct (Z.leb_spec (-2) p) as [Hp|Hp].
    - split; [apply Z.mul_nonneg_nonneg; [exact Hc|apply Z.pow_nonneg; lia]|].
      rewrite inject_Z_mult, inject_pow10 by lia.
      rewrite Qpower_plus by exact Q10_neq0.
      change (10 ^ 2) with 100. split; lra.
    - set (u := (10 ^ (-2 - p))%Z).
      assert (Hu : (0 < u)%Z) by (apply Z.pow_pos_nonneg; lia).
      assert (Hdm : c = (u * (c / u) + c mod u)%Z) by (apply Z.div_mod; lia).
      assert (Hr : (0 <= c mod u < u)%Z) by (apply Z.mod_pos_bound; exact Hu).
      assert (Hq : (0 <= c / u)%Z) by (apply Z.div_pos; lia).
      assert (HX : 100 * (inject_Z c * 10 ^ p) * inject_Z u == inject_Z c).
      { unfold u. rewrite inject_pow10 by lia.
        change 100 with (10 ^ 2).
        transitivity (inject_Z c * (10 ^ 2 * 10 ^ p * 10 ^ (-2 - p))); [ring|].
        rewrite <- !Qpower_plus by exact Q10_neq0.
        replace (2 + p + (-2 - p))%Z with 0%Z by lia. change (10 ^ 0) with 1. ring. }
      destruct (Z.leb_spec u (2 * (c mod u))) as [Hhalf|Hhalf].
      + split; [lia|]. apply (scaled_bracket _ c u _ Hu HX); nia.
      + split; [lia|]. apply (scaled_bracket _ c u _ Hu HX); nia. }
  destruct HN as [HN0 HNq].
  destruct (Z.ltb_spec context_prec (digits10 N)) as [Hbig|Hfit].
  - split; [reflexivity|].
    apply digits10_gt in Hbig; [|unfold context_prec; lia].
    apply inject_le in Hbig. lra.
  - exists N. split; [reflexivity|]. split; [|exact HNq]. split; [exact HN0|].
    destruct (Z.le_gt_cases N 0) as [|Hpos]; [unfold context_prec; lia|].
    destruct (digits10_bounds N Hpos) as [_ Hhi].
    eapply Z.lt_le_trans; [exact Hhi|]. apply Z.pow_le_mono_r; lia.
Qed.

(** *** The text of a float reads back as the float *)

(** [cmp_units] compares [c * 10^p] with [u * 2^(e-2)]. *)
Lemma cmp_units_spec (e c p u : Z) :
  let A := inject_Z c * 10 ^ p in
  let B := inject_Z u * 2 ^ (e - 2) in
  match cmp_units e c p u with
  | Lt => A < B
  | Eq => A == B
  | Gt => B < A
  end.
Proof.
  intros A B. unfold cmp_units.
  set (i10 := (10 ^ Z.max (- p) 0)%Z). set (i2 := (2 ^ Z.max (2 - e) 0)%Z).
  assert (Hi10 : 0 < inject_Z i10) by (apply (inject_lt 0), Z.pow_pos_nonneg; lia).
  assert (Hi2 : 0 < inject_Z i2) by (apply (inject_lt 0), Z.pow_pos_nonneg; lia).
  assert (HK : 0 < inject_Z i10 * inject_Z i2) by (apply Qmult_lt_0_compat; assumption).
  assert (HA : A * (inject_Z i10 * inject_Z i2)
               == inject_Z (c * 10 ^ Z.max p 0 * i2)).
  { unfold A. rewrite !inject_Z_mult, <- (pow10_split p). fold i10. ring. }
  assert (HB : B * (inject_Z i10 * inject_Z i2)
               == inject_Z (u * 2 ^ Z.max (e - 2) 0 * i10)).
  { unfold B. rewrite !inject_Z_mult, <- (pow2_split (e - 2)).
    replace (- (e - 2))%Z with (2 - e)%Z by lia. fold i2. ring. }
  destruct (Z.compare_spec (c * 10 ^ Z.max p 0 * i2) (u * 2 ^ Z.max (e - 2) 0 * i10))
    as [Heq|Hlt|Hgt].
  - apply (Qmult_inj_r _ _ (inject_Z i10 * inject_Z i2)); [lra|].
    rewrite HA, HB, Heq. reflexivity.
  - apply (Qmult_lt_r _ _ (inject_Z i10 * inject_Z i2) HK).
    rewrite HA, HB. apply inject_lt, Hlt.
  - apply (Qmult_lt_r _ _ (inject_Z i10 * inject_Z i2) HK).
    rewrite HA, HB. apply inject_lt, Hgt.
Qed.

Lemma low4_bounds (m : positive) (e : Z) :
  (4 * Zpos m - 2 <= low4 m e < 4 * Zpos m)%Z.
Proof. unfold low4. destruct (_ && _); lia. Qed.

Lemma quarter_units (m : positive) (e : Z) :
  inject_Z (4 * Zpos m) * 2 ^ (e - 2) == inject_Z (Zpos m) * 2 ^ e.
Proof.
  rewrite inject_Z_mult. change (inject_Z 4) with (2 ^ 2).
  replace e with (2 + (e - 2))%Z at 2 by lia.
  rewrite (Qpower_plus 2 2 (e - 2)) by exact Q2_neq0. ring.
Qed.

Lemma half_unit (e : Z) : inject_Z 2 * 2 ^ (e - 2) == 2 ^ (e - 1).
Proof.
  change (inject_Z 2) with (2 ^ 1).
  rewrite <- Qpower_plus by exact Q2_neq0. replace (1 + (e - 2))%Z with (e - 1)%Z by lia.
  reflexivity.
Qed.

(** A decimal that reads back lies within half a unit in the last place
    of the float, and is positive. *)
Lemma reads_back_close (m : positive) (e c p : Z) :
  reads_back m e c p = true ->
  inject_Z (Zpos m) * 2 ^ e - 2 ^ (e - 1) <= inject_Z c * 10 ^ p
  /\ inject_Z c * 10 ^ p <= inject_Z (Zpos m) * 2 ^ e + 2 ^ (e - 1)
  /\ (0 < c)%Z.
Proof.
  unfold reads_back. intros H. apply andb_true_iff in H. destruct H as [Hlo Hhi].
  pose proof (cmp_units_spec e c p (low4 m e)) as Clo.
  pose proof (cmp_units_spec e c p (high4 m)) as Chi.
  pose proof (low4_bounds m e) as [Hl1 Hl2].
  pose proof (quarter_units m e) as Hq. pose proof (half_unit e) as Hh.
  pose proof (pow2_pos (e - 2)) as Hp2. pose proof (pow10_pos p) as Hp10.
  cbv zeta in Clo, Chi.
  assert (Hmono : forall a b : Z, (a <= b)%Z ->
            inject_Z a * 2 ^ (e - 2) <= inject_Z b * 2 ^ (e - 2)).
  { intros a b Hab. apply Qmult_le_compat_r; [apply inject_le, Hab|lra]. }
  assert (Hlow : inject_Z (Zpos m) * 2 ^ e - 2 ^ (e - 1)
                 <= inject_Z (low4 m e) * 2 ^ (e - 2)).
  { rewrite <- Hq, <- Hh.
    assert (Hl1' : (4 * Zpos m + -2 <= low4 m e)%Z) by lia.
    specialize (Hmono _ _ Hl1'). rewrite inject_Z_plus in Hmono.
    rewrite Qmult_plus_distr_l in Hmono.
    change (inject_Z (-2)) with (- inject_Z 2) in Hmono.
    set (X := inject_Z (4 * Z.pos m) * 2 ^ (e - 2)) in *.
    set (Y := inject_Z (low4 m e) * 2 ^ (e - 2)) in *.
    assert (E : - inject_Z 2 * 2 ^ (e - 2) == - (inject_Z 2 * 2 ^ (e - 2))) by ring.
    rewrite E in Hmono. set (V := inject_Z 2 * 2 ^ (e - 2)) in *. lra. }
  assert (Hhigh : inject_Z (high4 m) * 2 ^ (e - 2)
                  == inject_Z (Zpos m) * 2 ^ e + 2 ^ (e - 1)).
  { rewrite <- Hq, <- Hh. unfold high4. rewrite inject_Z_plus. ring. }
  set (F := inject_Z (Zpos m) * 2 ^ e) in *. set (H2 := 2 ^ (e - 1)) in *.
  set (L := inject_Z (low4 m e) * 2 ^ (e - 2)) in *.
  set (Hi := inject_Z (high4 m) * 2 ^ (e - 2)) in *.
  set (C := inject_Z c * 10 ^ p) in *.
  assert (Hpos : 0 < L).
  { apply Qmult_lt_0_compat; [apply (inject_lt 0); lia|exact Hp2]. }
  assert (HC : L <= C /\ C <= Hi).
  { split.
    - destruct (cmp_units e c p (low4 m e)); [rewrite Clo| |]; try discriminate; lra.
    - destruct (cmp_units e c p (high4 m)); [rewrite Chi| |]; try discriminate; lra. }
  destruct HC as [HC1 HC2].
  split; [lra|]. split; [lra|].
  destruct (Z.lt_ge_cases 0 c) as [|Hneg]; [assumption|exfalso].
  assert (Hle : C <= 0 * 10 ^ p).
  { apply Qmult_le_compat_r; [apply (inject_le c 0); lia|lra]. }
  rewrite Qmult_0_l in Hle. lra.
Qed.

Lemma candidate_reads_back (m : positive) (e p c : Z) :
  candidate m e p = Some c -> reads_back m e c p = true.
Proof.
  unfold candidate.
  destruct (reads_back m e (floor_at m e p) p) eqn:Hlo;
    destruct (reads_back m e (floor_at m e p + 1) p) eqn:Hhi;
    try discriminate.
  - destruct (cmp_units e (2 * floor_at m e p + 1) p (2 * mid4 m));
      [destruct (Z.even (floor_at m e p))| |]; intros [= <-]; assumption.
  - intros [= <-]; assumption.
  - intros [= <-]; assumption.
Qed.

(** The exact expansion of a float is the float. *)
Lemma exact_digits_value (m : positive) (e : Z) :
  inject_Z (fst (exact_digits m e)) * 10 ^ snd (exact_digits m e)
  == inject_Z (Zpos m) * 2 ^ e.
Proof.
  unfold exact_digits. destruct (Z.leb_spec 0 e) as [He|He]; cbn [fst snd].
  - rewrite inject_Z_mult, inject_pow2 by exact He. change (10 ^ 0) with 1. ring.
  - rewrite inject_Z_mult, (Zpower_Qpower 5 (- e)) by lia.
    change 10 with (2 * 5). rewrite Qmult_power.
    transitivity (inject_Z (Zpos m) * 2 ^ e * (inject_Z 5 ^ (- e) * 5 ^ e)); [ring|].
    change (inject_Z 5) with 5.
    rewrite <- Qpower_plus by discriminate.
    replace (- e + e)%Z with 0%Z by lia. change (5 ^ 0) with 1. ring.
Qed.

Lemma exact_reads_back (m : positive) (e : Z) :
  reads_back m e (fst (exact_digits m e)) (snd (exact_digits m e)) = true.
Proof.
  pose proof (exact_digits_value m e) as Hv.
  set (c := fst (exact_digits m e)) in *. set (p := snd (exact_digits m e)) in *.
  unfold reads_back.
  pose proof (cmp_units_spec e c p (low4 m e)) as Clo.
  pose proof (cmp_units_spec e c p (high4 m)) as Chi.
  pose proof (low4_bounds m e) as [Hl1 Hl2].
  pose proof (quarter_units m e) as Hq.
  pose proof (pow2_pos (e - 2)) as Hp2.
  cbv zeta in Clo, Chi.
  assert (Hlow : inject_Z (low4 m e) * 2 ^ (e - 2) < inject_Z c * 10 ^ p).
  { rewrite Hv, <- Hq. apply Qmult_lt_compat_r; [exact Hp2|apply inject_lt, Hl2]. }
  assert (Hhigh : inject_Z c * 10 ^ p < inject_Z (high4 m) * 2 ^ (e - 2)).
  { rewrite Hv, <- Hq.
    apply Qmult_lt_compat_r; [exact Hp2|apply inject_lt; unfold high4; lia]. }
  destruct (cmp_units e c p (low4 m e)); try (exfalso; lra);
    destruct (cmp_units e c p (high4 m)); try (exfalso; lra); reflexivity.
Qed.

Lemma shortest_from_reads_back (m : positive) (e k : Z) (fuel : nat) :
  forall n : Z,
    reads_back m e (fst (shortest_from m e k fuel n))
      (snd (shortest_from m e k fuel n)) = true.
Proof.
  induction fuel as [|fuel IH]; intros n; cbn [shortest_from].
  - apply exact_reads_back.
  - destruct (candidate m e (k - n)) as [c|] eqn:Hc; [|apply IH].
    cbn [fst snd]. apply candidate_reads_back, Hc.
Qed.

(** The digits [str] prints read back as the float. *)
Lemma shortest_reads_back (m : positive) (e : Z) :
  reads_back m e (fst (shortest m e)) (snd (shortest m e)) = true.
Proof. apply shortest_from_reads_back. Qed.

Local Close Scope Q_scope.

End DecimalFacts.

(** ** Binary64 rounding *)

Module FloatFacts.

Import PyFloat Spec DecimalFacts.

(** *** Bit lengths *)

Lemma digits2_log2 (p : positive) : Zpos (digits2_pos p) = Z.log2 (Zpos p) + 1.
Proof.
  induction p as [p IH|p IH|]; cbn [digits2_pos].
  - rewrite Pos2Z.inj_succ, IH, Pos2Z.inj_xI, Z.log2_succ_double by lia. lia.
  - rewrite Pos2Z.inj_succ, IH, Pos2Z.inj_xO, Z.log2_double by lia. lia.
  - reflexivity.
Qed.

Lemma Zdigits2_bounds (m : Z) :
  0 < m -> 2 ^ (Zdigits2 m - 1) <= m < 2 ^ Zdigits2 m.
Proof.
  destruct m as [|p|p]; try lia. intros _. cbn [Zdigits2].
  rewrite digits2_log2.
  replace (Z.log2 (Zpos p) + 1 - 1) with (Z.log2 (Zpos p)) by lia.
  pose proof (Z.log2_spec (Zpos p) ltac:(lia)) as H.
  replace (Z.log2 (Zpos p) + 1) with (Z.succ (Z.log2 (Zpos p))) by lia. exact H.
Qed.

Lemma Zdigits2_unique (m k : Z) :
  2 ^ (k - 1) <= m < 2 ^ k -> 0 < m -> Zdigits2 m = k.
Proof.
  intros [Hlo Hhi] Hm. destruct m as [|p|p]; try lia. cbn [Zdigits2].
  rewrite digits2_log2.
  assert (Hk : 0 < k).
  { destruct (Z.lt_ge_cases 0 k) as [|Hk]; [assumption|].
    assert (2 ^ k <= 2 ^ 0) by (destruct (Z.eq_dec k 0) as [->|];
      [lia|rewrite Z.pow_neg_r by lia; cbn; lia]).
    change (2 ^ 0) with 1 in *. lia. }
  assert (Z.log2 (Zpos p) = k - 1); [|lia].
  apply Z.log2_unique; [lia|]. replace (Z.succ (k - 1)) with k by lia. lia.
Qed.

Lemma Zdigits2_nonneg (m : Z) : 0 <= Zdigits2 m.
Proof. destruct m; cbn; lia. Qed.

(** *** Shifting right with a record of what is lost *)

Lemma shr_1_nonneg (m : Z) (r s : bool) :
  0 <= m ->
  shr_1 {| shr_m := m; shr_r := r; shr_s := s |}
  = {| shr_m := Z.div2 m; shr_r := Z.odd m; shr_s := r || s |}.
Proof.
  intros Hm. destruct m as [|p|p]; [reflexivity| |lia].
  destruct p; reflexivity.
Qed.

Lemma iter_pos_nat {A : Type} (f : A -> A) (p : positive) :
  forall x : A, SpecFloat.iter_pos f p x = Nat.iter (Pos.to_nat p) f x.
Proof.
  induction p as [p IH|p IH|]; intros x; cbn [SpecFloat.iter_pos].
  - rewrite !IH, Pos2Nat.inj_xI.
    replace (S (2 * Pos.to_nat p)) with (Pos.to_nat p + (Pos.to_nat p + 1))%nat by lia.
    rewrite !Nat.iter_add. reflexivity.
  - rewrite !IH, Pos2Nat.inj_xO.
    replace (2 * Pos.to_nat p)%nat with (Pos.to_nat p + Pos.to_nat p)%nat by lia.
    rewrite Nat.iter_add. reflexivity.
  - reflexivity.
Qed.

Lemma pow2_half (k : nat) : 2 ^ Z.of_nat (S k) = 2 * 2 ^ (Z.of_nat (S k) - 1).
Proof.
  rewrite <- Z.pow_succ_r by lia. f_equal. lia.
Qed.

Lemma iter_shr_1 (M : Z) (k : nat) :
  0 <= M ->
  Nat.iter (S k) shr_1 {| shr_m := M; shr_r := false; shr_s := false |}
  = shifted M (S k).
Proof.
  intros HM. induction k as [|k IH].
  - cbn [Nat.iter]. rewrite shr_1_nonneg by exact HM. unfold shifted.
    change (Z.of_nat 1) with 1. change (2 ^ 1) with 2. change (2 ^ (1 - 1)) with 1.
    rewrite Z.div2_div, Zodd_mod.
    pose proof (Z.mod_pos_bound M 2 ltac:(lia)) as Hb.
    f_equal.
    + destruct (Z.eqb_spec (M mod 2) 1), (Z.leb_spec 1 (M mod 2)); try reflexivity; lia.
    + destruct (Z.eqb_spec (M mod 2) 0), (Z.eqb_spec (M mod 2) 1); try reflexivity; lia.
  - rewrite Nat.iter_succ, IH. unfold shifted.
    set (K := Z.of_nat (S k)). set (q := M / 2 ^ K).
    assert (HK : 0 < K) by (unfold K; lia).
    assert (Hp : 0 < 2 ^ K) by (apply Z.pow_pos_nonneg; lia).
    assert (Hq : 0 <= q) by (apply Z.div_pos; lia).
    rewrite shr_1_nonneg by exact Hq.
    replace (Z.of_nat (S (S k))) with (Z.succ K) by (unfold K; lia).
    rewrite Z.pow_succ_r by lia. replace (Z.succ K - 1) with K by lia.
    assert (Hhalf : 2 ^ K = 2 * 2 ^ (K - 1)) by (unfold K; apply pow2_half).
    rewrite (Z.mul_comm 2 (2 ^ K)), Z.rem_mul_r by lia. fold q.
    rewrite Z.div2_div, Zodd_mod, <- Z.div_div by lia. fold q.
    pose proof (Z.mod_pos_bound M (2 ^ K) Hp) as Hr.
    pose proof (Z.mod_pos_bound q 2 ltac:(lia)) as Hb.
    set (rem := M mod 2 ^ K) in *. set (b := q mod 2) in *.
    set (half := 2 ^ (K - 1)) in *.
    assert (Hh : 0 < half) by (unfold half; apply Z.pow_pos_nonneg; lia).
    assert (Hb' : b = 0 \/ b = 1) by lia.
    clearbody rem b half. set (P := 2 ^ K) in *. clearbody P.
    f_equal.
    + destruct Hb' as [-> | ->]; rewrite ?Z.mul_0_r, ?Z.mul_1_r;
        destruct (Z.leb_spec P (rem + 0)), (Z.leb_spec P (rem + P));
        cbn; try reflexivity; lia.
    + destruct Hb' as [-> | ->]; rewrite ?Z.mul_0_r, ?Z.mul_1_r;
        destruct (Z.leb_spec half rem), (Z.eqb_spec rem 0), (Z.eqb_spec rem half),
          (Z.eqb_spec (rem + 0) 0), (Z.eqb_spec (rem + 0) P),
          (Z.eqb_spec (rem + P) 0), (Z.eqb_spec (rem + P) P);
        cbn; try reflexivity; lia.
Qed.

(** Rounding the shifted number to nearest, ties to even, errs by at most
    half a unit, and not at all when nothing was shifted out. *)
Lemma round_shifted (M : Z) (k : nat) :
  0 <= M ->
  let rec := shifted M (S k) in
  let m1 := round_nearest_even (shr_m rec) (loc_of_shr_record rec) in
  let unit := 2 ^ Z.of_nat (S k) in
  M / unit <= m1 <= M / unit + 1
  /\ - unit <= 2 * (m1 * unit - M) <= unit.
Proof.
  intros HM rec m1 unit. subst rec m1. unfold shifted. cbn [shr_m loc_of_shr_record].
  fold unit.
  assert (Hu : 0 < unit) by (apply Z.pow_pos_nonneg; lia).
  assert (Hhalf : unit = 2 * 2 ^ (Z.of_nat (S k) - 1)) by apply pow2_half.
  set (half := 2 ^ (Z.of_nat (S k) - 1)) in *.
  pose proof (Z.div_mod M unit ltac:(lia)) as Hdm.
  pose proof (Z.mod_pos_bound M unit Hu) as Hr.
  set (q := M / unit) in *. set (rem := M mod unit) in *.
  destruct (Z.leb_spec half rem), (Z.eqb_spec rem 0), (Z.eqb_spec rem half);
    cbn [negb andb round_nearest_even]; try destruct (Z.even q); nia.
Qed.

Lemma fexp_eq (z : Z) : fexp prec emax z = Z.max (z - 53) (-1074).
Proof. reflexivity. Qed.

Lemma shr_fexp_exact (m e : Z) :
  0 <= m ->
  shr_fexp prec emax m e loc_Exact
  = let n := fexp prec emax (Zdigits2 m + e) - e in
    if 0 <? n then (shifted m (Z.to_nat n), e + n)
    else ({| shr_m := m; shr_r := false; shr_s := false |}, e).
Proof.
  intros Hm. unfold shr_fexp, shr. cbn [shr_record_of_loc].
  destruct (fexp prec emax (Zdigits2 m + e) - e) as [|p|p] eqn:Hn; cbv zeta.
  - reflexivity.
  - change (0 <? Zpos p) with true. cbv iota.
    rewrite iter_pos_nat. destruct (Pos2Nat.is_succ p) as [k Hk].
    change (Z.to_nat (Z.pos p)) with (Pos.to_nat p).
    rewrite Hk, iter_shr_1 by exact Hm. reflexivity.
  - reflexivity.
Qed.

Lemma shr_fexp_fits (m e : Z) :
  0 <= m -> fexp prec emax (Zdigits2 m + e) = e ->
  shr_fexp prec emax m e loc_Exact
  = ({| shr_m := m; shr_r := false; shr_s := false |}, e).
Proof.
  intros Hm Hf. rewrite shr_fexp_exact by exact Hm. cbv zeta.
  rewrite Hf, Z.sub_diag. reflexivity.
Qed.

Lemma div_pow2_bounds (M a n : Z) :
  0 <= n -> 0 <= a -> 2 ^ (a + n) <= M -> 2 ^ a <= M / 2 ^ n.
Proof.
  intros Hn Ha HM. apply Z.div_le_lower_bound; [apply Z.pow_pos_nonneg; lia|].
  rewrite <- Z.pow_add_r by lia. replace (n + a) with (a + n) by lia. exact HM.
Qed.

Lemma div_pow2_lt (M a n : Z) :
  0 <= n -> 0 <= a -> M < 2 ^ (a + n) -> M / 2 ^ n < 2 ^ a.
Proof.
  intros Hn Ha HM. apply Z.div_lt_upper_bound; [apply Z.pow_pos_nonneg; lia|].
  rewrite <- Z.pow_add_r by lia. replace (n + a) with (a + n) by lia. exact HM.
Qed.

(** Rounding an exact [m * 2^e] whose exponent is not above the one of
    its format: the result is in canonical form and within half a unit in
    its last place. *)
Lemma binary_round_aux_exact (s : bool) (m : positive) (e : Z) :
  e <= fexp prec emax (Zdigits2 (Zpos m) + e) ->
  exists m2 e2 : Z,
    0 <= m2 /\ e <= e2
    /\ fexp prec emax (Zdigits2 m2 + e2) = e2
    /\ - 2 ^ (e2 - e) <= 2 * (m2 * 2 ^ (e2 - e) - Zpos m) <= 2 ^ (e2 - e)
    /\ binary_round_aux prec emax s (Zpos m) e loc_Exact = assemble s m2 e2.
Proof.
  intros Hpre.
  set (M := Zpos m) in *. set (D := Zdigits2 M) in *.
  assert (HM : 0 < M) by (unfold M; lia).
  pose proof (Zdigits2_bounds M HM) as HD. fold D in HD.
  assert (HD1 : 1 <= D).
  { destruct (Z.lt_ge_cases D 1) as [Hlt|]; [|assumption].
    assert (2 ^ D <= 1); [|lia].
    destruct (Z.eq_dec D 0) as [->|]; [cbn; lia|rewrite Z.pow_neg_r by lia; lia]. }
  unfold binary_round_aux. rewrite shr_fexp_exact by lia. cbv zeta. fold D.
  assert (He1 : fexp prec emax (D + e) = Z.max (D + e - 53) (-1074)) by apply fexp_eq.
  set (e1 := fexp prec emax (D + e)) in *. clearbody e1.
  destruct (Z.ltb_spec 0 (e1 - e)) as [Hn|Hn].
  2:{ (* nothing to shift out *)
    assert (Hfit : fexp prec emax (Zdigits2 M + e) = e) by (fold D; rewrite fexp_eq; lia).
    cbn [shr_m loc_of_shr_record round_nearest_even].
    rewrite shr_fexp_fits by (try exact Hfit; lia). cbn [shr_m].
    exists M, e. rewrite Z.sub_diag. change (2 ^ 0) with 1.
    split; [lia|]. split; [lia|]. split; [exact Hfit|]. split; [lia|reflexivity]. }
  assert (Hn_def : exists n, n = e1 - e) by eauto. destruct Hn_def as [n Hn_def].
  rewrite <- Hn_def in *.
  destruct (Z.to_nat n) as [|k] eqn:Hk; [lia|].
  assert (HnK : Z.of_nat (S k) = n) by lia.
  pose proof (round_shifted M k ltac:(lia)) as Hround. cbv zeta in Hround.
  rewrite HnK in Hround.
  set (m1 := round_nearest_even (shr_m (shifted M (S k)))
               (loc_of_shr_record (shifted M (S k)))) in *. clearbody m1.
  destruct Hround as [[Hq1 Hq2] Herr].
  replace (e + n) with e1 by lia.
  assert (Hq0 : 0 <= M / 2 ^ n) by (apply Z.div_pos; [lia|apply Z.pow_pos_nonneg; lia]).
  destruct (Z.le_gt_cases (-1074) (D + e - 53)) as [Hnorm|Hsub].
  - (* normal range *)
    assert (HnD : n = D - 53) by lia.
    assert (Hqlo : 2 ^ 52 <= M / 2 ^ n).
    { apply div_pow2_bounds; try lia. replace (52 + n) with (D - 1) by lia. lia. }
    assert (Hqhi : M / 2 ^ n < 2 ^ 53).
    { apply div_pow2_lt; try lia. replace (53 + n) with D by lia. lia. }
    destruct (Z.eq_dec m1 (2 ^ 53)) as [Hcarry|Hnocarry].
    + (* the rounding carried into a new bit *)
      assert (Hd1 : Zdigits2 m1 = 54) by (rewrite Hcarry; reflexivity).
      rewrite shr_fexp_exact by lia. cbv zeta. rewrite Hd1, fexp_eq.
      replace (Z.max (54 + e1 - 53) (-1074) - e1) with 1 by lia.
      change (0 <? 1) with true. cbv iota. change (Z.to_nat 1) with 1%nat.
      unfold shifted at 1. cbn [shr_m]. change (Z.of_nat 1) with 1.
      rewrite Hcarry. change (2 ^ 53 / 2 ^ 1) with (2 ^ 52).
      exists (2 ^ 52), (e1 + 1).
      split; [lia|]. split; [lia|]. split.
      { change (Zdigits2 (2 ^ 52)) with 53. rewrite fexp_eq. lia. }
      split; [|reflexivity].
      replace (e1 + 1 - e) with (n + 1) by lia.
      rewrite Z.pow_add_r by lia. change (2 ^ 1) with 2.
      rewrite Hcarry in Herr. change (2 ^ 53) with (2 ^ 52 * 2) in Herr.
      assert (0 < 2 ^ n) by (apply Z.pow_pos_nonneg; lia). nia.
    + assert (Hd1 : Zdigits2 m1 = 53).
      { apply Zdigits2_unique; [change (53 - 1) with 52|]; lia. }
      rewrite shr_fexp_fits; [|lia|rewrite Hd1, fexp_eq; lia]. cbn [shr_m].
      exists m1, e1. split; [lia|]. split; [lia|]. split.
      { rewrite Hd1, fexp_eq. lia. }
      split; [|reflexivity]. rewrite <- Hn_def. exact Herr.
  - (* subnormal range *)
    assert (He1' : e1 = -1074) by lia.
    assert (Hqhi : M / 2 ^ n < 2 ^ 52).
    { destruct (Z.le_gt_cases n D) as [HnD|HnD].
      - eapply Z.lt_le_trans; [apply (div_pow2_lt M (D - n) n); try lia|].
        + replace (D - n + n) with D by lia. lia.
        + apply Z.pow_le_mono_r; lia.
      - rewrite Z.div_small; [lia|]. split; [lia|].
        eapply Z.lt_le_trans; [apply HD|]. apply Z.pow_le_mono_r; lia. }
    assert (Hd1 : Zdigits2 m1 <= 53).
    { destruct (Z.eq_dec m1 0) as [->|Hnz]; [cbn; lia|].
      pose proof (Zdigits2_bounds m1 ltac:(lia)) as Hb.
      destruct (Z.le_gt_cases (Zdigits2 m1) 53) as [|Hgt]; [assumption|].
      assert (2 ^ 53 <= 2 ^ (Zdigits2 m1 - 1)) by (apply Z.pow_le_mono_r; lia).
      change (2 ^ 53) with (2 * 2 ^ 52) in *. lia. }
    pose proof (Zdigits2_nonneg m1) as Hd0.
    rewrite shr_fexp_fits; [|lia|rewrite fexp_eq; lia]. cbn [shr_m].
    exists m1, e1. split; [lia|]. split; [lia|]. split.
    { rewrite fexp_eq. lia. }
    split; [|reflexivity]. rewrite <- Hn_def. exact Herr.
Qed.

(** *** Aligning mantissas *)

Lemma iter_xO (p d : positive) : Zpos (Pos.iter xO p d) = (Zpos p * 2 ^ Zpos d).
Proof.
  induction d as [|d IH] using Pos.peano_ind.
  - cbn [Pos.iter]. lia.
  - rewrite Pos.iter_succ, Pos2Z.inj_xO, IH, Pos2Z.inj_succ, Z.pow_succ_r by lia.
    lia.
Qed.

Lemma shl_align_value (m : positive) (e e' : Z) :
  let '(m', e'') := shl_align m e e' in
  e'' = Z.min e e' /\ Zpos m' = (Zpos m * 2 ^ (e - e'')).
Proof.
  unfold shl_align. destruct (e' - e) as [|d|d] eqn:Hd.
  - split; [lia|]. rewrite Z.sub_diag. lia.
  - split; [lia|]. rewrite Z.sub_diag. lia.
  - split; [lia|]. rewrite iter_xO. f_equal. f_equal. lia.
Qed.

Lemma Zdigits2_shift (m k : Z) :
  (0 < m) -> (0 <= k) -> Zdigits2 (m * 2 ^ k) = (Zdigits2 m + k).
Proof.
  intros Hm Hk. pose proof (Zdigits2_bounds m Hm) as [Hlo Hhi].
  pose proof (Zdigits2_nonneg m) as Hd.
  assert (Hp : (0 < 2 ^ k)) by (apply Z.pow_pos_nonneg; lia).
  assert (Hd1 : (1 <= Zdigits2 m)).
  { destruct (Z.eq_dec (Zdigits2 m) 0) as [H0|]; [|lia].
    rewrite H0 in Hhi. change (2 ^ 0) with 1 in Hhi. lia. }
  apply Zdigits2_unique; [|nia]. split.
  - replace (Zdigits2 m + k - 1) with (Zdigits2 m - 1 + k) by lia.
    rewrite Z.pow_add_r by lia. nia.
  - rewrite Z.pow_add_r by lia. nia.
Qed.

(** The exponent of a valid float is the one of its format; it is not
    below the subnormal exponent, and above it the mantissa is full. *)
Lemma valid_canonical (s : bool) (m : positive) (e : Z) :
  valid_binary prec emax (S754_finite s m e) = true ->
  fexp prec emax (Zdigits2 (Zpos m) + e) = e /\ e <= emax - prec.
Proof.
  cbn [valid_binary]. unfold bounded, canonical_mantissa. intros H.
  apply andb_true_iff in H. destruct H as [Hc He].
  apply Z.eqb_eq in Hc. apply Z.leb_le in He. auto.
Qed.

Lemma product_exponent_fits (mx my : positive) (ex ey : Z) :
  fexp prec emax (Zdigits2 (Zpos mx) + ex) = ex ->
  fexp prec emax (Zdigits2 (Zpos my) + ey) = ey ->
  ex + ey <= fexp prec emax (Zdigits2 (Zpos (mx * my)) + (ex + ey)).
Proof.
  rewrite !fexp_eq. intros Hx Hy.
  pose proof (Zdigits2_bounds (Zpos mx) ltac:(lia)) as [Hxl Hxh].
  pose proof (Zdigits2_bounds (Zpos my) ltac:(lia)) as [Hyl Hyh].
  pose proof (Zdigits2_bounds (Zpos (mx * my)) ltac:(lia)) as [Hpl Hph].
  set (dx := Zdigits2 (Zpos mx)) in *. set (dy := Zdigits2 (Zpos my)) in *.
  set (d := Zdigits2 (Zpos (mx * my))) in *.
  assert (Hdx : 1 <= dx).
  { destruct (Z.lt_ge_cases dx 1) as [H|]; [|assumption].
    assert (2 ^ dx <= 1); [|lia].
    destruct (Z.eq_dec dx 0) as [->|]; [cbn; lia|rewrite Z.pow_neg_r by lia; lia]. }
  assert (Hdy : 1 <= dy).
  { destruct (Z.lt_ge_cases dy 1) as [H|]; [|assumption].
    assert (2 ^ dy <= 1); [|lia].
    destruct (Z.eq_dec dy 0) as [->|]; [cbn; lia|rewrite Z.pow_neg_r by lia; lia]. }
  assert (Hd : dx + dy - 1 <= d).
  { destruct (Z.lt_ge_cases d (dx + dy - 1)) as [Hlt|]; [|assumption].
    assert (2 ^ d <= 2 ^ (dx - 1 + (dy - 1))) by (apply Z.pow_le_mono_r; lia).
    rewrite Z.pow_add_r in * by lia. rewrite Pos2Z.inj_mul in Hph. nia. }
  lia.
Qed.

(** *** The same in the rationals *)

Local Open Scope Q_scope.

Lemma pow2_add (a b : Z) : 2 ^ (a + b) == 2 ^ a * 2 ^ b.
Proof. apply Qpower_plus. exact Q2_neq0. Qed.

Lemma pow2_le (a b : Z) : (a <= b)%Z -> 2 ^ a <= 2 ^ b.
Proof. intros H. apply Qpower_le_compat_l; [exact H|lra]. Qed.

Lemma scaled_error (m2 M k e : Z) :
  (0 <= k)%Z ->
  (2 * M <= 2 * (m2 * 2 ^ k) + 2 ^ k)%Z ->
  (2 * (m2 * 2 ^ k) <= 2 * M + 2 ^ k)%Z ->
  Qabs (inject_Z m2 * 2 ^ (e + k) - inject_Z M * 2 ^ e) <= 2 ^ (e + k - 1).
Proof.
  intros Hk Hlo Hhi.
  apply inject_le in Hlo. apply inject_le in Hhi.
  rewrite !inject_Z_plus, !inject_Z_mult, !inject_pow2 in Hlo, Hhi by exact Hk.
  change (inject_Z 2) with 2 in *.
  pose proof (pow2_pos e) as He. pose proof (pow2_pos k) as Hpk.
  assert (E1 : inject_Z m2 * 2 ^ (e + k) - inject_Z M * 2 ^ e
               == (inject_Z m2 * 2 ^ k - inject_Z M) * 2 ^ e).
  { rewrite pow2_add. ring. }
  assert (E2 : 2 ^ (e + k - 1) == (1 # 2) * 2 ^ k * 2 ^ e).
  { replace (e + k - 1)%Z with (-1 + (k + e))%Z by lia.
    rewrite !pow2_add. change (2 ^ (-1)) with (1 # 2). ring. }
  rewrite E1, E2.
  set (X := inject_Z m2 * 2 ^ k) in *. set (Y := inject_Z M) in *.
  set (P := 2 ^ k) in *. set (W := 2 ^ e) in *.
  apply Qabs_Qle_condition. split.
  - setoid_replace (- ((1 # 2) * P * W)) with ((- ((1 # 2) * P)) * W)
      using relation Qeq by ring.
    apply Qmult_le_compat_r; lra.
  - apply Qmult_le_compat_r; lra.
Qed.

Lemma assemble_valid (s : bool) (m2 e2 : Z) :
  (0 <= m2)%Z -> fexp prec emax (Zdigits2 m2 + e2) = e2 ->
  valid_binary prec emax (assemble s m2 e2) = true.
Proof.
  intros Hm Hc. destruct m2 as [|p|p]; [reflexivity| |lia].
  unfold assemble. destruct (Z.leb_spec e2 (emax - prec)) as [He|He]; [|reflexivity].
  cbn [valid_binary]. unfold bounded, canonical_mantissa.
  cbn [Zdigits2] in Hc. rewrite Hc, Z.eqb_refl. cbn [andb].
  apply Z.leb_le. exact He.
Qed.

(** A float in canonical form above the subnormal exponent has a full
    mantissa. *)
Lemma canonical_full (m2 e2 : Z) :
  (0 < m2)%Z -> fexp prec emax (Zdigits2 m2 + e2) = e2 -> (-1074 < e2)%Z ->
  (2 ^ 52 <= m2)%Z.
Proof.
  intros Hm Hc He. rewrite fexp_eq in Hc.
  assert (Hd : Zdigits2 m2 = 53%Z) by lia.
  pose proof (Zdigits2_bounds m2 Hm) as Hb. rewrite Hd in Hb.
  change (53 - 1)%Z with 52%Z in Hb. lia.
Qed.

Lemma sign_of_abs (s : bool) (x : Q) : Qabs (sign_of s * x) == Qabs x.
Proof.
  destruct s; unfold sign_of.
  - setoid_replace (-1 * x) with (- x) using relation Qeq by ring. apply Qabs_opp.
  - setoid_replace (1 * x) with x using relation Qeq by ring. reflexivity.
Qed.

Lemma half_ulp_nonneg (x : float) : 0 <= half_ulp x.
Proof.
  destruct x as [s|s| |s m e]; cbn [half_ulp]; try lra;
    apply Qlt_le_weak, pow2_pos.
Qed.

Lemma assemble_rounds_to (s : bool) (M m2 e e2 : Z) :
  (0 < M)%Z -> (0 <= m2)%Z -> (e <= e2)%Z ->
  fexp prec emax (Zdigits2 m2 + e2) = e2 ->
  (- 2 ^ (e2 - e) <= 2 * (m2 * 2 ^ (e2 - e) - M) <= 2 ^ (e2 - e))%Z ->
  rounds_to (assemble s m2 e2) (sign_of s * inject_Z M * 2 ^ e).
Proof.
  intros HM Hm2 Hee Hcan Herr.
  split; [apply assemble_valid; assumption|].
  pose proof (scaled_error m2 M (e2 - e) e ltac:(lia) ltac:(lia) ltac:(lia)) as HQ.
  replace (e + (e2 - e))%Z with e2 in HQ by lia.
  assert (Hdiff : forall v : Q,
            v == inject_Z m2 * 2 ^ e2 ->
            Qabs (sign_of s * v - sign_of s * inject_Z M * 2 ^ e) <= 2 ^ (e2 - 1)).
  { intros v Hv.
    setoid_replace (sign_of s * v - sign_of s * inject_Z M * 2 ^ e)
      with (sign_of s * (inject_Z m2 * 2 ^ e2 - inject_Z M * 2 ^ e))
      using relation Qeq by (rewrite Hv; ring).
    rewrite sign_of_abs. exact HQ. }
  destruct m2 as [|p|p]; [| |lia]; unfold assemble.
  - (* rounded to zero *)
    assert (He2 : e2 = (-1074)%Z) by (rewrite fexp_eq in Hcan; cbn [Zdigits2] in Hcan; lia).
    cbn [float_value half_ulp]. subst e2.
    specialize (Hdiff 0 ltac:(ring)).
    setoid_replace (0 - sign_of s * inject_Z M * 2 ^ e)
      with (sign_of s * 0 - sign_of s * inject_Z M * 2 ^ e) using relation Qeq by ring.
    exact Hdiff.
  - destruct (Z.leb_spec e2 (emax - prec)) as [Hfin|Hinf].
    + cbn [float_value half_ulp].
      setoid_replace (sign_of s * inject_Z (Z.pos p) * 2 ^ e2)
        with (sign_of s * (inject_Z (Z.pos p) * 2 ^ e2)) using relation Qeq by ring.
      apply Hdiff. reflexivity.
    + (* beyond the largest exponent *)
      unfold emax, prec in Hinf.
      pose proof (canonical_full (Zpos p) e2 ltac:(lia) Hcan ltac:(lia)) as Hfull.
      setoid_replace (sign_of s * inject_Z M * 2 ^ e)
        with (sign_of s * (inject_Z M * 2 ^ e)) using relation Qeq by ring.
      rewrite sign_of_abs.
      apply Qabs_Qle_condition in HQ. destruct HQ as [_ HQ].
      apply inject_le in Hfull. rewrite inject_pow2 in Hfull by lia.
      pose proof (pow2_pos (e2 - 1)) as Hp.
      assert (Hbig : 2 ^ 52 * 2 ^ e2 <= inject_Z (Zpos p) * 2 ^ e2).
      { apply Qmult_le_compat_r; [exact Hfull|apply Qlt_le_weak, pow2_pos]. }
      assert (Hsplit : 2 ^ e2 == 2 * 2 ^ (e2 - 1)).
      { replace e2 with (1 + (e2 - 1))%Z at 1 by lia. rewrite pow2_add. reflexivity. }
      assert (Hlow : 2 ^ 1023 <= 2 ^ 51 * 2 ^ e2).
      { rewrite <- pow2_add. apply pow2_le. lia. }
      assert (Hpos : 0 <= inject_Z M * 2 ^ e)
        by (apply Qmult_le_0_compat;
            [apply (inject_le 0); lia|apply Qlt_le_weak, pow2_pos]).
      rewrite Qabs_pos by exact Hpos.
      change (2 ^ 52) with (2 * 2 ^ 51) in Hbig.
      set (A := inject_Z (Zpos p) * 2 ^ e2) in *. set (B := inject_Z M * 2 ^ e) in *.
      set (H2 := 2 ^ (e2 - 1)) in *. set (U := 2 ^ e2) in *.
      set (L := 2 ^ 51 * U) in *.
      assert (2 * 2 ^ 51 * U == 2 * L) by (unfold L; ring).
      assert (L == 2 ^ 51 * (2 * H2)) by (unfold L; rewrite Hsplit; ring).
      assert (H2 <= L).
      { assert (1 * H2 <= 2 ^ 52 * H2)
          by (apply Qmult_le_compat_r; [discriminate|lra]).
        change (2 ^ 52) with (2 ^ 51 * 2) in *. lra. }
      lra.
Qed.

Lemma round_exact_props (s : bool) (m : positive) (e : Z) :
  (e <= fexp prec emax (Zdigits2 (Zpos m) + e))%Z ->
  rounds_to (binary_round_aux prec emax s (Zpos m) e loc_Exact)
    (sign_of s * inject_Z (Zpos m) * 2 ^ e).
Proof.
  intros Hpre.
  destruct (binary_round_aux_exact s m e Hpre) as (m2 & e2 & Hm2 & Hee & Hcan & Herr & ->).
  apply assemble_rounds_to; try assumption; lia.
Qed.

Lemma binary_round_props (s : bool) (m : positive) (e : Z) :
  rounds_to (binary_round prec emax s m e) (sign_of s * inject_Z (Zpos m) * 2 ^ e).
Proof.
  unfold binary_round.
  pose proof (shl_align_value m e (fexp prec emax (Zpos (digits2_pos m) + e))) as Hal.
  destruct (shl_align m e _) as [mz ez]. destruct Hal as [Hez Hmz].
  assert (Hk : (0 <= e - ez)%Z) by lia.
  assert (Hval : inject_Z (Zpos mz) * 2 ^ ez == inject_Z (Zpos m) * 2 ^ e).
  { rewrite Hmz, inject_Z_mult, inject_pow2 by exact Hk.
    rewrite <- Qmult_assoc, <- pow2_add.
    replace (e - ez + ez)%Z with e by lia. reflexivity. }
  assert (Hpre : (ez <= fexp prec emax (Zdigits2 (Zpos mz) + ez))%Z).
  { rewrite Hmz, Zdigits2_shift by lia. cbn [Zdigits2].
    replace (Zpos (digits2_pos m) + (e - ez) + ez)%Z
      with (Zpos (digits2_pos m) + e)%Z by lia. lia. }
  pose proof (round_exact_props s mz ez Hpre) as [Hv Hr].
  split; [exact Hv|].
  destruct (binary_round_aux prec emax s (Zpos mz) ez loc_Exact);
    try exact Hr.
  - setoid_replace (sign_of s * inject_Z (Zpos m) * 2 ^ e)
      with (sign_of s * inject_Z (Zpos mz) * 2 ^ ez) using relation Qeq
      by (rewrite <- !Qmult_assoc, Hval; reflexivity). exact Hr.
  - setoid_replace (sign_of s * inject_Z (Zpos m) * 2 ^ e)
      with (sign_of s * inject_Z (Zpos mz) * 2 ^ ez) using relation Qeq
      by (rewrite <- !Qmult_assoc, Hval; reflexivity). exact Hr.
  - setoid_replace (sign_of s * inject_Z (Zpos m) * 2 ^ e)
      with (sign_of s * inject_Z (Zpos mz) * 2 ^ ez) using relation Qeq
      by (rewrite <- !Qmult_assoc, Hval; reflexivity). exact Hr.
Qed.

Lemma sign_of_xorb (a b : bool) : sign_of (xorb a b) == sign_of a * sign_of b.
Proof. destruct a, b; reflexivity. Qed.

Lemma rounds_to_exact (z : float) (exact : Q) :
  is_finite z = true -> valid_binary prec emax z = true ->
  float_value z == exact -> rounds_to z exact.
Proof.
  intros Hf Hv He. split; [exact Hv|].
  assert (Hz : Qabs (float_value z - exact) <= half_ulp z).
  { setoid_replace (float_value z - exact) with 0 using relation Qeq
      by (rewrite He; ring).
    apply half_ulp_nonneg. }
  destruct z; try discriminate; exact Hz.
Qed.

Lemma rounds_to_ext (z : float) (a b : Q) : a == b -> rounds_to z a -> rounds_to z b.
Proof.
  intros Hab [Hv Hr]. split; [exact Hv|].
  destruct z; try exact Hr; rewrite <- Hab; exact Hr.
Qed.

(** The product of two finite floats is their exact product, rounded. *)
Lemma fmul_props (x y : float) :
  is_finite x = true -> is_finite y = true ->
  valid_binary prec emax x = true -> valid_binary prec emax y = true ->
  rounds_to (fmul x y) (float_value x * float_value y).
Proof.
  intros Hfx Hfy Hvx Hvy.
  destruct x as [sx|sx| |sx mx ex]; try discriminate;
    destruct y as [sy|sy| |sy my ey]; try discriminate;
    try (apply rounds_to_exact; [reflexivity|reflexivity|cbn; ring]).
  unfold fmul. cbn [SFmul].
  destruct (valid_canonical _ _ _ Hvx) as [Hcx _].
  destruct (valid_canonical _ _ _ Hvy) as [Hcy _].
  eapply rounds_to_ext;
    [|apply round_exact_props, product_exponent_fits; assumption].
  cbn [float_value]. rewrite sign_of_xorb, Pos2Z.inj_mul, inject_Z_mult, pow2_add.
  ring.
Qed.

Lemma inject_cond_Zopp (s : bool) (m : Z) :
  inject_Z (cond_Zopp s m) == sign_of s * inject_Z m.
Proof.
  destruct s; cbn [cond_Zopp sign_of]; [rewrite inject_Z_opp|]; ring.
Qed.

(** The sum of two finite floats is their exact sum, rounded. *)
Lemma fadd_props (x y : float) :
  is_finite x = true -> is_finite y = true ->
  valid_binary prec emax x = true -> valid_binary prec emax y = true ->
  rounds_to (fadd x y) (float_value x + float_value y).
Proof.
  intros Hfx Hfy Hvx Hvy.
  destruct x as [sx|sx| |sx mx ex]; try discriminate;
    destruct y as [sy|sy| |sy my ey]; try discriminate.
  - destruct sx, sy; apply rounds_to_exact; try reflexivity; cbn; ring.
  - apply rounds_to_exact; [reflexivity|exact Hvy|cbn; ring].
  - apply rounds_to_exact; [reflexivity|exact Hvx|cbn; ring].
  - unfold fadd. cbn [SFadd].
    pose proof (shl_align_value mx ex (Z.min ex ey)) as Hax.
    pose proof (shl_align_value my ey (Z.min ex ey)) as Hay.
    destruct (shl_align mx ex (Z.min ex ey)) as [mx' ex'].
    destruct (shl_align my ey (Z.min ex ey)) as [my' ey'].
    destruct Hax as [Hex Hmx]. destruct Hay as [Hey Hmy]. cbn [fst].
    set (ez := Z.min ex ey) in *.
    assert (Hex' : ex' = ez) by lia. assert (Hey' : ey' = ez) by lia.
    clear Hex Hey. subst ex' ey'.
    assert (Hsum : inject_Z (cond_Zopp sx (Zpos mx') + cond_Zopp sy (Zpos my')) * 2 ^ ez
                   == float_value (S754_finite sx mx ex)
                      + float_value (S754_finite sy my ey)).
    { cbn [float_value]. rewrite inject_Z_plus, !inject_cond_Zopp, Hmx, Hmy.
      rewrite !inject_Z_mult, !inject_pow2 by lia.
      assert (Px : 2 ^ ex == 2 ^ (ex - ez) * 2 ^ ez).
      { rewrite <- pow2_add. replace (ex - ez + ez)%Z with ex by lia. reflexivity. }
      assert (Py : 2 ^ ey == 2 ^ (ey - ez) * 2 ^ ez).
      { rewrite <- pow2_add. replace (ey - ez + ez)%Z with ey by lia. reflexivity. }
      rewrite Px, Py. ring. }
    destruct (cond_Zopp sx (Zpos mx') + cond_Zopp sy (Zpos my'))%Z as [|p|p] eqn:HM;
      cbn [binary_normalize].
    + apply rounds_to_exact; [reflexivity|reflexivity|].
      rewrite <- Hsum. cbn [float_value]. ring.
    + eapply rounds_to_ext; [|apply binary_round_props].
      rewrite <- Hsum. cbn [sign_of]. ring.
    + eapply rounds_to_ext; [|apply binary_round_props].
      rewrite <- Hsum. cbn [sign_of].
      change (inject_Z (Z.neg p)) with (- inject_Z (Z.pos p)). ring.
Qed.

Local Close Scope Q_scope.

End FloatFacts.

(** ** Monetary rounding and the end-to-end example *)

Module RoundingFacts.

Import PyFloat Decimal ShoppingService Spec DecimalFacts FloatFacts.

Local Open Scope Q_scope.

(** The decimal that [str] prints is within half a unit in the last place
    of the float. *)
Lemma printed_close (s : bool) (m : positive) (e : Z) :
  Qabs (decimal_value (of_float_str (S754_finite s m e))
        - float_value (S754_finite s m e)) <= 2 ^ (e - 1).
Proof.
  cbn [of_float_str float_value].
  pose proof (shortest_reads_back m e) as Hrb.
  destruct (shortest m e) as [c p]. cbn [fst snd] in Hrb. cbn [decimal_value].
  destruct (reads_back_close m e c p Hrb) as (Hlo & Hhi & _).
  setoid_replace (sign_of s * inject_Z c * 10 ^ p - sign_of s * inject_Z (Zpos m) * 2 ^ e)
    with (sign_of s * (inject_Z c * 10 ^ p - inject_Z (Zpos m) * 2 ^ e))
    using relation Qeq by ring.
  rewrite sign_of_abs. apply Qabs_Qle_condition. split; lra.
Qed.

Local Close Scope Q_scope.

(** C2: the rounding goes through the text of the float.  For every finite
    float, the decimal taken from its text reads back as the float (it
    lies within half a unit in the last place of it), and the result is
    that decimal at exactly two fractional digits, a half or more of a
    cent rounding away from zero, converted back to a float; the call fails
    only when the result needs more than 28 digits.  So 10.555 gives 10.56,
    10.554 gives 10.55, 0.005 gives 0.01, 0.004 gives 0.0 and 2.675 gives
    2.68, although the binary value of 2.675 lies below 2.675 and would
    round to 2.67. *)
Theorem round_to_decimal_places_half_up_on_text :
  (forall (s : bool) (m : positive) (e : Z),
     let x := S754_finite s m e in
     let c := fst (shortest m e) in
     let p := snd (shortest m e) in
     of_float_str x = Dec s c p
     /\ reads_back m e c p = true
     /\ (Qabs (decimal_value (of_float_str x) - float_value x) <= 2 ^ (e - 1))%Q
     /\ match rounded x with
        | Ok r =>
            exists N : Z,
              r = Dec s N (-2) /\ 0 <= N
              /\ (inject_Z N - (1 # 2) <= 100 * (inject_Z c * 10 ^ p)
                  < inject_Z N + (1 # 2))%Q
              /\ _round_to_decimal_places x = Ok (of_decimal s N (-2))
        | Raise ex =>
            ex = InvalidOperation
            /\ (inject_Z (10 ^ context_prec) - (1 # 2)
                <= 100 * (inject_Z c * 10 ^ p))%Q
            /\ _round_to_decimal_places x = Raise InvalidOperation
        end)
  /\ _round_to_decimal_places (literal 10555 (-3)) = Ok (literal 1056 (-2))
  /\ _round_to_decimal_places (literal 10554 (-3)) = Ok (literal 1055 (-2))
  /\ _round_to_decimal_places (literal 5 (-3)) = Ok (literal 1 (-2))
  /\ _round_to_decimal_places (literal 4 (-3)) = Ok (literal 0 (-2))
  /\ _round_to_decimal_places (literal 2675 (-3)) = Ok (literal 268 (-2))
  /\ (literal 2675 (-3) = S754_finite false 6023564501608038 (-51)
      /\ of_float_str (literal 2675 (-3)) = Dec false 2675 (-3)
      /\ binary_half_up_cents 6023564501608038 (-51) = 267).
Proof.
  split; [|repeat split; vm_compute; reflexivity].
  intros s m e x c p.
  assert (Hstr : of_float_str x = Dec s c p).
  { unfold x, c, p. cbn [of_float_str]. destruct (shortest m e); reflexivity. }
  pose proof (shortest_reads_back m e) as Hrb. fold c p in Hrb.
  split; [exact Hstr|]. split; [exact Hrb|]. split; [apply printed_close|].
  destruct (reads_back_close m e c p Hrb) as (_ & _ & Hc).
  unfold _round_to_decimal_places, rounded. rewrite Hstr.
  pose proof (quantize_cents_spec s c p ltac:(lia)) as Hq.
  destruct (quantize_cents (Dec s c p)) as [r|ex].
  - destruct Hq as (N & -> & [HN _] & Hbr). exists N. cbn. auto.
  - destruct Hq as [-> Hbig]. cbn. auto.
Qed.

(** C1: the cart with apple 1.50 and banana 0.75, both requested, at tax
    rate 0.1 gives subtotal 2.25, tax_amount 0.23, total 2.48, both items
    found, none missing, and a count of 2.  The tax is 2.25 * 0.1, printed
    0.225, and the total 2.25 plus that tax, printed 2.475; each is then
    rounded on its own, halves upwards. *)
Theorem calculate_total_example_cart :
  calculate_total example_cart
  = Ok {| subtotal := literal 225 (-2);
          tax_amount := literal 23 (-2);
          total := literal 248 (-2);
          items_found := ["apple"; "banana"];
          items_not_found := [];
          items_count := 2 |}
  /\ (let '(raw_subtotal, _, _) :=
        _calculate_subtotal (items example_cart) (costs example_cart) in
      let '(raw_tax, raw_total) := _calculate_tax_and_total raw_subtotal (tax example_cart) in
      raw_subtotal = literal 225 (-2)
      /\ raw_tax = fmul (literal 225 (-2)) (literal 1 (-1))
      /\ raw_total = fadd (literal 225 (-2)) raw_tax
      /\ of_float_str raw_tax = Dec false 225 (-3)
      /\ of_float_str raw_total = Dec false 2475 (-3)
      /\ rounded raw_tax = Ok (Dec false 23 (-2))
      /\ rounded raw_total = Ok (Dec false 248 (-2))).
Proof. vm_compute. repeat split; reflexivity. Qed.

End RoundingFacts.

(** ** The cost-list parser *)

Module ParseCostsFacts.

Import PyFloat ShoppingModels Spec.

(** *** The regular expression finds the first usable colon *)

Lemma lstrip_idem (s : string) : PyStr.lstrip (PyStr.lstrip s) = PyStr.lstrip s.
Proof.
  induction s as [|c s IH]; simpl; [reflexivity|].
  destruct (PyStr.isspace c) eqn:Hc; [exact IH|]. simpl. rewrite Hc. reflexivity.
Qed.

Lemma last_char_blank (s : string) :
  PyStr.lstrip s = "" -> PyStr.lstrip (last_char s) = "".
Proof.
  induction s as [|c s IH]; [reflexivity|]. cbn [PyStr.lstrip].
  destruct (PyStr.isspace c) eqn:Hc; [|discriminate]. intros Hs.
  destruct s as [|c' s']; [simpl; rewrite Hc; reflexivity|].
  apply IH, Hs.
Qed.

(** Whatever [\s*] leaves to the group, the trimmed group is the trimmed
    text after the colon. *)
Lemma match_price_strip (rest g2 : string) :
  match_price rest = Some g2 -> PyStr.strip g2 = PyStr.strip rest.
Proof.
  unfold match_price, PyStr.strip.
  destruct (PyStr.lstrip rest) as [|c r] eqn:Hl.
  - intros H. assert (Hg : g2 = last_char rest)
      by (destruct rest; [discriminate|congruence]).
    subst g2. rewrite (last_char_blank _ Hl). reflexivity.
  - intros [= <-]. rewrite <- Hl, lstrip_idem. reflexivity.
Qed.

Lemma match_price_none (rest : string) : match_price rest = None <-> rest = "".
Proof.
  unfold match_price. split.
  - destruct (PyStr.lstrip rest); [|discriminate]. destruct rest; [reflexivity|discriminate].
  - intros ->. reflexivity.
Qed.

Lemma append_empty_r (s : string) : (s ++ "")%string = s.
Proof.
  induction s as [|a s IH]; [reflexivity|].
  change (String a (s ++ "")%string = String a s). congruence.
Qed.

Lemma append_snoc (s t : string) (c : ascii) :
  ((s ++ String c "") ++ t)%string = (s ++ String c t)%string.
Proof.
  induction s as [|a s IH]; [reflexivity|].
  change (String a ((s ++ String c "") ++ t)%string = String a (s ++ String c t)%string).
  congruence.
Qed.

Lemma match_name_colon_split (rest : string) :
  forall name : string,
    match colon_split rest with
    | Some (mid, after) =>
        exists g2, match_name name rest = Some ((name ++ mid)%string, g2)
                   /\ PyStr.strip g2 = PyStr.strip after
    | None => match_name name rest = None
    end.
Proof.
  induction rest as [|c rest IH]; intros name; cbn [colon_split match_name].
  - reflexivity.
  - destruct (Ascii.eqb c ":") eqn:Hc.
    + destruct rest as [|c' rest'].
      * reflexivity.
      * destruct (match_price (String c' rest')) as [g2|] eqn:Hp.
        -- exists g2. split; [|apply match_price_strip, Hp].
           rewrite append_empty_r. reflexivity.
        -- apply match_price_none in Hp. discriminate.
    + specialize (IH (name ++ String c "")%string).
      destruct (colon_split rest) as [[mid after]|].
      * destruct IH as (g2 & -> & Hg). exists g2. split; [|exact Hg].
        rewrite append_snoc. reflexivity.
      * exact IH.
Qed.

Lemma match_item_price_spec (line : string) :
  match name_and_price line with
  | Some (name, rest) =>
      exists g2, match_item_price line = Some (name, g2)
                 /\ PyStr.strip g2 = PyStr.strip rest
  | None => match_item_price line = None
  end.
Proof.
  destruct line as [|c s]; [reflexivity|]. cbn [name_and_price match_item_price].
  pose proof (match_name_colon_split s (String c "")) as H.
  destruct (colon_split s) as [[mid after]|]; exact H.
Qed.

(** *** The loop over the lines *)

Lemma strip_empty (line : string) :
  PyStr.truthy (PyStr.strip line) = false -> name_and_price (PyStr.strip line) = None.
Proof. destruct (PyStr.strip line); [reflexivity|discriminate]. Qed.

(** The loop stops at the first rejected line and stores the pairs of the
    lines before the end otherwise. *)
Lemma lines_loop_spec (lines : list string) :
  forall d : gmap string float,
    lines_loop lines d
    = match first_rejection (map read_line lines) with
      | Some msg => Raise (ValueError msg)
      | None => Ok (fold_left store_pair (priced_pairs (map read_line lines)) d)
      end.
Proof.
  induction lines as [|line lines IH]; intros d; [reflexivity|].
  cbn [lines_loop map]. unfold read_line at 1 3.
  destruct (PyStr.truthy (PyStr.strip line)) eqn:Hne; cbn [negb].
  2:{ rewrite (strip_empty line Hne). cbn [first_rejection priced_pairs]. apply IH. }
  pose proof (match_item_price_spec (PyStr.strip line)) as Hm.
  destruct (name_and_price (PyStr.strip line)) as [[name rest]|].
  2:{ rewrite Hm. cbn [first_rejection priced_pairs]. apply IH. }
  destruct Hm as (g2 & -> & ->).
  destruct (PyStr.truthy (PyStr.strip name)); cbn [negb].
  2:{ cbn [first_rejection priced_pairs]. apply IH. }
  destruct (FloatParse.float_of_string (PyStr.strip rest)) as [price|].
  2:{ reflexivity. }
  destruct (flt price zero); [reflexivity|].
  cbn [first_rejection priced_pairs fold_left]. apply IH.
Qed.

Lemma fold_store_pairs (pairs : list (string * float)) :
  forall d : gmap string float,
    fold_left store_pair pairs d = last_wins pairs ∪ d.
Proof.
  unfold last_wins.
  induction pairs as [|[k v] pairs IH]; intros d; cbn [fold_left].
  - cbn. rewrite (left_id_L ∅ (∪)). reflexivity.
  - rewrite IH, reverse_cons, list_to_map_app. cbn [list_to_map foldr].
    unfold store_pair. cbn [fst snd].
    rewrite <- (assoc_L (∪)), <- insert_union_l, (left_id_L ∅ (∪)). reflexivity.
Qed.

Lemma last_wins_empty (pairs : list (string * float)) :
  last_wins pairs = ∅ <-> pairs = [].
Proof.
  unfold last_wins. split; [|intros ->; reflexivity].
  destruct pairs as [|[k v] pairs]; [reflexivity|].
  rewrite reverse_cons, list_to_map_app. cbn [list_to_map foldr]. intros H.
  apply (f_equal (lookup k)) in H. rewrite lookup_empty in H.
  apply lookup_union_None in H. destruct H as [_ H].
  cbn in H. rewrite lookup_insert_eq in H. discriminate.
Qed.

(** The later of two pairs for a name is the one kept. *)
Lemma last_wins_lookup (l1 l2 : list (string * float)) (k : string) (v : float) :
  k ∉ l2.*1 -> last_wins (l1 ++ (k, v) :: l2) !! k = Some v.
Proof.
  intros Hk. unfold last_wins.
  rewrite reverse_app, reverse_cons, <- app_assoc. cbn [app].
  rewrite list_to_map_app. apply lookup_union_Some_raw. right. split.
  - apply not_elem_of_list_to_map_1. rewrite fmap_reverse, elem_of_reverse. exact Hk.
  - cbn. apply lookup_insert_eq.
Qed.

Lemma parse_key_value_spec (text : string) :
  parse_key_value text = key_value_costs text.
Proof.
  unfold parse_key_value, key_value_costs, outcomes_of.
  rewrite lines_loop_spec.
  destruct (first_rejection _); [reflexivity|].
  cbn [mbind result_bind]. rewrite fold_store_pairs, (right_id_L ∅ (∪)).
  destruct (decide (last_wins _ = ∅)) as [He|Hne].
  - apply last_wins_empty in He. rewrite He. reflexivity.
  - destruct (priced_pairs _) eqn:Hp; [|reflexivity].
    exfalso. apply Hne. reflexivity.
Qed.

Lemma colon_split_no_colon (s : string) :
  PyStr.contains ":" s = false -> colon_split s = None.
Proof.
  induction s as [|c s IH]; [reflexivity|]. cbn [PyStr.contains colon_split].
  destruct (Ascii.eqb c ":"); [discriminate|]. cbn [orb]. intros H.
  rewrite (IH H). reflexivity.
Qed.

Lemma read_line_no_colon (line : string) :
  PyStr.contains ":" (PyStr.strip line) = false -> read_line line = Skipped.
Proof.
  unfold read_line. destruct (PyStr.strip line) as [|c s]; [reflexivity|].
  cbn [PyStr.contains name_and_price]. intros H.
  apply orb_false_iff in H. destruct H as [_ H].
  rewrite (colon_split_no_colon s H). reflexivity.
Qed.

(** Outside the JSON part, [_parse_costs] is the key:value format. *)
Lemma parse_costs_not_json (json_loads : string -> option pyvalue) (input : string) :
  PyStr.truthy (PyStr.strip input) = true ->
  (PyStr.startswith "{" (PyStr.strip input) = false
   \/ json_loads (PyStr.strip input) = None) ->
  _parse_costs json_loads input = key_value_costs (PyStr.strip input).
Proof.
  intros Hne Hcase. unfold _parse_costs. rewrite Hne. cbn [negb].
  rewrite DictionaryFacts.strip_idem, <- parse_key_value_spec.
  destruct Hcase as [-> | ->]; [reflexivity|].
  destruct (PyStr.startswith "{" (PyStr.strip input)); reflexivity.
Qed.

(** C6 (as amended): in the key:value format the input is split at
    commas, semicolons and newlines; a trimmed line with a colon after its
    first character and text after that colon is a name:price pair, every
    other line (no colon, or nothing after it) is skipped; the price text
    must be one that float() accepts, which includes inf and nan, else the
    parser fails with a ValueError; a price below zero fails with a
    ValueError naming the item; a later pair for a name replaces an earlier
    one; and without any pair the parser fails with a ValueError. *)
Theorem parse_costs_key_value_format :
  (forall text : string, parse_key_value text = key_value_costs text)
  /\ (forall (json_loads : string -> option pyvalue) (input : string),
        PyStr.truthy (PyStr.strip input) = true ->
        PyStr.startswith "{" (PyStr.strip input) = false ->
        _parse_costs json_loads input = key_value_costs (PyStr.strip input))
  /\ (forall line : string,
        PyStr.contains ":" (PyStr.strip line) = false -> read_line line = Skipped)
  /\ (forall (l1 l2 : list (string * float)) (k : string) (v : float),
        k ∉ l2.*1 -> last_wins (l1 ++ (k, v) :: l2) !! k = Some v)
  /\ (forall text : string,
        first_rejection (outcomes_of text) = None ->
        priced_pairs (outcomes_of text) = [] ->
        parse_key_value text = Raise (ValueError CostsNotParsed))
  /\ read_line "a: 1.5" = Priced "a" (literal 15 (-1))
  /\ read_line "a: inf" = Priced "a" (S754_infinity false)
  /\ read_line "a: nan" = Priced "a" S754_nan
  /\ read_line "b:" = Skipped
  /\ read_line "a: -1" = NegativePrice "a"
  /\ read_line "a: x" = BadPrice "a" "x"
  /\ price_error "a" "x" = InvalidPrice "a" "x".
Proof.
  split; [exact parse_key_value_spec|].
  split; [intros; apply parse_costs_not_json; auto|].
  split; [exact read_line_no_colon|].
  split; [exact last_wins_lookup|].
  split.
  { intros text Hr Hp. rewrite parse_key_value_spec. unfold key_value_costs.
    rewrite Hr, Hp. reflexivity. }
  repeat split; vm_compute; reflexivity.
Qed.

Lemma parse_costs_key_value_format_witness :
  PyStr.truthy (PyStr.strip "a: 1.5, b: 0.75") = true
  /\ PyStr.startswith "{" (PyStr.strip "a: 1.5, b: 0.75") = false
  /\ _parse_costs decode_nothing "a: 1.5, b: 0.75"
     = key_value_costs (PyStr.strip "a: 1.5, b: 0.75").
Proof.
  split; [reflexivity|]. split; [reflexivity|].
  destruct parse_costs_key_value_format as (_ & Hformat & _).
  exact (Hformat decode_nothing "a: 1.5, b: 0.75" eq_refl eq_refl).
Defined.

(** C6 as worded fails on a price that is not finite: "a: inf" is
    accepted with the price infinity; and on a line that has a colon and
    no price: "b:" is skipped. *)
Lemma parse_costs_accepts_infinity :
  _parse_costs decode_nothing "a: inf" = Ok {[ "a" := S754_infinity false ]}
  /\ is_finite (S754_infinity false) = false
  /\ _parse_costs decode_nothing "a: 1, b:" = Ok {[ "a" := literal 1 0 ]}.
Proof. repeat split; vm_compute; reflexivity. Qed.

(** C10: when the trimmed input starts with a brace and JSON decoding
    fails, the parser goes on with the key:value format on the same text;
    so "{a: 1}" fails there on the price "1}", and "{a: 1, b: 2" succeeds
    with the names "{a" and "b". *)
Theorem parse_costs_json_failure_falls_through
    (json_loads : string -> option pyvalue) :
  (forall input : string,
     PyStr.truthy (PyStr.strip input) = true ->
     PyStr.startswith "{" (PyStr.strip input) = true ->
     json_loads (PyStr.strip input) = None ->
     _parse_costs json_loads input = parse_key_value (PyStr.strip input))
  /\ (json_loads "{a: 1}" = None ->
      _parse_costs json_loads "{a: 1}" = Raise (ValueError (InvalidPrice "{a" "1}")))
  /\ (json_loads "{a: 1, b: 2" = None ->
      _parse_costs json_loads "{a: 1, b: 2"
      = Ok (<["b" := literal 2 0]> {[ "{a" := literal 1 0 ]})).
Proof.
  assert (Hgen : forall input : string,
            PyStr.truthy (PyStr.strip input) = true ->
            json_loads (PyStr.strip input) = None ->
            _parse_costs json_loads input = parse_key_value (PyStr.strip input)).
  { intros input Hne Hfail. rewrite parse_key_value_spec.
    apply parse_costs_not_json; auto. }
  split; [intros; apply Hgen; assumption|].
  split; intros Hfail; rewrite Hgen by (try reflexivity; exact Hfail);
    vm_compute; reflexivity.
Qed.

Lemma parse_costs_json_failure_falls_through_witness :
  PyStr.truthy (PyStr.strip "{a: 1, b: 2") = true
  /\ PyStr.startswith "{" (PyStr.strip "{a: 1, b: 2") = true
  /\ decode_nothing (PyStr.strip "{a: 1, b: 2") = None
  /\ _parse_costs decode_nothing "{a: 1, b: 2"
     = parse_key_value (PyStr.strip "{a: 1, b: 2").
Proof.
  split; [reflexivity|]. split; [reflexivity|]. split; [reflexivity|].
  destruct (parse_costs_json_failure_falls_through decode_nothing) as (Hfall & _).
  exact (Hfall "{a: 1, b: 2" eq_refl eq_refl eq_refl).
Defined.

(** *** The JSON part *)

(** A decoded object is handled by the JSON part alone. *)
Lemma parse_costs_json_object (json_loads : string -> option pyvalue)
    (input : string) (doc : pyvalue) :
  PyStr.truthy (PyStr.strip input) = true ->
  PyStr.startswith "{" (PyStr.strip input) = true ->
  json_loads (PyStr.strip input) = Some doc ->
  _parse_costs json_loads input = costs_of_json doc.
Proof.
  intros Hne Hb Hdoc. unfold _parse_costs. rewrite Hne. cbn [negb].
  rewrite DictionaryFacts.strip_idem, Hb, Hdoc. reflexivity.
Qed.

(** The loop stores the numbers that are not negative ... *)
Lemma json_loop_number (key : string) (value : pyvalue) (x : float)
    (rest : list (string * pyvalue)) (d : gmap string float) :
  nonnegative_number value = Some x ->
  json_loop ((key, value) :: rest) d = json_loop rest (<[key := x]> d).
Proof.
  intros Hv. cbn [json_loop].
  destruct value as [|b|n|y|s|l|its]; try discriminate; cbn in Hv |- *.
  - destruct (n <? 0); [discriminate|]. cbn [negb].
    destruct (of_int n); [|discriminate]. injection Hv as ->. reflexivity.
  - destruct (flt y zero); [discriminate|]. injection Hv as ->. reflexivity.
Qed.

(** ... fails on a value below zero, naming its key ... *)
Lemma json_loop_negative (key : string) (value : pyvalue)
    (rest : list (string * pyvalue)) (d : gmap string float) :
  is_int_or_float value = true -> lt_zero value = true ->
  json_loop ((key, value) :: rest) d = Raise (ValueError (CostNegative key)).
Proof. intros Hn Hz. cbn [json_loop]. rewrite Hn, Hz. reflexivity. Qed.

(** ... and on a value that is no int, float or bool, naming its key. *)
Lemma json_loop_not_number (key : string) (value : pyvalue)
    (rest : list (string * pyvalue)) (d : gmap string float) :
  is_int_or_float value = false ->
  json_loop ((key, value) :: rest) d = Raise (ValueError (CostNotNumber key)).
Proof. intros Hn. cbn [json_loop]. rewrite Hn. reflexivity. Qed.

(** C5 at a JSON true: the value is not a number, and the parser accepts
    it as the cost 1.0 instead of failing with an error that names the
    key. *)
Theorem parse_costs_json_true_accepted (json_loads : string -> option pyvalue) :
  let text := ("{" ++ dquote ++ "a" ++ dquote ++ ": true}")%string in
  json_loads text = Some (PyDict [("a", PyBool true)]) ->
  _parse_costs json_loads text = Ok {[ "a" := literal 1 0 ]}.
Proof.
  intros text Hdoc.
  rewrite (parse_costs_json_object json_loads text (PyDict [("a", PyBool true)]));
    [vm_compute; reflexivity|reflexivity|reflexivity|exact Hdoc].
Qed.

Lemma parse_costs_json_true_accepted_witness :
  let text := ("{" ++ dquote ++ "a" ++ dquote ++ ": true}")%string in
  decode_as (PyDict [("a", PyBool true)]) text = Some (PyDict [("a", PyBool true)])
  /\ _parse_costs (decode_as (PyDict [("a", PyBool true)])) text
     = Ok {[ "a" := literal 1 0 ]}.
Proof.
  split; [reflexivity|].
  exact (parse_costs_json_true_accepted (decode_as (PyDict [("a", PyBool true)])) eq_refl).
Defined.

End ParseCostsFacts.

(** ** Independent rounding of subtotal, tax and total *)

Module OneCentFacts.

Import PyFloat Decimal ShoppingService Spec DecimalFacts FloatFacts.

(** *** Validity of the raw values *)

Lemma fadd_valid (x y : float) :
  valid_binary prec emax x = true -> valid_binary prec emax y = true ->
  valid_binary prec emax (fadd x y) = true.
Proof.
  intros Hx Hy.
  destruct (is_finite x) eqn:Hfx; [destruct (is_finite y) eqn:Hfy|].
  - apply (fadd_props x y Hfx Hfy Hx Hy).
  - destruct x as [sx|sx| |sx mx ex], y as [sy|sy| |sy my ey]; try discriminate;
      reflexivity.
  - destruct x as [sx|sx| |sx mx ex]; try discriminate;
      destruct y as [sy|sy| |sy my ey]; try reflexivity;
      destruct sx, sy; reflexivity.
Qed.

Lemma subtotal_loop_valid (costs : gmap string float) (items : list string) :
  map_Forall (fun _ c => valid_binary prec emax c = true) costs ->
  forall (sub : float) (found missing : list string),
    valid_binary prec emax sub = true ->
    valid_binary prec emax (subtotal_loop costs items sub found missing).1.1 = true.
Proof.
  intros Hcosts. induction items as [|item items IH]; intros sub found missing Hsub.
  - exact Hsub.
  - cbn [subtotal_loop].
    destruct (negb (PyStr.truthy _)); [apply IH, Hsub|].
    destruct (costs !! _) as [c|] eqn:Hc; [|apply IH, Hsub].
    apply IH, fadd_valid; [exact Hsub|]. exact (Hcosts _ _ Hc).
Qed.

Local Open Scope Q_scope.

(** *** From the size of a float to its last place *)

Lemma exponent_below (x : float) (V : Q) (k : Z) :
  is_finite x = true -> valid_binary prec emax x = true ->
  Qabs (float_value x) <= V + half_ulp x ->
  V < 2 ^ (51 + k) -> (-1074 < k)%Z ->
  half_ulp x <= 2 ^ (k - 2).
Proof.
  intros Hf Hv Hsize HV Hk.
  destruct x as [s|s| |s m e]; try discriminate; cbn [half_ulp].
  - apply pow2_le. lia.
  - apply pow2_le. destruct (Z.lt_ge_cases e k) as [|Hek]; [lia|exfalso].
    destruct (valid_canonical s m e Hv) as [Hcan _].
    pose proof (canonical_full (Zpos m) e ltac:(lia) Hcan ltac:(lia)) as Hfull.
    apply inject_le in Hfull. rewrite inject_pow2 in Hfull by lia.
    cbn [float_value half_ulp] in Hsize.
    setoid_replace (sign_of s * inject_Z (Zpos m) * 2 ^ e)
      with (sign_of s * (inject_Z (Zpos m) * 2 ^ e)) using relation Qeq in Hsize by ring.
    rewrite sign_of_abs in Hsize.
    assert (Hpos : 0 <= inject_Z (Zpos m) * 2 ^ e).
    { apply Qmult_le_0_compat; [apply (inject_le 0); lia|apply Qlt_le_weak, pow2_pos]. }
    rewrite Qabs_pos in Hsize by exact Hpos.
    assert (Hbig : 2 ^ 52 * 2 ^ e <= inject_Z (Zpos m) * 2 ^ e).
    { apply Qmult_le_compat_r; [exact Hfull|apply Qlt_le_weak, pow2_pos]. }
    assert (Hsplit : 2 ^ e == 2 * 2 ^ (e - 1)).
    { replace e with (1 + (e - 1))%Z at 1 by lia. rewrite pow2_add. reflexivity. }
    assert (Hlow : 2 ^ (51 + k) <= 2 ^ 51 * 2 ^ e).
    { rewrite <- pow2_add. apply pow2_le. lia. }
    pose proof (pow2_pos (e - 1)) as Hp.
    change (2 ^ 52) with (2 * 2 ^ 51) in Hbig.
    set (A := inject_Z (Zpos m) * 2 ^ e) in *. set (H2 := 2 ^ (e - 1)) in *.
    set (U := 2 ^ e) in *. set (L := 2 ^ 51 * U) in *.
    assert (E1 : 2 * 2 ^ 51 * U == 2 * L) by (unfold L; ring).
    assert (E2 : L == 2 ^ 51 * (2 * H2)) by (unfold L; rewrite Hsplit; ring).
    assert (H2 <= L).
    { assert (1 * H2 <= 2 ^ 52 * H2) by (apply Qmult_le_compat_r; [discriminate|lra]).
      change (2 ^ 52) with (2 ^ 51 * 2) in *. lra. }
    lra.
Qed.

(** *** The cents of a float of moderate size *)

Lemma inject_cents (s : bool) (N : Z) :
  inject_Z (if s then (- N)%Z else N) == sign_of s * inject_Z N.
Proof. destruct s; cbn [sign_of]; [rewrite inject_Z_opp|]; ring. Qed.

Lemma printed_zero_or_close (x : float) :
  is_finite x = true ->
  Qabs (decimal_value (of_float_str x) - float_value x) <= half_ulp x.
Proof.
  destruct x as [s|s| |s m e]; try discriminate; intros _.
  - cbn [of_float_str decimal_value float_value half_ulp].
    assert (E : sign_of s * inject_Z 0 * 10 ^ (-1) - 0 == 0) by (destruct s; reflexivity).
    rewrite E. change (Qabs 0) with 0. apply Qlt_le_weak, pow2_pos.
  - apply RoundingFacts.printed_close.
Qed.

Lemma printed_coefficient (x : float) :
  is_finite x = true ->
  exists (s : bool) (c p : Z), of_float_str x = Dec s c p /\ (0 <= c)%Z.
Proof.
  destruct x as [s|s| |s m e]; try discriminate; intros _.
  - exists s, 0%Z, (-1)%Z. split; [reflexivity|lia].
  - pose proof (shortest_reads_back m e) as Hrb.
    destruct (reads_back_close m e _ _ Hrb) as (_ & _ & Hc).
    exists s, (fst (shortest m e)), (snd (shortest m e)). split; [|lia].
    cbn [of_float_str]. destruct (shortest m e); reflexivity.
Qed.

(** A finite float below [10^25] rounds to a number of cents within half
    a cent, and a hundred half units in the last place, of its value. *)
Lemma rounded_cents (x : float) (V : Q) :
  is_finite x = true ->
  Qabs (float_value x) <= V -> half_ulp x <= 1 -> V <= 10 ^ 25 ->
  exists (s : bool) (N : Z),
    rounded x = Ok (Dec s N (-2))
    /\ Qabs (inject_Z (cents_of (Dec s N (-2))) - 100 * float_value x)
       <= (1 # 2) + 100 * half_ulp x.
Proof.
  intros Hf Hsize Hh HV.
  pose proof (printed_zero_or_close x Hf) as Hclose.
  destruct (printed_coefficient x Hf) as (s & c & p & Hstr & Hc).
  unfold rounded. rewrite Hstr in *. cbn [decimal_value] in Hclose.
  pose proof (quantize_cents_spec s c p Hc) as Hq.
  set (a := inject_Z c * 10 ^ p) in *.
  setoid_replace (sign_of s * inject_Z c * 10 ^ p) with (sign_of s * a)
    using relation Qeq in Hclose by (unfold a; ring).
  set (v := float_value x) in *. set (h := half_ulp x) in *.
  apply Qabs_Qle_condition in Hclose. apply Qabs_Qle_condition in Hsize.
  destruct Hclose as [Hc1 Hc2]. destruct Hsize as [Hs1 Hs2].
  destruct (quantize_cents (Dec s c p)) as [r|ex].
  - destruct Hq as (N & -> & _ & Hb1 & Hb2). exists s, N. split; [reflexivity|].
    cbn [cents_of]. rewrite inject_cents.
    apply Qabs_Qle_condition.
    destruct s; cbn [sign_of] in *; split; lra.
  - exfalso. destruct Hq as [_ Hbig]. unfold context_prec in Hbig.
    rewrite inject_pow10 in Hbig by lia.
    change (10 ^ 28) with (1000 * 10 ^ 25) in Hbig.
    destruct s; cbn [sign_of] in *; lra.
Qed.

Lemma inject_abs_lt_2 (z : Z) : Qabs (inject_Z z) < 2 -> (Z.abs z <= 1)%Z.
Proof.
  intros H. destruct (Z.le_gt_cases (Z.abs z) 1) as [|Hgt]; [assumption|exfalso].
  assert (Hq : 2 <= Qabs (inject_Z z)).
  { destruct (Z.abs_spec z) as [[Hz Ha]|[Hz Ha]].
    - rewrite Qabs_pos by (apply (inject_le 0); lia).
      apply (inject_le 2). lia.
    - rewrite Qabs_neg by (apply (inject_le z 0); lia).
      rewrite <- inject_Z_opp. apply (inject_le 2). lia. }
  lra.
Qed.

(** The rounding of a finite value of moderate size gives a finite
    result. *)
Lemma rounds_to_finite (z : float) (exact V : Q) :
  rounds_to z exact -> Qabs exact <= V -> V < 2 ^ 1023 ->
  is_finite z = true /\ valid_binary prec emax z = true
  /\ Qabs (float_value z - exact) <= half_ulp z.
Proof.
  intros [Hv Hr] Hsize HV.
  destruct z as [s|s| |s m e]; try contradiction; auto. exfalso. lra.
Qed.

Ltac split_abs H :=
  apply Qabs_Qle_condition in H; destruct H as [? ?].

(** C3 (as amended): the raw total is the float sum of the raw subtotal
    and the raw tax amount, itself the float product of subtotal and tax
    rate; and when the raw subtotal is finite and at most 10^12 in absolute
    value (the costs being binary64 values and the tax rate one between 0
    and 1), the call succeeds, the three fields are rounded on their own,
    each to a whole number of cents, and the cents of the total differ from
    the sum of the cents of subtotal and tax amount by at most one. *)
Theorem rounded_total_within_one_cent (request : ShoppingTotalRequest) :
  map_Forall (fun _ c => valid_binary prec emax c = true) (costs request) ->
  valid_binary prec emax (tax request) = true ->
  is_finite (tax request) = true ->
  0 <= float_value (tax request) <= 1 ->
  let '(raw_subtotal, found, missing) :=
    _calculate_subtotal (items request) (costs request) in
  let '(raw_tax, raw_total) := _calculate_tax_and_total raw_subtotal (tax request) in
  raw_tax = fmul raw_subtotal (tax request)
  /\ raw_total = fadd raw_subtotal raw_tax
  /\ (is_finite raw_subtotal = true ->
      Qabs (float_value raw_subtotal) <= 1000000000000 ->
      exists (ss st sT : bool) (cs ct cT : Z),
        rounded raw_subtotal = Ok (Dec ss cs (-2))
        /\ rounded raw_tax = Ok (Dec st ct (-2))
        /\ rounded raw_total = Ok (Dec sT cT (-2))
        /\ calculate_total request
           = Ok {| subtotal := of_decimal ss cs (-2);
                   tax_amount := of_decimal st ct (-2);
                   total := of_decimal sT cT (-2);
                   items_found := found;
                   items_not_found := missing;
                   items_count := (length found + length missing)%nat |}
        /\ Qabs (float_value raw_total
                 - (float_value raw_subtotal + float_value raw_tax))
           <= half_ulp raw_total
        /\ (Z.abs (cents_of (Dec sT cT (-2))
                   - (cents_of (Dec ss cs (-2)) + cents_of (Dec st ct (-2)))) <= 1)%Z).
Proof.
  intros Hcosts Hvtax Hftax [Htax0 Htax1].
  unfold calculate_total, _calculate_subtotal.
  pose proof (subtotal_loop_valid (costs request) (items request) Hcosts
                zero [] [] eq_refl) as Hvs.
  destruct (subtotal_loop _ _ _ _ _) as [[sub found] missing]. cbn [fst] in Hvs.
  unfold _calculate_tax_and_total.
  split; [reflexivity|]. split; [reflexivity|]. intros Hfs Hsize.
  set (t := fmul sub (tax request)). set (T := fadd sub t).
  (* the tax amount *)
  assert (Hprod : Qabs (float_value sub * float_value (tax request)) <= 1000000000000).
  { rewrite Qabs_Qmult, (Qabs_pos (float_value (tax request))) by exact Htax0.
    eapply Qle_trans; [|exact Hsize].
    rewrite <- (Qmult_1_r (Qabs (float_value sub))) at 2.
    rewrite !(Qmult_comm (Qabs (float_value sub))).
    apply Qmult_le_compat_r; [exact Htax1|apply Qabs_nonneg]. }
  destruct (rounds_to_finite t _ _ (fmul_props sub (tax request) Hfs Hftax Hvs Hvtax)
              Hprod eq_refl) as (Hft & Hvt & Het).
  pose proof (half_ulp_nonneg t) as Hht0.
  assert (Hst : Qabs (float_value t) <= 1000000000000 + half_ulp t).
  { apply Qabs_Qle_condition. split_abs Het. split_abs Hprod. split; lra. }
  pose proof (exponent_below t _ (-11) Hft Hvt Hst eq_refl eq_refl) as Hht.
  change (2 ^ (-11 - 2)) with (1 # 8192) in Hht.
  (* the subtotal *)
  pose proof (half_ulp_nonneg sub) as Hhs0.
  assert (Hss : Qabs (float_value sub) <= 1000000000000 + half_ulp sub) by lra.
  pose proof (exponent_below sub _ (-11) Hfs Hvs Hss eq_refl eq_refl) as Hhs.
  change (2 ^ (-11 - 2)) with (1 # 8192) in Hhs.
  (* the total *)
  assert (Hsum : Qabs (float_value sub + float_value t) <= 2000000000001).
  { apply Qabs_Qle_condition. split_abs Hst. split_abs Hsize. split; lra. }
  destruct (rounds_to_finite T _ _ (fadd_props sub t Hfs Hft Hvs Hvt) Hsum eq_refl)
    as (HfT & HvT & HeT).
  pose proof (half_ulp_nonneg T) as HhT0.
  assert (HsT : Qabs (float_value T) <= 2000000000001 + half_ulp T).
  { apply Qabs_Qle_condition. pose proof HeT as HeT'. split_abs HeT'. split_abs Hsum.
    split; lra. }
  pose proof (exponent_below T _ (-10) HfT HvT HsT eq_refl eq_refl) as HhT.
  change (2 ^ (-10 - 2)) with (1 # 4096) in HhT.
  (* the cents *)
  destruct (rounded_cents sub 1000000000000 Hfs Hsize ltac:(lra) ltac:(discriminate))
    as (ss & cs & Hrs & Hcs).
  assert (Hst' : Qabs (float_value t) <= 1000000000001) by lra.
  destruct (rounded_cents t 1000000000001 Hft Hst' ltac:(lra) ltac:(discriminate))
    as (st & ct & Hrt & Hct).
  assert (HsT' : Qabs (float_value T) <= 2000000000002) by lra.
  destruct (rounded_cents T 2000000000002 HfT HsT' ltac:(lra) ltac:(discriminate))
    as (sT & cT & HrT & HcT).
  exists ss, st, sT, cs, ct, cT.
  split; [exact Hrs|]. split; [exact Hrt|]. split; [exact HrT|].
  split.
  { unfold _round_to_decimal_places. fold t T. rewrite Hrs, Hrt, HrT. reflexivity. }
  split; [exact HeT|].
  apply inject_abs_lt_2. unfold Z.sub.
  rewrite !inject_Z_plus, inject_Z_opp, inject_Z_plus.
  set (qs := inject_Z (cents_of (Dec ss cs (-2)))) in *.
  set (qt := inject_Z (cents_of (Dec st ct (-2)))) in *.
  set (qT := inject_Z (cents_of (Dec sT cT (-2)))) in *.
  split_abs Hcs. split_abs Hct. split_abs HcT. split_abs HeT.
  apply Qabs_Qlt_condition. split; lra.
Qed.

Lemma rounded_total_within_one_cent_witness :
  map_Forall (fun _ c => valid_binary prec emax c = true) (costs example_cart)
  /\ valid_binary prec emax (tax example_cart) = true
  /\ is_finite (tax example_cart) = true
  /\ 0 <= float_value (tax example_cart) <= 1
  /\ is_finite (literal 225 (-2)) = true
  /\ Qabs (float_value (literal 225 (-2))) <= 1000000000000
  /\ exists (ss st sT : bool) (cs ct cT : Z),
       rounded (literal 225 (-2)) = Ok (Dec ss cs (-2))
       /\ rounded (fmul (literal 225 (-2)) (tax example_cart)) = Ok (Dec st ct (-2))
       /\ rounded (fadd (literal 225 (-2)) (fmul (literal 225 (-2)) (tax example_cart)))
          = Ok (Dec sT cT (-2))
       /\ (Z.abs (cents_of (Dec sT cT (-2))
                  - (cents_of (Dec ss cs (-2)) + cents_of (Dec st ct (-2)))) <= 1)%Z.
Proof.
  assert (H1 : map_Forall (fun _ c => valid_binary prec emax c = true)
                 (costs example_cart)).
  { apply map_Forall_insert_2; [reflexivity|].
    apply map_Forall_insert_2; [reflexivity|]. apply map_Forall_empty. }
  assert (H2 : valid_binary prec emax (tax example_cart) = true) by reflexivity.
  assert (H3 : is_finite (tax example_cart) = true) by reflexivity.
  assert (H4 : 0 <= float_value (tax example_cart) <= 1)
    by (split; vm_compute; discriminate).
  assert (H5 : is_finite (literal 225 (-2)) = true) by reflexivity.
  assert (H6 : Qabs (float_value (literal 225 (-2))) <= 1000000000000)
    by (vm_compute; discriminate).
  split; [exact H1|]. split; [exact H2|]. split; [exact H3|]. split; [exact H4|].
  split; [exact H5|]. split; [exact H6|].
  pose proof (rounded_total_within_one_cent example_cart H1 H2 H3 H4) as H.
  assert (E : _calculate_subtotal (items example_cart) (costs example_cart)
              = (literal 225 (-2), ["apple"; "banana"], []))
    by (vm_compute; reflexivity).
  rewrite E in H. unfold _calculate_tax_and_total in H. cbv beta iota zeta in H.
  destruct H as (_ & _ & H).
  destruct (H H5 H6) as (ss & st & sT & cs & ct & cT & Hs & Ht & HT & _ & _ & Hcent).
  exists ss, st, sT, cs, ct, cT. auto.
Defined.

Local Close Scope Q_scope.

(** C3 as worded fails for large amounts: with a subtotal of
    9007199254740994 and tax rate 0.5 the float sum of subtotal and tax is
    not their exact sum, and the rounded total lies a whole unit (100
    cents) above the sum of the rounded subtotal and the rounded tax. *)
Lemma rounded_total_off_by_a_unit :
  let ds := Dec false 900719925474099400 (-2) in
  let dt := Dec false 450359962737049700 (-2) in
  let dT := Dec false 1351079888211149200 (-2) in
  calculate_total large_cart
  = Ok {| subtotal := to_float ds;
          tax_amount := to_float dt;
          total := to_float dT;
          items_found := ["x"];
          items_not_found := [];
          items_count := 1 |}
  /\ rounded (literal 9007199254740994 0) = Ok ds
  /\ rounded (fmul (literal 9007199254740994 0) (literal 5 (-1))) = Ok dt
  /\ rounded (fadd (literal 9007199254740994 0)
                (fmul (literal 9007199254740994 0) (literal 5 (-1)))) = Ok dT
  /\ cents_of dT - (cents_of ds + cents_of dt) = 100
  /\ ~ Z.abs (cents_of dT - (cents_of ds + cents_of dt)) <= 1.
Proof.
  vm_compute. repeat split; try reflexivity.
  intros Hle. apply Hle. reflexivity.
Qed.

End OneCentFacts.
(** ** Trimming and lower-casing *)

Module StringFacts.

Import Props.

Lemma lstrip_blank (s : string) : PyStr.lstrip s = "" <-> blank s = true.
Proof.
  unfold blank, chars. induction s as [|c s IH]; cbn [PyStr.lstrip list_ascii_of_string forallb].
  - tauto.
  - destruct (PyStr.isspace c); cbn [andb]; [exact IH|]. split; discriminate.
Qed.

Lemma rstrip_blank (s : string) : PyStr.rstrip s = "" <-> blank s = true.
Proof.
  unfold blank, chars. induction s as [|c s IH]; cbn [PyStr.rstrip list_ascii_of_string forallb].
  - tauto.
  - destruct (PyStr.rstrip s) as [|a r].
    + destruct IH as [IH _]. rewrite (IH eq_refl), andb_true_r.
      destruct (PyStr.isspace c); split; auto; discriminate.
    + split; [discriminate|]. intros H. apply andb_true_iff in H.
      destruct IH as [_ IH]. destruct H as [_ H]. discriminate (IH H).
Qed.

(** Trimming leaves nothing exactly of the strings of whitespace. *)
Lemma strip_blank (s : string) : PyStr.strip s = "" <-> blank s = true.
Proof.
  unfold PyStr.strip. split.
  - intros H. apply lstrip_blank.
    pose proof (DictionaryFacts.lstrip_head s) as Hh.
    destruct (PyStr.lstrip s) as [|c t]; [reflexivity|].
    destruct (DictionaryFacts.rstrip_head c t Hh) as [r Hr]. congruence.
  - intros H. apply lstrip_blank in H. rewrite H. reflexivity.
Qed.

Lemma truthy_strip (s : string) : PyStr.truthy (PyStr.strip s) = negb (blank s).
Proof.
  destruct (blank s) eqn:Hb.
  - apply strip_blank in Hb. rewrite Hb. reflexivity.
  - destruct (PyStr.strip s) eqn:Hs; [|reflexivity].
    apply strip_blank in Hs. congruence.
Qed.

Lemma blank_not_truthy (s : string) : PyStr.truthy s = false -> blank s = true.
Proof. destruct s; [reflexivity|discriminate]. Qed.

(** The two tests of the code for "empty or whitespace only". *)
Lemma empty_or_blank (s : string) :
  negb (PyStr.truthy s) || negb (PyStr.truthy (PyStr.strip s)) = blank s.
Proof.
  rewrite truthy_strip, negb_involutive.
  destruct (PyStr.truthy s) eqn:Ht; cbn [negb orb]; [reflexivity|].
  symmetry. apply blank_not_truthy, Ht.
Qed.

Lemma isspace_lower (c : ascii) : PyStr.isspace (PyStr.lower_char c) = PyStr.isspace c.
Proof.
  destruct c as [b0 b1 b2 b3 b4 b5 b6 b7].
  destruct b0, b1, b2, b3, b4, b5, b6, b7; reflexivity.
Qed.

Lemma lower_char_idem (c : ascii) :
  PyStr.lower_char (PyStr.lower_char c) = PyStr.lower_char c.
Proof.
  destruct c as [b0 b1 b2 b3 b4 b5 b6 b7].
  destruct b0, b1, b2, b3, b4, b5, b6, b7; reflexivity.
Qed.

Lemma lower_idem (s : string) : PyStr.lower (PyStr.lower s) = PyStr.lower s.
Proof.
  induction s as [|c s IH]; cbn [PyStr.lower]; [reflexivity|].
  rewrite lower_char_idem, IH. reflexivity.
Qed.

Lemma truthy_lower (s : string) : PyStr.truthy (PyStr.lower s) = PyStr.truthy s.
Proof. destruct s; reflexivity. Qed.

Lemma lstrip_lower (s : string) :
  PyStr.lstrip (PyStr.lower s) = PyStr.lower (PyStr.lstrip s).
Proof.
  induction s as [|c s IH]; cbn [PyStr.lower PyStr.lstrip]; [reflexivity|].
  rewrite isspace_lower. destruct (PyStr.isspace c); [exact IH|reflexivity].
Qed.

Lemma rstrip_lower (s : string) :
  PyStr.rstrip (PyStr.lower s) = PyStr.lower (PyStr.rstrip s).
Proof.
  induction s as [|c s IH]; cbn [PyStr.lower PyStr.rstrip]; [reflexivity|].
  rewrite IH, isspace_lower.
  destruct (PyStr.rstrip s); cbn [PyStr.lower]; [|reflexivity].
  destruct (PyStr.isspace c); reflexivity.
Qed.

(** Lower-casing and trimming commute. *)
Lemma strip_lower (s : string) :
  PyStr.strip (PyStr.lower s) = PyStr.lower (PyStr.strip s).
Proof. unfold PyStr.strip. rewrite lstrip_lower, rstrip_lower. reflexivity. Qed.

Lemma blank_lower (s : string) : blank (PyStr.lower s) = blank s.
Proof.
  unfold blank, chars. induction s as [|c s IH]; [reflexivity|].
  cbn [PyStr.lower list_ascii_of_string forallb]. rewrite isspace_lower, IH. reflexivity.
Qed.

Lemma blank_strip (s : string) : blank (PyStr.strip s) = blank s.
Proof.
  destruct (blank s) eqn:Hb.
  - apply strip_blank in Hb. rewrite Hb. reflexivity.
  - rewrite <- negb_true_iff, <- truthy_strip in Hb |- *.
    rewrite DictionaryFacts.strip_idem. exact Hb.
Qed.

End StringFacts.
(** ** The string utilities *)

Module UtilsFacts.

Import Utils Props StringFacts.

(** X1: validate_not_empty accepts exactly the strings that are not blank and
    returns them trimmed: the result is not blank, trimming it again
    changes nothing, and it passes the validation unchanged under any
    field name.  A blank string is rejected with the error that names the
    field. *)
Theorem validate_not_empty_trims (value field_name : string) :
  match validate_not_empty value field_name with
  | inr r =>
      blank value = false /\ r = PyStr.strip value
      /\ blank r = false /\ PyStr.strip r = r
      /\ forall other_name : string, validate_not_empty r other_name = inr r
  | inl e => e = FieldEmpty field_name /\ blank value = true
  end.
Proof.
  unfold validate_not_empty, is_empty_or_whitespace.
  pose proof (empty_or_blank value) as Hb.
  destruct (PyStr.truthy value) eqn:Ht; cbn [negb orb] in Hb |- *.
  - rewrite Hb. destruct (blank value) eqn:Hbl; [auto|].
    repeat split.
    + rewrite blank_strip. exact Hbl.
    + apply DictionaryFacts.strip_idem.
    + intros other_name.
      pose proof (empty_or_blank (PyStr.strip value)) as Hb'.
      rewrite blank_strip, Hbl in Hb'.
      destruct (PyStr.truthy (PyStr.strip value)); cbn [negb orb] in Hb' |- *;
        [|discriminate].
      rewrite Hb', DictionaryFacts.strip_idem. reflexivity.
  - auto.
Qed.

(** X2: normalize_string is idempotent: a returned string is returned unchanged
    when normalized again with the same flag; it is never blank; with
    to_lower it is the lower-cased result of the call without, and
    lower-casing it again changes nothing.  The two errors tell the empty
    string from the other blank ones. *)
Theorem normalize_string_idempotent (value : string) (to_lower : bool) :
  match normalize_string value to_lower with
  | inr r =>
      normalize_string r to_lower = inr r
      /\ blank r = false
      /\ r = (if to_lower then PyStr.lower (PyStr.strip value) else PyStr.strip value)
      /\ normalize_string value true = inr (PyStr.lower r)
      /\ (to_lower = true -> PyStr.lower r = r)
  | inl StringEmpty => value = ""
  | inl StringOnlyWhitespace => value <> "" /\ blank value = true
  | inl (FieldEmpty _) => False
  end.
Proof.
  unfold normalize_string.
  destruct value as [|c s]; [reflexivity|]. cbn [PyStr.truthy negb].
  set (value := String c s).
  rewrite truthy_strip, negb_involutive.
  destruct (blank value) eqn:Hb; [split; [discriminate|reflexivity]|].
  set (r := if to_lower then PyStr.lower (PyStr.strip value) else PyStr.strip value).
  assert (Hr : blank r = false).
  { unfold r. destruct to_lower; rewrite ?blank_lower, blank_strip; exact Hb. }
  assert (Hs : PyStr.strip r = r).
  { unfold r. destruct to_lower; rewrite ?strip_lower, DictionaryFacts.strip_idem;
      reflexivity. }
  assert (Hl : to_lower = true -> PyStr.lower r = r).
  { intros ->. unfold r. apply lower_idem. }
  assert (Ht : PyStr.truthy r = true).
  { rewrite <- Hs, truthy_strip, Hr. reflexivity. }
  repeat split; try assumption.
  - rewrite Ht. cbn [negb]. rewrite Hs, Ht. cbn [negb].
    destruct to_lower; [rewrite Hl|]; reflexivity.
  - unfold r. destruct to_lower; [rewrite lower_idem|]; reflexivity.
Qed.

(** X3: is_empty_or_whitespace holds for None and for the strings that consist
    of whitespace characters only, and for no other; it is the condition
    under which normalize_string and validate_not_empty raise, and when
    they return they return the same string (normalize_string without
    to_lower). *)
Theorem is_empty_or_whitespace_decides (value field_name : string) :
  is_empty_or_whitespace None = true
  /\ is_empty_or_whitespace (Some value) = blank value
  /\ match normalize_string value false, validate_not_empty value field_name with
     | inr r, inr r' => r = r' /\ is_empty_or_whitespace (Some value) = false
     | inl _, inl _ => is_empty_or_whitespace (Some value) = true
     | _, _ => False
     end.
Proof.
  assert (He : is_empty_or_whitespace (Some value) = blank value).
  { unfold is_empty_or_whitespace. rewrite <- empty_or_blank.
    destruct (PyStr.truthy value); reflexivity. }
  split; [reflexivity|]. split; [exact He|].
  unfold validate_not_empty, normalize_string. rewrite He.
  destruct (blank value) eqn:Hb.
  - destruct (PyStr.truthy value); cbn [negb]; [|reflexivity].
    rewrite truthy_strip, Hb. reflexivity.
  - destruct (PyStr.truthy value) eqn:Ht; cbn [negb].
    + rewrite truthy_strip, Hb. cbn [negb]. auto.
    + apply blank_not_truthy in Ht. congruence.
Qed.

End UtilsFacts.

(** ** The request of the word concatenation *)

Module WordsModelsFacts.

Import Words WordsModels Spec Props StringFacts WordsFacts.

Lemma words_loop_first_blank (v : list string) :
  forall i : nat,
    words_loop i v = match first_blank i v with
                     | Some j => inl (WordAtPositionEmpty j)
                     | None => inr tt
                     end.
Proof.
  induction v as [|w v IH]; intros i; cbn [words_loop first_blank]; [reflexivity|].
  rewrite empty_or_blank. destruct (blank w); [reflexivity|apply IH].
Qed.

Lemma first_blank_none (v : list string) :
  forall i : nat, first_blank i v = None <-> Forall (fun w => blank w = false) v.
Proof.
  induction v as [|w v IH]; intros i; cbn [first_blank].
  - split; [constructor|reflexivity].
  - destruct (blank w) eqn:Hb.
    + split; [discriminate|]. intros H. inversion H; congruence.
    + rewrite IH. split; [constructor; assumption|]. intros H. inversion H; assumption.
Qed.

Lemma first_blank_some (v : list string) :
  forall i j : nat,
    first_blank i v = Some j <->
    (i <= j)%nat
    /\ (exists w, v !! (j - i)%nat = Some w /\ blank w = true)
    /\ (forall k w, (k < j - i)%nat -> v !! k = Some w -> blank w = false).
Proof.
  induction v as [|w v IH]; intros i j; cbn [first_blank].
  - split; [discriminate|]. intros (_ & (w & Hw & _) & _). discriminate.
  - destruct (blank w) eqn:Hb.
    + split.
      * intros [= <-]. rewrite Nat.sub_diag. split; [lia|]. split.
        -- exists w. auto.
        -- intros k w' Hk. lia.
      * intros (Hij & (w' & Hw' & Hbw') & Hbefore).
        destruct (j - i)%nat as [|n] eqn:Hn; [f_equal; lia|].
        exfalso. specialize (Hbefore 0%nat w ltac:(lia) eq_refl). congruence.
    + rewrite IH. split.
      * intros (Hij & (w' & Hw' & Hbw') & Hbefore).
        replace (j - i)%nat with (S (j - S i)) by lia.
        split; [lia|]. split; [exists w'; auto|].
        intros [|k] w'' Hk Hl; [cbn in Hl; congruence|].
        apply (Hbefore k); [lia|exact Hl].
      * intros (Hij & (w' & Hw' & Hbw') & Hbefore).
        destruct (j - i)%nat as [|n] eqn:Hn; [cbn in Hw'; congruence|].
        replace (j - S i)%nat with n by lia.
        split; [lia|]. split; [exists w'; auto|].
        intros k w'' Hk Hl. apply (Hbefore (S k)); [lia|exact Hl].
Qed.

Lemma validate_words_first_blank (v : list string) :
  validate_words_not_empty v
  = match v with
    | [] => inl AtLeastOneWord
    | _ => match first_blank 0 v with
           | Some j => inl (WordAtPositionEmpty j)
           | None => inr (map PyStr.strip v)
           end
    end.
Proof.
  unfold validate_words_not_empty. rewrite words_loop_first_blank.
  destruct v; [reflexivity|]. destruct (first_blank _ _); reflexivity.
Qed.

Lemma Forall_strip (v : list string) :
  Forall (fun w => blank w = false) v ->
  Forall (fun w => blank w = false /\ PyStr.strip w = w) (map PyStr.strip v).
Proof.
  induction 1 as [|w v Hw _ IH]; cbn [map]; constructor; [|exact IH].
  rewrite blank_strip, DictionaryFacts.strip_idem. auto.
Qed.

Lemma map_strip_fixed (ws : list string) :
  Forall (fun w => blank w = false /\ PyStr.strip w = w) ws -> map PyStr.strip ws = ws.
Proof.
  induction 1 as [|w ws [_ Hw] _ IH]; cbn [map]; [reflexivity|]. congruence.
Qed.

(** X4: An accepted word list comes back trimmed word by word: as many words
    as were sent, none of them blank, none with white space around it; and
    the validator accepts its own result unchanged. *)
Theorem validate_words_accepts (v ws : list string) :
  validate_words_not_empty v = inr ws ->
  ws = map PyStr.strip v
  /\ length ws = length v
  /\ ws <> []
  /\ Forall (fun w => blank w = false /\ PyStr.strip w = w) ws
  /\ validate_words_not_empty ws = inr ws.
Proof.
  rewrite validate_words_first_blank.
  destruct v as [|w v]; [discriminate|].
  destruct (first_blank 0 (w :: v)) eqn:Hf; [discriminate|]. intros Hws.
  assert (Hws' : ws = map PyStr.strip (w :: v)) by congruence. clear Hws.
  apply first_blank_none in Hf. pose proof (Forall_strip _ Hf) as Hall.
  rewrite <- Hws' in Hall.
  split; [exact Hws'|]. split; [rewrite Hws'; apply length_map|].
  split; [rewrite Hws'; discriminate|]. split; [exact Hall|].
  rewrite validate_words_first_blank.
  assert (Hnone : first_blank 0 ws = None).
  { apply first_blank_none. eapply Forall_impl; [exact Hall|]. cbn. tauto. }
  rewrite Hnone, (map_strip_fixed _ Hall).
  destruct ws; [discriminate Hws'|reflexivity].
Qed.

Lemma validate_words_accepts_witness :
  validate_words_not_empty [" hello "; "world"] = inr ["hello"; "world"]
  /\ validate_words_not_empty ["hello"; "world"] = inr ["hello"; "world"].
Proof.
  split; [reflexivity|].
  exact (proj2 (proj2 (proj2 (proj2
    (validate_words_accepts [" hello "; "world"] ["hello"; "world"] eq_refl))))).
Defined.

(** X5: The validator rejects the empty list with "At least one word is
    required" and no other list with it; it rejects with "Word at position
    i" exactly when the word at position i is blank and no word before it
    is. *)
Theorem validate_words_rejects (v : list string) :
  (validate_words_not_empty v = inl AtLeastOneWord <-> v = [])
  /\ (forall i : nat,
        validate_words_not_empty v = inl (WordAtPositionEmpty i) <->
        (exists w, v !! i = Some w /\ blank w = true)
        /\ (forall k w, (k < i)%nat -> v !! k = Some w -> blank w = false)).
Proof.
  rewrite validate_words_first_blank. split.
  - destruct v as [|w v]; [tauto|].
    destruct (first_blank 0 (w :: v)); split; discriminate.
  - intros i. destruct v as [|w v].
    + split; [discriminate|]. intros [(w & Hw & _) _]. discriminate.
    + pose proof (first_blank_some (w :: v) 0 i) as Hs.
      rewrite Nat.sub_0_r in Hs.
      destruct (first_blank 0 (w :: v)) as [j|].
      * split.
        -- intros [= <-]. apply Hs. reflexivity.
        -- intros H. f_equal. f_equal.
           assert (Some j = Some i) as [= ->]; [|reflexivity].
           apply Hs. split; [lia|exact H].
      * split; [discriminate|]. intros H.
        assert (@None nat = Some i); [|discriminate].
        apply Hs. split; [lia|exact H].
Qed.

Lemma join_app (l1 l2 : list ascii) :
  PyStr.join (l1 ++ l2) = (PyStr.join l1 ++ PyStr.join l2)%string.
Proof.
  unfold PyStr.join. induction l1 as [|c l1 IH]; [reflexivity|].
  cbn [app string_of_list_ascii]. rewrite IH. reflexivity.
Qed.

Lemma join_length (l : list ascii) : String.length (PyStr.join l) = length l.
Proof.
  unfold PyStr.join. induction l as [|c l IH]; [reflexivity|].
  cbn [string_of_list_ascii String.length length]. rewrite IH. reflexivity.
Qed.

Lemma indexed_from_app (i : nat) (ws ws' : list string) :
  indexed_from i (ws ++ ws')
  = indexed_from i ws ++ indexed_from (i + length ws) ws'.
Proof.
  revert i. induction ws as [|w ws IH]; intros i.
  - cbn. rewrite Nat.add_0_r. reflexivity.
  - unfold indexed_from in *. cbn [app length seq combine].
    rewrite IH. cbn [length]. rewrite Nat.add_succ_r. reflexivity.
Qed.

(** What [concatenate_words] returns, field by field. *)
Lemma concatenate_words_fields (ws : list string) :
  concatenate_words ws
  = {| result_ := PyStr.join (flat_map own_char (indexed_from 0 ws));
       words := ws;
       characters_extracted := length (flat_map own_char (indexed_from 0 ws));
       characters_skipped :=
         length (List.filter (fun iw => negb (long_enough iw)) (indexed_from 0 ws)) |}.
Proof.
  unfold concatenate_words, _extract_characters_by_index.
  rewrite extract_loop_spec. reflexivity.
Qed.

(** X6: Words added at the end of the list leave the characters of the earlier
    words in place: the result for the longer list is the result for the
    shorter one followed by the characters of the added words (taken at
    their positions in the whole list), neither count goes down, and the
    result has as many characters as were extracted. *)
Theorem concatenate_words_app (ws ws' : list string) :
  let r := concatenate_words ws in
  let r' := concatenate_words (ws ++ ws') in
  let added := indexed_from (length ws) ws' in
  result_ r' = (result_ r ++ PyStr.join (flat_map own_char added))%string
  /\ characters_extracted r'
     = (characters_extracted r + length (List.filter long_enough added))%nat
  /\ characters_skipped r'
     = (characters_skipped r
        + length (List.filter (fun iw => negb (long_enough iw)) added))%nat
  /\ String.length (result_ r') = characters_extracted r'
  /\ words r' = ws ++ ws'.
Proof.
  cbv zeta. rewrite !concatenate_words_fields.
  cbn [result_ characters_extracted characters_skipped words].
  rewrite indexed_from_app, flat_map_app, List.filter_app, !length_app.
  cbn [Nat.add]. rewrite <- !own_chars_length.
  split; [apply join_app|]. split; [reflexivity|]. split; [reflexivity|].
  split; [rewrite join_length, length_app|]; reflexivity.
Qed.

Lemma skipped_none (l : list (nat * string)) :
  length (List.filter (fun iw => negb (long_enough iw)) l) = 0%nat
  <-> Forall (fun iw => long_enough iw = true) l.
Proof.
  induction l as [|iw l IH]; cbn [List.filter].
  - split; [constructor|reflexivity].
  - destruct (long_enough iw) eqn:Hl; cbn [negb length].
    + rewrite IH. split; [constructor; assumption|]. intros H. inversion H; assumption.
    + split; [discriminate|]. intros H. inversion H; congruence.
Qed.

Lemma indexed_from_lookup (ws : list string) :
  forall (start i : nat) (w : string),
    In (i, w) (indexed_from start ws)
    <-> (start <= i)%nat /\ ws !! (i - start)%nat = Some w.
Proof.
  unfold indexed_from.
  induction ws as [|a ws IH]; intros start i w; cbn [length seq combine In].
  - split; [tauto|]. intros [_ H]. discriminate.
  - rewrite IH. split.
    + intros [[= <- <-]|[Hle Hl]].
      * rewrite Nat.sub_diag. auto.
      * replace (i - start)%nat with (S (i - S start)) by lia. split; [lia|exact Hl].
    + intros [Hle Hl]. destruct (i - start)%nat as [|n] eqn:Hn.
      * left. cbn in Hl. injection Hl as ->. f_equal. lia.
      * right. replace (i - S start)%nat with n by lia. split; [lia|exact Hl].
Qed.

(** X7: No word is skipped exactly when every word is longer than its
    position in the list; the result then has one character per word. *)
Theorem concatenate_words_skips_none (ws : list string) :
  let r := concatenate_words ws in
  (characters_skipped r = 0%nat
   <-> forall (i : nat) (w : string), ws !! i = Some w -> (i < String.length w)%nat)
  /\ (characters_skipped r = 0%nat -> String.length (result_ r) = length ws).
Proof.
  cbv zeta. rewrite concatenate_words_fields.
  cbn [result_ characters_skipped]. rewrite skipped_none, join_length, own_chars_length.
  split.
  - rewrite List.Forall_forall. split.
    + intros H i w Hw. apply Nat.ltb_lt.
      apply (H (i, w)). apply indexed_from_lookup. rewrite Nat.sub_0_r. split; [lia|exact Hw].
    + intros H [i w] Hin. apply indexed_from_lookup in Hin.
      rewrite Nat.sub_0_r in Hin. apply Nat.ltb_lt. apply H, Hin.
  - intros H. apply skipped_none in H.
    pose proof (filter_split_length long_enough (indexed_from 0 ws)) as Hsum.
    rewrite H, Nat.add_0_r in Hsum. rewrite Hsum.
    unfold indexed_from. rewrite length_combine, length_seq. lia.
Qed.

(** X8: For a word list the request validator accepted, the first word always
    gives its first character: the result starts with it, at least one
    character is extracted and fewer words are skipped than there are. *)
Theorem concatenate_validated_words (v ws : list string) :
  validate_words_not_empty v = inr ws ->
  let r := concatenate_words ws in
  (exists (c : ascii) (w : string) (rest : list string) (tail : string),
     ws = String c w :: rest /\ result_ r = String c tail)
  /\ (1 <= characters_extracted r)%nat
  /\ (characters_skipped r < length ws)%nat.
Proof.
  intros Hv. rewrite validate_words_first_blank in Hv.
  destruct v as [|w0 v]; [discriminate|].
  destruct (first_blank 0 (w0 :: v)) eqn:Hf; [discriminate|]. injection Hv as <-.
  apply first_blank_none in Hf. inversion Hf as [|? ? Hw0 _]; subst.
  cbn [map]. destruct (PyStr.strip w0) as [|c w] eqn:Hs.
  { apply strip_blank in Hs. congruence. }
  cbv zeta. rewrite concatenate_words_fields.
  cbn [result_ characters_extracted characters_skipped].
  unfold indexed_from. cbn [length seq combine flat_map List.filter].
  change (own_char (0%nat, String c w)) with [c].
  change (long_enough (0%nat, String c w)) with true. cbn [negb app length].
  split; [|split].
  - exists c, w, (map PyStr.strip v), (PyStr.join (flat_map own_char
      (combine (seq 1 (length (map PyStr.strip v))) (map PyStr.strip v)))).
    split; reflexivity.
  - lia.
  - pose proof (filter_split_length long_enough
      (combine (seq 1 (length (map PyStr.strip v))) (map PyStr.strip v))) as Hsum.
    rewrite length_combine, length_seq in Hsum. lia.
Qed.

Lemma concatenate_validated_words_witness :
  validate_words_not_empty [" hello "; "hi"; "test"] = inr ["hello"; "hi"; "test"]
  /\ (1 <= characters_extracted (concatenate_words ["hello"; "hi"; "test"]))%nat
  /\ (characters_skipped (concatenate_words ["hello"; "hi"; "test"]) < 3)%nat.
Proof.
  split; [reflexivity|].
  exact (proj2 (concatenate_validated_words
                  [" hello "; "hi"; "test"] ["hello"; "hi"; "test"] eq_refl)).
Defined.

End WordsModelsFacts.
(** ** The dictionary service over any repository *)

Module DictionaryServiceFacts.

Import Dictionary DictionarySchemas Utils Props StringFacts.

Lemma validate_word_input_blank (w d : string) :
  _validate_word_input w d
  = if blank w then Raise (ValueError WordEmpty)
    else if blank d then Raise (ValueError DefinitionEmpty)
    else Ok tt.
Proof. unfold _validate_word_input. rewrite !empty_or_blank. reflexivity. Qed.

Lemma normalized_fixed (w : string) :
  blank w = false ->
  let nw := PyStr.lower (PyStr.strip w) in
  blank nw = false /\ PyStr.lower (PyStr.strip nw) = nw.
Proof.
  intros Hb nw. unfold nw. split.
  - rewrite blank_lower, blank_strip. exact Hb.
  - rewrite <- strip_lower, lower_idem, strip_lower, DictionaryFacts.strip_idem.
    reflexivity.
Qed.

Section AnyRepository.
Context {R : Type} `{IDictionaryRepository R}.

Lemma get_word_blank (repo : R) (w : string) :
  get_word repo w
  = if blank w then Raise (ValueError WordEmptyOrWhitespace)
    else match find_by_word repo (PyStr.lower (PyStr.strip w)) with
         | None => Raise (DictionaryWordNotFoundError (PyStr.lower (PyStr.strip w)))
         | Some entry => Ok entry
         end.
Proof. unfold get_word. rewrite empty_or_blank. reflexivity. Qed.

(** X9: The service works on normalize_string(word, to_lower=True), for every
    repository.  A word that normalize_string rejects is rejected by
    get_word and add_word with a ValueError, the repository untouched.
    Otherwise get_word answers by the repository entry of the normalized
    word, add_word rejects a blank definition, and both give the same
    answer for the word as for its normalized form (add_word with the
    definition trimmed): spellings that differ in case or in the white
    space around them are the same word. *)
Theorem dictionary_service_normalizes (repo : R) (w d : string) :
  match normalize_string w true with
  | inl _ =>
      get_word repo w = Raise (ValueError WordEmptyOrWhitespace)
      /\ add_word repo w d = (repo, Raise (ValueError WordEmpty))
  | inr nw =>
      nw = PyStr.lower (PyStr.strip w)
      /\ get_word repo w
         = match find_by_word repo nw with
           | None => Raise (DictionaryWordNotFoundError nw)
           | Some entry => Ok entry
           end
      /\ get_word repo w = get_word repo nw
      /\ add_word repo w d
         = (if blank d then (repo, Raise (ValueError DefinitionEmpty))
            else add_word repo nw (PyStr.strip d))
  end.
Proof.
  unfold normalize_string.
  pose proof (empty_or_blank w) as Hb.
  destruct (PyStr.truthy w) eqn:Ht; cbn [negb orb] in Hb |- *.
  2:{ rewrite get_word_blank. unfold add_word.
      rewrite validate_word_input_blank, <- Hb. auto. }
  rewrite Hb. destruct (blank w) eqn:Hbw.
  { rewrite get_word_blank. unfold add_word.
    rewrite validate_word_input_blank, Hbw. auto. }
  destruct (normalized_fixed w Hbw) as [Hbn Hfix].
  split; [reflexivity|]. split; [rewrite get_word_blank, Hbw; reflexivity|].
  split; [rewrite !get_word_blank, Hbw, Hbn, Hfix; reflexivity|].
  unfold add_word. rewrite !validate_word_input_blank, Hbw, Hbn.
  destruct (blank d) eqn:Hbd; [reflexivity|].
  rewrite blank_strip, Hbd, Hfix, DictionaryFacts.strip_idem. reflexivity.
Qed.

(** X10: Adding and looking up, for every repository that returns a committed
    entry when asked for its word: when the normalized word is absent and
    create and commit succeed, add_word returns the created entry; every
    spelling of the word then gets that entry from get_word, and adding
    any spelling again fails with AlreadyExistsError and leaves the
    repository as it is. *)
Theorem add_word_then_get_word (repo repo1 repo2 : R) (w d : string)
    (entry : DictionaryEntry) :
  blank w = false -> blank d = false ->
  let nw := PyStr.lower (PyStr.strip w) in
  find_by_word repo nw = None ->
  create repo nw (PyStr.strip d) = (repo1, Ok entry) ->
  commit repo1 = (repo2, Ok tt) ->
  find_by_word repo2 nw = Some entry ->
  add_word repo w d = (repo2, Ok entry)
  /\ (forall w' : string,
        PyStr.lower (PyStr.strip w') = nw ->
        get_word repo2 w' = Ok entry
        /\ forall d' : string,
             blank d' = false ->
             add_word repo2 w' d'
             = (repo2, Raise (DictionaryWordAlreadyExistsError nw))).
Proof.
  intros Hbw Hbd nw Hfree Hcreate Hcommit Hfound.
  split.
  - unfold add_word. rewrite validate_word_input_blank, Hbw, Hbd.
    fold nw. rewrite Hfree, Hcreate, Hcommit. reflexivity.
  - intros w' Hw'.
    assert (Hbw' : blank w' = false).
    { rewrite <- (blank_strip w'), <- blank_lower, Hw'.
      apply (normalized_fixed w Hbw). }
    split.
    + rewrite get_word_blank, Hbw', Hw', Hfound. reflexivity.
    + intros d' Hbd'. unfold add_word.
      rewrite validate_word_input_blank, Hbw', Hbd', Hw', Hfound. reflexivity.
Qed.

(** X11: A word that appears between the check and the write: when create, or
    commit after it, raises IntegrityError, add_word rolls the repository
    back and raises AlreadyExistsError for the normalized word; a
    ValueError of create is raised again after the rollback. *)
Theorem add_word_rolls_back (repo repo1 : R) (w d : string) :
  blank w = false -> blank d = false ->
  let nw := PyStr.lower (PyStr.strip w) in
  find_by_word repo nw = None ->
  (create repo nw (PyStr.strip d) = (repo1, Raise IntegrityError) ->
   add_word repo w d
   = (rollback repo1, Raise (DictionaryWordAlreadyExistsError nw)))
  /\ (forall msg : message,
        create repo nw (PyStr.strip d) = (repo1, Raise (ValueError msg)) ->
        add_word repo w d = (rollback repo1, Raise (ValueError msg)))
  /\ (forall (entry : DictionaryEntry) (repo2 : R),
        create repo nw (PyStr.strip d) = (repo1, Ok entry) ->
        commit repo1 = (repo2, Raise IntegrityError) ->
        add_word repo w d
        = (rollback repo2, Raise (DictionaryWordAlreadyExistsError nw))).
Proof.
  intros Hbw Hbd nw Hfree.
  assert (Hadd : add_word repo w d
                 = match create repo nw (PyStr.strip d) with
                   | (r1, Ok entry) =>
                       match commit r1 with
                       | (r2, Ok _) => (r2, Ok entry)
                       | (r2, Raise e) => add_word_except r2 nw e
                       end
                   | (r1, Raise e) => add_word_except r1 nw e
                   end).
  { unfold add_word. rewrite validate_word_input_blank, Hbw, Hbd.
    fold nw. rewrite Hfree. reflexivity. }
  rewrite Hadd. split; [|split].
  - intros ->. reflexivity.
  - intros msg ->. reflexivity.
  - intros entry repo2 -> ->. reflexivity.
Qed.

(** X12: The validators of the add request return the trimmed string and
    reject exactly the blank strings.  The word and the definition they
    return are accepted by the service and not changed any further (the
    word apart from its case): the service call on the validated values is
    the call on the raw ones. *)
Theorem schema_validated_input (repo : R) (v u : string) :
  match validate_word v, validate_definition u with
  | inr w, inr d =>
      w = PyStr.strip v /\ d = PyStr.strip u
      /\ blank v = false /\ blank u = false
      /\ clean w /\ clean d
      /\ _validate_word_input w d = Ok tt
      /\ PyStr.lower (PyStr.strip w) = PyStr.lower w
      /\ PyStr.strip d = d
      /\ add_word repo w d = add_word repo v u
  | inl e, _ => e = WordBlank /\ blank v = true
  | inr _, inl e => e = DefinitionBlank /\ blank u = true
  end.
Proof.
  unfold validate_word, validate_definition. rewrite !truthy_strip, !negb_involutive.
  destruct (blank v) eqn:Hv; [auto|]. destruct (blank u) eqn:Hu; [auto|].
  assert (Hcw : clean (PyStr.strip v))
    by (split; [rewrite blank_strip; exact Hv|apply DictionaryFacts.strip_idem]).
  assert (Hcd : clean (PyStr.strip u))
    by (split; [rewrite blank_strip; exact Hu|apply DictionaryFacts.strip_idem]).
  destruct Hcw as [Hbw Hsw]. destruct Hcd as [Hbd Hsd].
  split; [reflexivity|]. split; [reflexivity|].
  split; [reflexivity|]. split; [reflexivity|].
  split; [split; assumption|]. split; [split; assumption|].
  split; [rewrite validate_word_input_blank, Hbw, Hbd; reflexivity|].
  split; [rewrite Hsw; reflexivity|]. split; [exact Hsd|].
  unfold add_word. rewrite !validate_word_input_blank, Hbw, Hbd, Hv, Hu, Hsw, Hsd.
  reflexivity.
Qed.

End AnyRepository.

Lemma add_word_then_get_word_witness :
  let entry := {| word := "rocq"; definition := "A proof assistant" |} in
  exists st : store,
    add_word empty_store " Rocq " "A proof assistant " = (st, Ok entry)
    /\ get_word st "ROCQ" = Ok entry
    /\ add_word st "rocq" "again" = (st, Raise (DictionaryWordAlreadyExistsError "rocq")).
Proof.
  intros entry.
  set (st := {| committed := {[ "rocq" := entry ]}; pending := ∅ |}).
  assert (Hcommit : commit {| committed := ∅; pending := {[ "rocq" := entry ]} |}
                    = (st, Ok tt)).
  { cbn [commit store_repository]. unfold store_commit. cbn [pending committed].
    rewrite (right_id_L ∅ (∪)). reflexivity. }
  assert (Hfree : find_by_word empty_store (PyStr.lower (PyStr.strip " Rocq ")) = None)
    by (vm_compute; reflexivity).
  assert (Hcreate : create empty_store (PyStr.lower (PyStr.strip " Rocq "))
                      (PyStr.strip "A proof assistant ")
                    = ({| committed := ∅; pending := {[ "rocq" := entry ]} |}, Ok entry))
    by (vm_compute; reflexivity).
  assert (Hfound : find_by_word st (PyStr.lower (PyStr.strip " Rocq ")) = Some entry)
    by (vm_compute; reflexivity).
  destruct (add_word_then_get_word empty_store _ st " Rocq " "A proof assistant " entry
              eq_refl eq_refl Hfree Hcreate Hcommit Hfound) as [Hadd Hafter].
  destruct (Hafter "ROCQ" eq_refl) as [Hget _].
  destruct (Hafter "rocq" eq_refl) as [_ Hagain].
  exists st. split; [exact Hadd|]. split; [exact Hget|]. apply Hagain. reflexivity.
Defined.

Lemma add_word_rolls_back_witness :
  @add_word unit lost_race tt "Rocq" "A proof assistant"
  = (tt, Raise (DictionaryWordAlreadyExistsError "rocq")).
Proof.
  exact (proj1 (@add_word_rolls_back unit lost_race tt tt "Rocq" "A proof assistant"
                  eq_refl eq_refl eq_refl) eq_refl).
Defined.

End DictionaryServiceFacts.
(** ** The item list: validator, parser and their composition *)

Module ItemListFacts.

Import ShoppingModels ShoppingValidators Spec Props StringFacts ParseItemsFacts.

Lemma contains_In (c : ascii) (s : string) :
  PyStr.contains c s = true <-> In c (chars s).
Proof.
  unfold chars. induction s as [|a s IH]; cbn [PyStr.contains list_ascii_of_string In].
  - split; [discriminate|tauto].
  - rewrite orb_true_iff, IH, Ascii.eqb_eq. tauto.
Qed.

Lemma lstrip_chars (s : string) (a : ascii) :
  In a (chars (PyStr.lstrip s)) -> In a (chars s).
Proof.
  unfold chars. induction s as [|c s IH]; cbn [PyStr.lstrip]; [tauto|].
  destruct (PyStr.isspace c); [|tauto]. cbn [list_ascii_of_string In]. tauto.
Qed.

Lemma rstrip_chars (s : string) (a : ascii) :
  In a (chars (PyStr.rstrip s)) -> In a (chars s).
Proof.
  unfold chars. induction s as [|c s IH]; cbn [PyStr.rstrip]; [tauto|].
  destruct (PyStr.rstrip s) as [|b r].
  - destruct (PyStr.isspace c); cbn [list_ascii_of_string In]; tauto.
  - cbn [list_ascii_of_string In] in *. tauto.
Qed.

Lemma strip_chars (s : string) (a : ascii) :
  In a (chars (PyStr.strip s)) -> In a (chars s).
Proof. intros H. apply lstrip_chars, rstrip_chars, H. Qed.

Lemma split_at_nonempty (f : ascii -> bool) (s : string) : PyStr.split_at f s <> [].
Proof.
  destruct s as [|c s]; cbn [PyStr.split_at]; [discriminate|].
  destruct (f c); [discriminate|]. destruct (PyStr.split_at f s); discriminate.
Qed.

(** The pieces of a split are made of characters of the string, none of
    them a separator. *)
Lemma split_at_chars (f : ascii -> bool) (s : string) :
  Forall (fun p => forall a, In a (chars p) -> f a = false /\ In a (chars s))
    (PyStr.split_at f s).
Proof.
  unfold chars. induction s as [|c s IH]; cbn [PyStr.split_at].
  - constructor; [|constructor]. intros a [].
  - assert (Hrest : Forall (fun p => forall a, In a (list_ascii_of_string p) ->
                      f a = false /\ In a (list_ascii_of_string (String c s)))
                      (PyStr.split_at f s)).
    { eapply Forall_impl; [exact IH|]. cbn. intros p Hp a Ha.
      destruct (Hp a Ha). auto. }
    destruct (f c) eqn:Hc.
    + constructor; [intros a []|exact Hrest].
    + destruct (PyStr.split_at f s) as [|w ws].
      * constructor; [|constructor]. intros a [Ha|[]]. subst a. cbn. auto.
      * inversion Hrest as [|? ? Hw Hws]; subst. constructor; [|exact Hws].
        intros a [Ha|Ha]; [subst a; cbn; auto|apply Hw, Ha].
Qed.

(** All pieces are blank exactly when the string is made of separators
    and whitespace. *)
Lemma split_at_all_blank (f : ascii -> bool) (s : string) :
  Forall (fun p => blank p = true) (PyStr.split_at f s)
  <-> forallb (fun c => f c || PyStr.isspace c) (chars s) = true.
Proof.
  unfold blank, chars. induction s as [|c s IH]; cbn [PyStr.split_at list_ascii_of_string forallb].
  - split; [reflexivity|]. intros _. constructor; [reflexivity|constructor].
  - destruct (f c) eqn:Hc; cbn [orb andb].
    + rewrite <- IH. split; [intros H; inversion H; assumption|].
      intros H. constructor; [reflexivity|exact H].
    + pose proof (split_at_nonempty f s) as Hne.
      destruct (PyStr.split_at f s) as [|w ws]; [congruence|].
      rewrite andb_true_iff, <- IH. split.
      * intros H. inversion H as [|? ? Hw Hws]; subst.
        cbn [list_ascii_of_string forallb] in Hw. apply andb_true_iff in Hw.
        destruct Hw as [Hc' Hw]. split; [exact Hc'|]. constructor; assumption.
      * intros [Hc' H]. inversion H as [|? ? Hw Hws]; subst.
        constructor; [|exact Hws]. cbn [list_ascii_of_string forallb].
        rewrite Hc', Hw. reflexivity.
Qed.

Lemma tokens_nil (pieces : list string) :
  tokens pieces = [] <-> Forall (fun p => blank p = true) pieces.
Proof.
  unfold tokens. induction pieces as [|p pieces IH]; cbn [map List.filter].
  - split; [constructor|reflexivity].
  - rewrite truthy_strip. destruct (blank p) eqn:Hb; cbn [negb].
    + rewrite IH. split; [constructor; assumption|]. intros H. inversion H; assumption.
    + split; [discriminate|]. intros H. inversion H; congruence.
Qed.

Lemma tokens_In (pieces : list string) (x : string) :
  In x (tokens pieces) <-> exists p, In p pieces /\ x = PyStr.strip p /\ blank p = false.
Proof.
  unfold tokens. rewrite filter_In, in_map_iff. split.
  - intros [(p & <- & Hp) Ht]. exists p. rewrite truthy_strip in Ht.
    apply negb_true_iff in Ht. auto.
  - intros (p & Hp & -> & Hb). split; [exists p; auto|].
    rewrite truthy_strip, Hb. reflexivity.
Qed.

Lemma tokens_filter_truthy (pieces : list string) :
  tokens (List.filter PyStr.truthy pieces) = tokens pieces.
Proof.
  unfold tokens. induction pieces as [|p pieces IH]; cbn [map List.filter]; [reflexivity|].
  destruct p as [|c p]; cbn [PyStr.truthy]; [exact IH|].
  cbn [map List.filter]. rewrite IH. reflexivity.
Qed.

(** The parser in one equation: blank input, no token, or the tokens. *)
Lemma parse_items_tokens (input : string) :
  _parse_items input
  = if blank input then Raise (ValueError ItemsInputEmpty)
    else match tokens (item_pieces (PyStr.contains " ") (PyStr.strip input)) with
         | [] => Raise (ValueError NoItems)
         | l => Ok l
         end.
Proof.
  unfold _parse_items. rewrite truthy_strip, negb_involutive.
  destruct (blank input) eqn:Hb; [reflexivity|].
  set (s := PyStr.strip input).
  assert (Hitems :
    List.filter PyStr.truthy
      (if PyStr.contains "," s then stripped_nonempty (PyStr.split_char "," s)
       else if PyStr.contains newline s
       then stripped_nonempty (PyStr.split_char newline s)
       else if PyStr.contains " " s && (1 <? length (PyStr.split_ws s))%nat
       then stripped_nonempty (PyStr.split_ws s)
       else if PyStr.truthy (PyStr.strip s) then [PyStr.strip s] else [])
    = tokens (item_pieces (PyStr.contains " ") s)).
  { unfold item_pieces.
    destruct (PyStr.contains "," s);
      [rewrite stripped_nonempty_tokens; apply tokens_filtered|].
    destruct (PyStr.contains newline s);
      [rewrite stripped_nonempty_tokens; apply tokens_filtered|].
    destruct (PyStr.contains " " s && (1 <? length (PyStr.split_ws s))%nat);
      [rewrite stripped_nonempty_tokens; apply tokens_filtered|].
    unfold tokens. cbn [map List.filter].
    destruct (PyStr.truthy (PyStr.strip s)) eqn:Hs; cbn [List.filter];
      rewrite ?Hs; reflexivity. }
  rewrite Hitems. destruct (tokens _); reflexivity.
Qed.

Lemma clean_truthy (item : string) : clean item -> PyStr.truthy item = true.
Proof.
  intros [Hb Hs]. rewrite <- Hs, truthy_strip, Hb. reflexivity.
Qed.

Lemma trimmed_items_clean (l : list string) :
  Forall clean l -> trimmed_items l = l.
Proof.
  unfold trimmed_items. induction 1 as [|x l Hx _ IH]; cbn [map List.filter]; [reflexivity|].
  destruct Hx as [Hb Hs]. rewrite truthy_strip, Hb. cbn [negb]. rewrite Hs, IH. reflexivity.
Qed.

Lemma trimmed_items_all_clean (v : list string) : Forall clean (trimmed_items v).
Proof.
  apply List.Forall_forall. intros x Hx. apply (tokens_In v x) in Hx.
  destruct Hx as (p & _ & -> & Hb). split.
  - rewrite blank_strip. exact Hb.
  - apply DictionaryFacts.strip_idem.
Qed.

Lemma validate_items_trimmed (v : list string) :
  validate_items_not_empty v
  = match v with
    | [] => inl AtLeastOneItem
    | _ => match trimmed_items v with
           | [] => inl OnlyEmptyStrings
           | l => inr l
           end
    end.
Proof.
  unfold validate_items_not_empty, trimmed_items.
  destruct v as [|x v]; [reflexivity|].
  rewrite filter_map_commute.
  assert (Hf : forall l : list string,
            List.filter (fun item => PyStr.truthy item && PyStr.truthy (PyStr.strip item)) l
            = List.filter (fun item => PyStr.truthy (PyStr.strip item)) l).
  { intros l. apply filter_ext. intros item.
    destruct (PyStr.truthy (PyStr.strip item)) eqn:Ht; [|apply andb_false_r].
    rewrite (DictionaryFacts.strip_truthy_nonempty item Ht). reflexivity. }
  rewrite Hf. destruct (map PyStr.strip _); reflexivity.
Qed.

(** X13: validate_items_not_empty keeps the items that are not blank, trimmed
    and in their order, and accepts its own result unchanged; it rejects
    the empty list with one error and a list of blank items only with the
    other. *)
Theorem validate_items_keeps_trimmed (v : list string) :
  match validate_items_not_empty v with
  | inr l =>
      l = trimmed_items v /\ l <> [] /\ Forall clean l
      /\ validate_items_not_empty l = inr l
  | inl AtLeastOneItem => v = []
  | inl OnlyEmptyStrings => v <> [] /\ Forall (fun item => blank item = true) v
  | inl (NegativeCost _) => False
  end.
Proof.
  rewrite validate_items_trimmed. destruct v as [|x v]; [reflexivity|].
  pose proof (trimmed_items_all_clean (x :: v)) as Hclean.
  destruct (trimmed_items (x :: v)) as [|y l] eqn:Ht.
  - split; [discriminate|]. apply tokens_nil. exact Ht.
  - split; [reflexivity|]. split; [discriminate|]. split; [exact Hclean|].
    rewrite validate_items_trimmed, (trimmed_items_clean _ Hclean). reflexivity.
Qed.

Lemma forallb_lstrip (P : ascii -> bool) (s : string) :
  (forall c, PyStr.isspace c = true -> P c = true) ->
  forallb P (chars (PyStr.lstrip s)) = forallb P (chars s).
Proof.
  intros HP. unfold chars. induction s as [|c s IH]; cbn [PyStr.lstrip]; [reflexivity|].
  destruct (PyStr.isspace c) eqn:Hc; [|reflexivity].
  cbn [list_ascii_of_string forallb]. rewrite (HP c Hc). exact IH.
Qed.

Lemma forallb_rstrip (P : ascii -> bool) (s : string) :
  (forall c, PyStr.isspace c = true -> P c = true) ->
  forallb P (chars (PyStr.rstrip s)) = forallb P (chars s).
Proof.
  intros HP. unfold chars. induction s as [|c s IH]; cbn [PyStr.rstrip]; [reflexivity|].
  cbn [list_ascii_of_string forallb]. rewrite <- IH.
  destruct (PyStr.rstrip s) as [|b r]; [|reflexivity].
  destruct (PyStr.isspace c) eqn:Hc; cbn [list_ascii_of_string forallb].
  - rewrite (HP c Hc). reflexivity.
  - reflexivity.
Qed.

Lemma commas_and_space_strip (s : string) :
  commas_and_space (PyStr.strip s) = commas_and_space s.
Proof.
  unfold commas_and_space, PyStr.strip.
  rewrite forallb_rstrip, forallb_lstrip; [reflexivity| |];
    intros c ->; apply orb_true_r.
Qed.

Lemma forallb_pointwise {A : Type} (f g : A -> bool) (l : list A) :
  (forall x, f x = g x) -> forallb f l = forallb g l.
Proof.
  intros H. induction l as [|x l IH]; cbn [forallb]; [reflexivity|].
  rewrite H, IH. reflexivity.
Qed.

Lemma commas_and_space_pieces (s : string) :
  Forall (fun p => blank p = true) (PyStr.split_char "," s)
  <-> commas_and_space s = true.
Proof.
  unfold PyStr.split_char, commas_and_space. rewrite split_at_all_blank.
  assert (E : forallb (fun c => Ascii.eqb "," c || PyStr.isspace c) (chars s)
              = forallb (fun c => Ascii.eqb c "," || PyStr.isspace c) (chars s)).
  { apply forallb_pointwise. intros c. rewrite Ascii.eqb_sym. reflexivity. }
  rewrite E. tauto.
Qed.

Lemma separators_blank (f : ascii -> bool) (s : string) :
  (forall c, In c (chars s) -> f c = true -> PyStr.isspace c = true) ->
  forallb (fun c => f c || PyStr.isspace c) (chars s) = true -> blank s = true.
Proof.
  unfold blank. intros Hf H. rewrite forallb_forall in H |- *.
  intros c Hc. specialize (H c Hc). apply orb_true_iff in H.
  destruct H as [H|H]; [apply (Hf c Hc H)|exact H].
Qed.

(** Without a comma, a trimmed input that is not blank always gives a
    token. *)
Lemma tokens_without_comma (s : string) :
  PyStr.contains "," s = false ->
  tokens (item_pieces (PyStr.contains " ") s) = [] -> blank s = true.
Proof.
  intros Hcomma. unfold item_pieces. rewrite Hcomma.
  destruct (PyStr.contains newline s).
  - intros H. apply tokens_nil, split_at_all_blank in H.
    apply (separators_blank _ _) in H; [exact H|].
    intros c _ Hc. apply Ascii.eqb_eq in Hc. subst c. reflexivity.
  - destruct (PyStr.contains " " s && (1 <? length (PyStr.split_ws s))%nat).
    + unfold PyStr.split_ws. rewrite tokens_filter_truthy.
      intros H. apply tokens_nil, split_at_all_blank in H.
      apply (separators_blank _ _) in H; [exact H|]. auto.
    + intros H. apply tokens_nil in H. inversion H; assumption.
Qed.

(** X14: The parser rejects an input in two ways only: a blank input with
    "Items input cannot be empty", and an input of commas and whitespace
    (one comma at least) with "At least one item is required".  Every
    other input gives a list of items. *)
Theorem parse_items_errors (input : string) :
  (_parse_items input = Raise (ValueError ItemsInputEmpty) <-> blank input = true)
  /\ (_parse_items input = Raise (ValueError NoItems)
      <-> blank input = false /\ commas_and_space input = true)
  /\ (forall e : exn, _parse_items input = Raise e ->
        e = ValueError ItemsInputEmpty \/ e = ValueError NoItems).
Proof.
  rewrite parse_items_tokens.
  destruct (blank input) eqn:Hb.
  { split; [tauto|]. split; [|intros e [= <-]; auto].
    split; [discriminate|]. intros [H _]. discriminate. }
  assert (Hbs : blank (PyStr.strip input) = false) by (rewrite blank_strip; exact Hb).
  assert (Hnil : tokens (item_pieces (PyStr.contains " ") (PyStr.strip input)) = []
                 <-> commas_and_space input = true).
  { rewrite <- commas_and_space_strip. set (s := PyStr.strip input) in *.
    destruct (PyStr.contains "," s) eqn:Hcomma.
    - unfold item_pieces. rewrite Hcomma, tokens_nil. apply commas_and_space_pieces.
    - split.
      + intros H. apply (tokens_without_comma s Hcomma) in H. congruence.
      + intros H. exfalso.
        assert (blank s = true); [|congruence].
        apply (separators_blank (fun c => Ascii.eqb c ",")); [|exact H].
        intros c Hc Heq. apply Ascii.eqb_eq in Heq. subst c.
        apply contains_In in Hc. congruence. }
  destruct (tokens _) as [|t ts].
  - split; [split; discriminate|]. split; [|intros e [= <-]; auto].
    split; [intros _; split; [reflexivity|apply Hnil; reflexivity]|reflexivity].
  - split; [split; discriminate|]. split; [|discriminate].
    split; [discriminate|]. intros [_ H]. apply Hnil in H. discriminate.
Qed.

Lemma item_pieces_comma_free (s p : string) :
  In p (item_pieces (PyStr.contains " ") s) -> PyStr.contains "," p = false.
Proof.
  intros Hp. destruct (PyStr.contains "," p) eqn:Hc; [exfalso|reflexivity].
  apply contains_In in Hc. revert Hp. unfold item_pieces.
  destruct (PyStr.contains "," s) eqn:Hs.
  - intros Hp. pose proof (split_at_chars (Ascii.eqb ",") s) as Hall.
    rewrite List.Forall_forall in Hall. destruct (Hall p Hp ","%char Hc) as [Hf _].
    rewrite Ascii.eqb_refl in Hf. discriminate.
  - assert (Hsub : forall f, In p (PyStr.split_at f s) -> False).
    { intros f Hp. pose proof (split_at_chars f s) as Hall.
      rewrite List.Forall_forall in Hall. destruct (Hall p Hp ","%char Hc) as [_ Hin].
      apply contains_In in Hin. congruence. }
    destruct (PyStr.contains newline s); [apply Hsub|].
    destruct (PyStr.contains " " s && (1 <? length (PyStr.split_ws s))%nat).
    + unfold PyStr.split_ws. intros Hp. apply filter_In in Hp. apply (Hsub _ (proj1 Hp)).
    + intros [<-|[]]. apply contains_In in Hc. congruence.
Qed.

(** X15: Every list the parser returns is one the validator of the standard
    request accepts as it is: it is not empty and its items are not blank,
    carry no white space around them and contain no comma. *)
Theorem parse_items_passes_validation (input : string) (l : list string) :
  _parse_items input = Ok l ->
  l <> []
  /\ Forall (fun item => clean item /\ PyStr.contains "," item = false) l
  /\ validate_items_not_empty l = inr l.
Proof.
  rewrite parse_items_tokens. destruct (blank input); [discriminate|].
  destruct (tokens _) as [|t ts] eqn:Ht; [discriminate|]. intros [= <-].
  assert (Hall : Forall (fun item => clean item /\ PyStr.contains "," item = false)
                   (t :: ts)).
  { rewrite <- Ht. apply List.Forall_forall. intros x Hx.
    apply tokens_In in Hx. destruct Hx as (p & Hp & -> & Hb). split; [split|].
    - rewrite blank_strip. exact Hb.
    - apply DictionaryFacts.strip_idem.
    - apply item_pieces_comma_free in Hp.
      destruct (PyStr.contains "," (PyStr.strip p)) eqn:Hc; [|reflexivity].
      apply contains_In, strip_chars, contains_In in Hc. congruence. }
  split; [discriminate|]. split; [exact Hall|].
  assert (Hclean : Forall clean (t :: ts)).
  { eapply Forall_impl; [exact Hall|]. cbn. tauto. }
  rewrite validate_items_trimmed, (trimmed_items_clean _ Hclean). reflexivity.
Qed.

Lemma parse_items_passes_validation_witness :
  _parse_items "apple, banana ,apple" = Ok ["apple"; "banana"; "apple"]
  /\ validate_items_not_empty ["apple"; "banana"; "apple"]
     = inr ["apple"; "banana"; "apple"].
Proof.
  split; [reflexivity|].
  exact (proj2 (proj2 (parse_items_passes_validation
                         "apple, banana ,apple" ["apple"; "banana"; "apple"] eq_refl))).
Defined.

(** *** Reading back a comma-separated list *)

Lemma chars_app (x y : string) : chars (x ++ y) = chars x ++ chars y.
Proof.
  unfold chars. induction x as [|c x IH]; [reflexivity|].
  change (c :: list_ascii_of_string (x ++ y)
          = c :: (list_ascii_of_string x ++ list_ascii_of_string y)).
  rewrite IH. reflexivity.
Qed.

Lemma append_assoc (x y z : string) : (x ++ (y ++ z) = (x ++ y) ++ z)%string.
Proof.
  induction x as [|c x IH]; [reflexivity|].
  change (String c (x ++ (y ++ z)) = String c ((x ++ y) ++ z))%string.
  rewrite IH. reflexivity.
Qed.

Lemma append_nonempty (x y : string) : y <> "" -> (x ++ y)%string <> "".
Proof. destruct x; [tauto|discriminate]. Qed.

Lemma rstrip_app (x y : string) :
  PyStr.rstrip y = y -> y <> "" -> PyStr.rstrip (x ++ y) = (x ++ y)%string.
Proof.
  intros Hy Hne. induction x as [|c x IH]; [exact Hy|].
  change (PyStr.rstrip (String c (x ++ y)) = String c (x ++ y)).
  cbn [PyStr.rstrip]. rewrite IH.
  pose proof (append_nonempty x y Hne) as Hxy.
  destruct (x ++ y)%string; [congruence|reflexivity].
Qed.

Lemma lstrip_app_blank (pad x : string) :
  blank pad = true -> PyStr.lstrip (pad ++ x) = PyStr.lstrip x.
Proof.
  unfold blank, chars. induction pad as [|c pad IH]; [reflexivity|].
  cbn [list_ascii_of_string forallb]. intros H. apply andb_true_iff in H.
  destruct H as [Hc Hpad].
  change (PyStr.lstrip (String c (pad ++ x)) = PyStr.lstrip x).
  cbn [PyStr.lstrip]. rewrite Hc. apply IH, Hpad.
Qed.

Lemma clean_head (item : string) :
  clean item -> exists c t, item = String c t /\ PyStr.isspace c = false.
Proof.
  intros [Hb Hs]. unfold PyStr.strip in Hs.
  pose proof (DictionaryFacts.lstrip_head item) as Hh.
  destruct (PyStr.lstrip item) as [|c t].
  - cbn in Hs. subst item. discriminate.
  - destruct (DictionaryFacts.rstrip_head c t Hh) as [r Hr].
    exists c, r. split; [congruence|exact Hh].
Qed.

Lemma clean_rstrip (item : string) : clean item -> PyStr.rstrip item = item.
Proof.
  intros Hc. destruct (clean_head item Hc) as (c & t & -> & Hsp).
  destruct Hc as [_ Hs]. unfold PyStr.strip in Hs. cbn [PyStr.lstrip] in Hs.
  rewrite Hsp in Hs. exact Hs.
Qed.

Lemma strip_padded (pad item : string) :
  blank pad = true -> clean item -> PyStr.strip (pad ++ item) = item.
Proof.
  intros Hpad Hc. unfold PyStr.strip. rewrite (lstrip_app_blank _ _ Hpad).
  destruct (clean_head item Hc) as (c & t & -> & Hsp).
  cbn [PyStr.lstrip]. rewrite Hsp. apply clean_rstrip, Hc.
Qed.

Lemma split_at_none (f : ascii -> bool) (x : string) :
  (forall a, In a (chars x) -> f a = false) -> PyStr.split_at f x = [x].
Proof.
  unfold chars. induction x as [|c x IH]; intros H; cbn [PyStr.split_at]; [reflexivity|].
  rewrite (H c) by (left; reflexivity).
  rewrite IH by (intros a Ha; apply H; right; exact Ha). reflexivity.
Qed.

Lemma split_at_app (f : ascii -> bool) (x : string) (c : ascii) (y : string) :
  (forall a, In a (chars x) -> f a = false) -> f c = true ->
  PyStr.split_at f (x ++ String c y) = x :: PyStr.split_at f y.
Proof.
  unfold chars. intros Hx Hc. induction x as [|a x IH].
  - change (PyStr.split_at f (String c y) = "" :: PyStr.split_at f y).
    cbn [PyStr.split_at]. rewrite Hc. reflexivity.
  - change (PyStr.split_at f (String a (x ++ String c y))
            = String a x :: PyStr.split_at f y).
    cbn [PyStr.split_at]. rewrite (Hx a) by (left; reflexivity).
    rewrite IH by (intros b Hb; apply Hx; right; exact Hb). reflexivity.
Qed.

Lemma comma_free_chars (x : string) :
  PyStr.contains "," x = false ->
  forall a, In a (chars x) -> Ascii.eqb "," a = false.
Proof.
  intros Hx a Ha. apply Ascii.eqb_neq. intros <-.
  apply contains_In in Ha. congruence.
Qed.

Lemma blank_comma_free (pad : string) :
  blank pad = true -> PyStr.contains "," pad = false.
Proof.
  intros Hb. destruct (PyStr.contains "," pad) eqn:Hc; [|reflexivity].
  apply contains_In in Hc. unfold blank in Hb. rewrite forallb_forall in Hb.
  discriminate (Hb _ Hc).
Qed.

Lemma contains_app (c : ascii) (x y : string) :
  PyStr.contains c (x ++ y) = PyStr.contains c x || PyStr.contains c y.
Proof.
  induction x as [|a x IH]; [reflexivity|].
  change (PyStr.contains c (String a (x ++ y))
          = PyStr.contains c (String a x) || PyStr.contains c y).
  cbn [PyStr.contains]. rewrite IH, orb_assoc. reflexivity.
Qed.

(** The pieces of a comma-joined list: the first item, and the others
    behind the padding. *)
Lemma split_joined (pad : string) (items : list string) :
  PyStr.contains "," pad = false ->
  Forall (fun item => PyStr.contains "," item = false) items ->
  forall (pre x : string),
    PyStr.contains "," pre = false -> PyStr.contains "," x = false ->
    PyStr.split_char "," (pre ++ join_with (String "," pad) (x :: items))
    = (pre ++ x)%string :: map (fun item => (pad ++ item)%string) items.
Proof.
  intros Hpad. unfold PyStr.split_char.
  induction 1 as [|y items Hy _ IH]; intros pre x Hpre Hx.
  - cbn [join_with map]. apply split_at_none, comma_free_chars.
    rewrite contains_app, Hpre, Hx. reflexivity.
  - change (join_with (String "," pad) (x :: y :: items))
      with (x ++ String "," (pad ++ join_with (String "," pad) (y :: items)))%string.
    rewrite append_assoc, split_at_app.
    + rewrite (IH pad y Hpad Hy). reflexivity.
    + apply comma_free_chars. rewrite contains_app, Hpre, Hx. reflexivity.
    + reflexivity.
Qed.

Lemma joined_rstrip (sep : string) (items : list string) :
  Forall clean items -> items <> [] ->
  PyStr.rstrip (join_with sep items) = join_with sep items
  /\ join_with sep items <> "".
Proof.
  induction 1 as [|x items Hx Hitems IH]; [congruence|]. intros _.
  destruct items as [|y items].
  - cbn [join_with]. split; [apply clean_rstrip, Hx|].
    destruct (clean_head x Hx) as (c & t & -> & _). discriminate.
  - destruct (IH ltac:(discriminate)) as [Hr Hne].
    change (join_with sep (x :: y :: items))
      with (x ++ (sep ++ join_with sep (y :: items)))%string.
    assert (Hr' : PyStr.rstrip (sep ++ join_with sep (y :: items))
                  = (sep ++ join_with sep (y :: items))%string)
      by (apply rstrip_app; assumption).
    pose proof (append_nonempty sep _ Hne) as Hne'.
    split; [apply rstrip_app; assumption|apply append_nonempty, Hne'].
Qed.

Lemma joined_head (sep : string) (x : string) (items : list string) :
  clean x ->
  exists c t, join_with sep (x :: items) = String c t /\ PyStr.isspace c = false.
Proof.
  intros Hx. destruct (clean_head x Hx) as (c & t & -> & Hsp).
  destruct items as [|y items]; [exists c, t; auto|].
  exists c, (t ++ sep ++ join_with sep (y :: items))%string. auto.
Qed.

Lemma tokens_cons_clean (x : string) (l : list string) :
  clean x -> tokens (x :: l) = x :: tokens l.
Proof.
  intros Hx. unfold tokens. cbn [map List.filter].
  destruct Hx as [Hb Hs]. rewrite truthy_strip, Hb, Hs. reflexivity.
Qed.

Lemma tokens_padded (pad : string) (items : list string) :
  blank pad = true -> Forall clean items ->
  tokens (map (fun item => (pad ++ item)%string) items) = items.
Proof.
  intros Hpad. unfold tokens.
  induction 1 as [|x items Hx _ IH]; cbn [map List.filter]; [reflexivity|].
  rewrite (strip_padded pad x Hpad Hx), (clean_truthy x Hx), IH. reflexivity.
Qed.

(** X16: Round trip: a list of two or more items, none blank, none with white
    space around it or a comma in it, joined by commas (each comma followed
    by any amount of white space), is parsed back to the same list. *)
Theorem parse_items_of_comma_joined (pad : string) (items : list string) :
  blank pad = true ->
  (2 <= length items)%nat ->
  Forall (fun item => clean item /\ PyStr.contains "," item = false) items ->
  _parse_items (join_with (String "," pad) items) = Ok items.
Proof.
  intros Hpad Hlen Hall.
  destruct items as [|x [|y items]]; cbn [length] in Hlen; try lia.
  assert (Hclean : Forall clean (x :: y :: items))
    by (eapply Forall_impl; [exact Hall|]; cbn; tauto).
  assert (Hfree : Forall (fun item => PyStr.contains "," item = false) (x :: y :: items))
    by (eapply Forall_impl; [exact Hall|]; cbn; tauto).
  set (text := join_with (String "," pad) (x :: y :: items)).
  inversion Hclean as [|? ? Hx Hrest]; subst.
  inversion Hfree as [|? ? Hfx Hfrest]; subst.
  destruct (joined_head (String "," pad) x (y :: items) Hx) as (c & t & Htext & Hsp).
  destruct (joined_rstrip (String "," pad) (x :: y :: items) Hclean ltac:(discriminate))
    as [Hr _].
  fold text in Htext, Hr.
  assert (Hstrip : PyStr.strip text = text).
  { unfold PyStr.strip. rewrite Htext. cbn [PyStr.lstrip]. rewrite Hsp, <- Htext. exact Hr. }
  assert (Hb : blank text = false).
  { rewrite Htext. unfold blank, chars. cbn [list_ascii_of_string forallb].
    rewrite Hsp. reflexivity. }
  assert (Hcomma : PyStr.contains "," text = true).
  { unfold text.
    change (join_with (String "," pad) (x :: y :: items))
      with (x ++ String "," (pad ++ join_with (String "," pad) (y :: items)))%string.
    rewrite contains_app. cbn [PyStr.contains]. rewrite Ascii.eqb_refl.
    apply orb_true_r. }
  rewrite parse_items_tokens, Hb, Hstrip. unfold item_pieces. rewrite Hcomma.
  pose proof (split_joined pad (y :: items) (blank_comma_free pad Hpad) Hfrest
                "" x eq_refl Hfx) as Hsplit.
  change ("" ++ join_with (String "," pad) (x :: y :: items))%string with text in Hsplit.
  change ("" ++ x)%string with x in Hsplit.
  rewrite Hsplit, (tokens_cons_clean x _ Hx).
  rewrite (tokens_padded pad (y :: items) Hpad Hrest). reflexivity.
Qed.

Lemma parse_items_of_comma_joined_witness :
  _parse_items "apple, banana, apple" = Ok ["apple"; "banana"; "apple"].
Proof.
  refine (parse_items_of_comma_joined " " ["apple"; "banana"; "apple"] eq_refl _ _).
  - cbn. lia.
  - repeat constructor.
Defined.

End ItemListFacts.
(** ** The amounts of the cart calculator *)

Module AmountFacts.

Import PyFloat Decimal ShoppingService Spec Props StringFacts ItemsFacts ItemListFacts.

(** *** Signs *)

Lemma binary_round_aux_not_negative (m e : Z) (l : location) :
  not_negative (binary_round_aux prec emax false m e l) = true.
Proof.
  unfold binary_round_aux.
  destruct (shr_fexp prec emax m e l) as [mrs' e'].
  destruct (shr_fexp prec emax _ e' loc_Exact) as [mrs'' e''].
  destruct (shr_m mrs''); [reflexivity| |reflexivity].
  destruct (e'' <=? emax - prec); reflexivity.
Qed.

Lemma of_ratio_not_negative (n : Z) (d : positive) :
  not_negative (of_ratio false n d) = true.
Proof.
  unfold of_ratio. destruct n; try reflexivity.
  destruct (SFdiv_core_binary prec emax (Z.pos p) 0 (Z.pos d) 0) as [[mz ez] lz].
  apply binary_round_aux_not_negative.
Qed.

Lemma of_decimal_not_negative (c e : Z) : not_negative (of_decimal false c e) = true.
Proof. unfold of_decimal. destruct (0 <=? e); apply of_ratio_not_negative. Qed.

Lemma fadd_not_negative (x y : float) :
  not_negative x = true -> not_negative y = true -> not_negative (fadd x y) = true.
Proof.
  destruct x as [sx|sx| |sx mx ex], y as [sy|sy| |sy my ey];
    try destruct sx; try destruct sy; try discriminate; try reflexivity.
  intros _ _. unfold fadd. cbn [SFadd cond_Zopp].
  set (a := fst (shl_align mx ex (Z.min ex ey))).
  set (b := fst (shl_align my ey (Z.min ex ey))).
  change (Z.pos a + Z.pos b) with (Z.pos (a + b)). cbn [binary_normalize].
  unfold binary_round. destruct (shl_align (a + b) _ _) as [mz ez].
  apply binary_round_aux_not_negative.
Qed.

Lemma fmul_not_negative (x y : float) :
  not_negative x = true -> not_negative y = true -> not_negative (fmul x y) = true.
Proof.
  destruct x as [sx|sx| |sx mx ex], y as [sy|sy| |sy my ey];
    try destruct sx; try destruct sy; try discriminate; try reflexivity.
  intros _ _. unfold fmul. cbn [SFmul xorb]. apply binary_round_aux_not_negative.
Qed.

(** *** Rounding *)

Lemma rounded_raises (x : float) (e : exn) : rounded x = Raise e -> e = InvalidOperation.
Proof.
  unfold rounded. destruct (of_float_str x) as [s c p|s|]; cbn [quantize_cents].
  - destruct (context_prec <? digits10 _); [congruence|discriminate].
  - congruence.
  - discriminate.
Qed.

Lemma round_raises (x : float) (e : exn) :
  _round_to_decimal_places x = Raise e -> e = InvalidOperation.
Proof.
  unfold _round_to_decimal_places. destruct (rounded x) as [r|e'] eqn:Hr.
  - discriminate.
  - cbn. intros [= <-]. apply (rounded_raises x), Hr.
Qed.

Lemma round_zero (s : bool) : _round_to_decimal_places (S754_zero s) = Ok (S754_zero s).
Proof. destruct s; reflexivity. Qed.

Lemma round_not_negative (x y : float) :
  _round_to_decimal_places x = Ok y -> not_negative x = true -> not_negative y = true.
Proof.
  destruct x as [s|s| |s m e].
  - rewrite round_zero. intros [= <-] _. destruct s; reflexivity.
  - discriminate.
  - intros [= <-] _. reflexivity.
  - intros Hr Hx. destruct s; [discriminate|].
    unfold _round_to_decimal_places, rounded in Hr. cbn [of_float_str] in Hr.
    destruct (shortest m e) as [c p]. cbn [quantize_cents] in Hr.
    destruct (context_prec <? digits10 _); [discriminate|].
    unfold mbind, result_bind in Hr. cbn [to_float] in Hr.
    injection Hr as <-. apply of_decimal_not_negative.
Qed.

Lemma binary_round_aux_neg (s : bool) (m e : Z) (l : location) :
  binary_round_aux prec emax (negb s) m e l = fneg (binary_round_aux prec emax s m e l).
Proof.
  unfold binary_round_aux.
  destruct (shr_fexp prec emax m e l) as [mrs' e'].
  destruct (shr_fexp prec emax _ e' loc_Exact) as [mrs'' e''].
  destruct (shr_m mrs''); [reflexivity| |reflexivity].
  destruct (e'' <=? emax - prec); reflexivity.
Qed.

Lemma of_decimal_neg (s : bool) (c e : Z) :
  of_decimal (negb s) c e = fneg (of_decimal s c e).
Proof.
  assert (Hr : forall n d, of_ratio (negb s) n d = fneg (of_ratio s n d)).
  { intros n d. unfold of_ratio. destruct n; try reflexivity.
    destruct (SFdiv_core_binary prec emax (Z.pos p) 0 (Z.pos d) 0) as [[mz ez] lz].
    apply binary_round_aux_neg. }
  unfold of_decimal. destruct (0 <=? e); apply Hr.
Qed.

(** X17: The rounding treats the two signs alike: rounding -x gives the
    negated result of rounding x (so a half rounds away from zero on both
    sides), and fails when rounding x fails. *)
Theorem round_to_decimal_places_of_negation (x : float) :
  _round_to_decimal_places (fneg x)
  = match _round_to_decimal_places x with
    | Ok y => Ok (fneg y)
    | Raise e => Raise e
    end.
Proof.
  destruct x as [s|s| |s m e]; try (destruct s; reflexivity); [reflexivity|].
  unfold _round_to_decimal_places, rounded. cbn [fneg SFopp of_float_str].
  destruct (shortest m e) as [c p]. cbn [quantize_cents].
  destruct (context_prec <? digits10 _); [reflexivity|].
  unfold mbind, result_bind. cbn [to_float]. rewrite of_decimal_neg. reflexivity.
Qed.

(** *** The subtotal *)

Lemma omap_cons {A B : Type} (f : A -> option B) (x : A) (l : list A) :
  omap f (x :: l) = match f x with
                    | Some y => y :: omap f l
                    | None => omap f l
                    end.
Proof. reflexivity. Qed.

Lemma subtotal_loop_sum (costs : gmap string float) (items : list string) :
  forall (sub : float) (found missing : list string),
    (subtotal_loop costs items sub found missing).1.1
    = fold_left fadd (prices_of costs items) sub.
Proof.
  unfold prices_of, trimmed_items.
  induction items as [|item items IH]; intros sub found missing; [reflexivity|].
  cbn [subtotal_loop]. rewrite strip_empty_guard. cbn [map List.filter].
  destruct (PyStr.truthy (PyStr.strip item)); cbn [negb]; [|apply IH].
  rewrite omap_cons. destruct (costs !! PyStr.strip item) as [c|]; rewrite IH; reflexivity.
Qed.

Lemma prices_found (costs : gmap string float) (l : list string) :
  length (omap (fun item => costs !! item) l) = length (List.filter (priced costs) l).
Proof.
  induction l as [|x l IH]; [reflexivity|].
  rewrite omap_cons. cbn [List.filter]. unfold priced at 1.
  destruct (costs !! x); cbn [length]; rewrite IH; reflexivity.
Qed.

(** X18: The raw subtotal is the float sum, taken from 0.0 and from left to
    right, of the prices of the requested items that have a price: an item
    requested twice is counted twice, the items without a price and the
    blank ones add nothing; with no priced item the subtotal is 0.0. *)
Theorem calculate_subtotal_sums_prices (items : list string) (costs : gmap string float) :
  let '(raw_subtotal, items_found, items_not_found) := _calculate_subtotal items costs in
  raw_subtotal = fold_left fadd (prices_of costs items) zero
  /\ length (prices_of costs items) = length items_found
  /\ (items_found = [] -> raw_subtotal = zero).
Proof.
  unfold _calculate_subtotal.
  pose proof (subtotal_loop_sum costs items zero [] []) as Hsum.
  pose proof (subtotal_loop_items costs items zero [] []) as Hitems.
  destruct (subtotal_loop costs items zero [] []) as [[sub found] missing].
  cbn [fst] in Hsum. destruct Hitems as [Hf _]. cbn [app] in Hf.
  assert (Hlen : length (prices_of costs items) = length found).
  { rewrite Hf. apply prices_found. }
  split; [exact Hsum|]. split; [exact Hlen|].
  intros ->. rewrite Hsum. destruct (prices_of costs items); [reflexivity|discriminate].
Qed.

Lemma fold_fadd_not_negative (prices : list float) :
  Forall (fun c => not_negative c = true) prices ->
  forall sub : float, not_negative sub = true ->
    not_negative (fold_left fadd prices sub) = true.
Proof.
  induction 1 as [|c prices Hc _ IH]; intros sub Hsub; [exact Hsub|].
  cbn [fold_left]. apply IH, fadd_not_negative; assumption.
Qed.

Lemma prices_of_Forall (P : float -> Prop) (costs : gmap string float)
    (items : list string) :
  map_Forall (fun _ c => P c) costs -> Forall P (prices_of costs items).
Proof.
  intros Hcosts. unfold prices_of.
  induction (trimmed_items items) as [|x l IH]; [constructor|].
  rewrite omap_cons. destruct (costs !! x) as [c|] eqn:Hc; [|exact IH].
  constructor; [exact (Hcosts x c Hc)|exact IH].
Qed.

(** What a successful call returns in its three amounts. *)
Lemma calculate_total_amounts (request : ShoppingTotalRequest)
    (resp : ShoppingTotalResponse) :
  calculate_total request = Ok resp ->
  let raw_subtotal := fold_left fadd (prices_of (costs request) (items request)) zero in
  let raw_tax := fmul raw_subtotal (tax request) in
  _round_to_decimal_places raw_subtotal = Ok (subtotal resp)
  /\ _round_to_decimal_places raw_tax = Ok (tax_amount resp)
  /\ _round_to_decimal_places (fadd raw_subtotal raw_tax) = Ok (total resp).
Proof.
  unfold calculate_total, _calculate_subtotal.
  pose proof (subtotal_loop_sum (costs request) (items request) zero [] []) as Hsum.
  destruct (subtotal_loop _ _ _ _ _) as [[sub found] missing]. cbn [fst] in Hsum.
  subst sub. unfold _calculate_tax_and_total. cbv zeta.
  destruct (_round_to_decimal_places (fold_left _ _ _)) as [rs|]; [|discriminate].
  destruct (_round_to_decimal_places (fmul _ _)) as [rt|]; [|discriminate].
  destruct (_round_to_decimal_places (fadd _ _)) as [rT|]; [|discriminate].
  cbn. intros [= <-]. cbn. auto.
Qed.

(** X19: With costs and a tax rate that are not below zero (what the request
    validation lets through), no amount of a response is below zero. *)
Theorem calculate_total_never_negative (request : ShoppingTotalRequest)
    (resp : ShoppingTotalResponse) :
  map_Forall (fun _ c => not_negative c = true) (costs request) ->
  not_negative (tax request) = true ->
  calculate_total request = Ok resp ->
  not_negative (subtotal resp) = true
  /\ not_negative (tax_amount resp) = true
  /\ not_negative (total resp) = true.
Proof.
  intros Hcosts Htax Hcall.
  destruct (calculate_total_amounts request resp Hcall) as (Hs & Ht & HT).
  assert (Hsub : not_negative
            (fold_left fadd (prices_of (costs request) (items request)) zero) = true).
  { apply fold_fadd_not_negative; [|reflexivity].
    apply (prices_of_Forall (fun c => not_negative c = true)), Hcosts. }
  pose proof (fmul_not_negative _ _ Hsub Htax) as Hraw_tax.
  pose proof (fadd_not_negative _ _ Hsub Hraw_tax) as Hraw_total.
  split; [|split]; eapply round_not_negative; eassumption.
Qed.

Lemma calculate_total_never_negative_witness :
  exists resp : ShoppingTotalResponse,
    calculate_total example_cart = Ok resp
    /\ not_negative (subtotal resp) = true
    /\ not_negative (tax_amount resp) = true
    /\ not_negative (total resp) = true.
Proof.
  eexists. split; [vm_compute; reflexivity|].
  refine (calculate_total_never_negative example_cart _ _ _ _).
  - intros k c Hk. unfold example_cart in Hk. cbn [costs] in Hk.
    apply lookup_insert_Some in Hk. destruct Hk as [[_ <-]|[_ Hk]]; [reflexivity|].
    apply lookup_insert_Some in Hk. destruct Hk as [[_ <-]|[_ Hk]]; [reflexivity|].
    rewrite lookup_empty in Hk. discriminate.
  - reflexivity.
  - vm_compute. reflexivity.
Defined.

(** X20: The only exception calculate_total raises is decimal.InvalidOperation
    (never a ValueError), and it raises it whenever the raw subtotal is an
    infinity, as it is when the one priced item has the price "inf". *)
Theorem calculate_total_raises_invalid_operation (request : ShoppingTotalRequest) :
  (forall e : exn, calculate_total request = Raise e -> e = InvalidOperation)
  /\ (forall s : bool,
        fold_left fadd (prices_of (costs request) (items request)) zero
        = S754_infinity s ->
        calculate_total request = Raise InvalidOperation)
  /\ (forall (item : string) (s : bool),
        clean item ->
        costs request !! item = Some (S754_infinity s) ->
        items request = [item] ->
        calculate_total request = Raise InvalidOperation).
Proof.
  assert (Hinf : forall s : bool,
            fold_left fadd (prices_of (costs request) (items request)) zero
            = S754_infinity s ->
            calculate_total request = Raise InvalidOperation).
  { intros s Hs. unfold calculate_total, _calculate_subtotal.
    pose proof (subtotal_loop_sum (costs request) (items request) zero [] []) as Hsum.
    destruct (subtotal_loop _ _ _ _ _) as [[sub found] missing]. cbn [fst] in Hsum.
    subst sub. rewrite Hs. reflexivity. }
  split; [|split; [exact Hinf|]].
  - intros e. unfold calculate_total.
    destruct (_calculate_subtotal _ _) as [[sub found] missing].
    destruct (_calculate_tax_and_total sub (tax request)) as [t T].
    destruct (_round_to_decimal_places sub) eqn:Hs;
      [|cbn; intros [= <-]; apply (round_raises sub), Hs].
    destruct (_round_to_decimal_places t) eqn:Ht;
      [|cbn; intros [= <-]; apply (round_raises t), Ht].
    destruct (_round_to_decimal_places T) eqn:HT;
      [|cbn; intros [= <-]; apply (round_raises T), HT].
    discriminate.
  - intros item s [Hb Hs] Hprice Hitems. apply (Hinf s).
    unfold prices_of, trimmed_items. rewrite Hitems. cbn [map List.filter].
    rewrite truthy_strip, Hb, Hs. cbn [negb]. rewrite omap_cons. cbv beta.
    assert (Hp : @lookup string float _ _ item (costs request)
                 = Some (S754_infinity s)) by exact Hprice.
    rewrite Hp. reflexivity.
Qed.

Lemma calculate_total_raises_invalid_operation_witness :
  calculate_total {| costs := {[ "a" := S754_infinity false ]};
                     items := ["a"];
                     tax := zero |}
  = Raise InvalidOperation.
Proof.
  refine (proj2 (proj2 (calculate_total_raises_invalid_operation _))
            "a" false _ _ _).
  - split; reflexivity.
  - apply lookup_singleton_eq.
  - reflexivity.
Defined.

Lemma filter_none_priced (costs : gmap string float) (l : list string) :
  (forall item : string, In item l -> costs !! item = None) ->
  List.filter (priced costs) l = []
  /\ List.filter (fun i => negb (priced costs i)) l = l.
Proof.
  induction l as [|x l IH]; intros Hnone; [auto|].
  destruct IH as [IH1 IH2]; [intros item Hi; apply Hnone; right; exact Hi|].
  assert (Hp : priced costs x = false)
    by (unfold priced; rewrite (Hnone x) by (left; reflexivity); reflexivity).
  cbn [List.filter]. rewrite Hp. cbn [negb]. rewrite IH1, IH2. auto.
Qed.

(** X21: When none of the requested items has a price, the call succeeds with
    subtotal 0.0, total 0.0 and a zero tax amount, whatever the finite tax
    rate; all the items that are not blank are reported as not found. *)
Theorem calculate_total_nothing_priced (request : ShoppingTotalRequest) :
  (forall item : string,
     In item (trimmed_items (items request)) -> costs request !! item = None) ->
  is_finite (tax request) = true ->
  exists resp : ShoppingTotalResponse,
    calculate_total request = Ok resp
    /\ subtotal resp = zero
    /\ is_zero (tax_amount resp) = true
    /\ total resp = zero
    /\ items_found resp = []
    /\ items_not_found resp = trimmed_items (items request)
    /\ items_count resp = length (trimmed_items (items request)).
Proof.
  intros Hnone Htax.
  destruct (filter_none_priced (costs request) _ Hnone) as [Hfound Hmissing].
  unfold calculate_total, _calculate_subtotal.
  pose proof (subtotal_loop_sum (costs request) (items request) zero [] []) as Hsum.
  pose proof (subtotal_loop_items (costs request) (items request) zero [] []) as Hitems.
  destruct (subtotal_loop _ _ _ _ _) as [[sub found] missing]. cbn [fst] in Hsum.
  destruct Hitems as [Hf Hm]. cbn [app] in Hf, Hm. rewrite Hfound in Hf. rewrite Hmissing in Hm.
  assert (Hsub : sub = zero).
  { rewrite Hsum. pose proof (prices_found (costs request) (trimmed_items (items request))) as Hl.
    rewrite Hfound in Hl. fold (prices_of (costs request) (items request)) in Hl.
    destruct (prices_of _ _); [reflexivity|discriminate]. }
  subst sub found missing. unfold _calculate_tax_and_total. rewrite !Hsub.
  destruct (tax request) as [s|s| |s m e]; try discriminate; destruct s;
    (eexists; split; [reflexivity|]);
    cbn [subtotal tax_amount total items_found items_not_found items_count length];
    repeat split; reflexivity.
Qed.

Lemma calculate_total_nothing_priced_witness :
  exists resp : ShoppingTotalResponse,
    calculate_total {| costs := {[ "apple" := literal 150 (-2) ]};
                       items := ["pear"; " "; "plum"];
                       tax := literal 1 (-1) |} = Ok resp
    /\ subtotal resp = zero /\ total resp = zero
    /\ items_not_found resp = ["pear"; "plum"].
Proof.
  destruct (calculate_total_nothing_priced
              {| costs := {[ "apple" := literal 150 (-2) ]};
                 items := ["pear"; " "; "plum"];
                 tax := literal 1 (-1) |}) as (resp & Hr & Hs & _ & HT & _ & Hm & _).
  - intros item [<-|[<-|[]]]; reflexivity.
  - reflexivity.
  - exists resp. auto.
Defined.

(** X22: At the tax rate 0.0 every response has a total equal to its subtotal,
    and, the raw subtotal being finite, a zero tax amount. *)
Theorem calculate_total_without_tax (request : ShoppingTotalRequest)
    (resp : ShoppingTotalResponse) :
  tax request = zero ->
  calculate_total request = Ok resp ->
  total resp = subtotal resp
  /\ (is_finite (fold_left fadd (prices_of (costs request) (items request)) zero) = true ->
      is_zero (tax_amount resp) = true).
Proof.
  intros Htax Hcall.
  destruct (calculate_total_amounts request resp Hcall) as (Hs & Ht & HT).
  rewrite Htax in Ht, HT.
  destruct (fold_left fadd (prices_of (costs request) (items request)) zero)
    as [s|s| |s m e].
  - split.
    + assert (E : fadd (S754_zero s) (fmul (S754_zero s) zero) = S754_zero s)
        by (destruct s; reflexivity).
      rewrite E in HT. congruence.
    + intros _. change (fmul (S754_zero s) zero) with (S754_zero (xorb s false)) in Ht.
      rewrite round_zero in Ht. injection Ht as <-. reflexivity.
  - discriminate.
  - split; [|discriminate].
    change (fadd S754_nan (fmul S754_nan zero)) with S754_nan in HT. congruence.
  - split.
    + change (fadd (S754_finite s m e) (fmul (S754_finite s m e) zero))
        with (S754_finite s m e) in HT. congruence.
    + intros _. change (fmul (S754_finite s m e) zero) with (S754_zero (xorb s false)) in Ht.
      rewrite round_zero in Ht. injection Ht as <-. reflexivity.
Qed.

Lemma calculate_total_without_tax_witness :
  exists resp : ShoppingTotalResponse,
    calculate_total {| costs := costs example_cart;
                       items := items example_cart;
                       tax := zero |} = Ok resp
    /\ total resp = subtotal resp.
Proof.
  eexists. split; [vm_compute; reflexivity|].
  refine (proj1 (calculate_total_without_tax
                   {| costs := costs example_cart;
                      items := items example_cart;
                      tax := zero |} _ eq_refl _)).
  vm_compute. reflexivity.
Defined.

(** *** Clean item lists *)

Lemma filter_priced_clean (costs : gmap string float) (l : list string) :
  Forall clean l -> Forall clean (List.filter (priced costs) l).
Proof.
  induction 1 as [|x l Hx _ IH]; cbn [List.filter]; [constructor|].
  destruct (priced costs x); [constructor; assumption|exact IH].
Qed.

Lemma filter_priced_again (costs : gmap string float) (l : list string) :
  List.filter (priced costs) (List.filter (priced costs) l) = List.filter (priced costs) l
  /\ List.filter (fun i => negb (priced costs i)) (List.filter (priced costs) l) = []
  /\ omap (fun item => costs !! item) (List.filter (priced costs) l)
     = omap (fun item => costs !! item) l.
Proof.
  induction l as [|x l (IH1 & IH2 & IH3)]; [auto|].
  destruct (costs !! x) as [c|] eqn:Hc.
  - assert (Hp : priced costs x = true) by (unfold priced; rewrite Hc; reflexivity).
    cbn [List.filter]. rewrite Hp. cbn [List.filter]. rewrite Hp. cbn [negb].
    rewrite !omap_cons. cbv beta. rewrite Hc, IH1, IH2, IH3. auto.
  - assert (Hp : priced costs x = false) by (unfold priced; rewrite Hc; reflexivity).
    cbn [List.filter]. rewrite Hp, omap_cons. cbv beta. rewrite Hc. auto.
Qed.

(** X23: Calculating again on the items that were found gives the same raw
    subtotal, finds them all and misses none. *)
Theorem calculate_subtotal_of_found (items : list string) (costs : gmap string float) :
  let '(raw_subtotal, items_found, items_not_found) := _calculate_subtotal items costs in
  _calculate_subtotal items_found costs = (raw_subtotal, items_found, []).
Proof.
  unfold _calculate_subtotal.
  pose proof (subtotal_loop_sum costs items zero [] []) as Hsum.
  pose proof (subtotal_loop_items costs items zero [] []) as Hitems.
  destruct (subtotal_loop costs items zero [] []) as [[sub found] missing].
  cbn [fst] in Hsum. destruct Hitems as [Hf _]. cbn [app] in Hf.
  pose proof (subtotal_loop_sum costs found zero [] []) as Hsum'.
  pose proof (subtotal_loop_items costs found zero [] []) as Hitems'.
  destruct (subtotal_loop costs found zero [] []) as [[sub' found'] missing'].
  cbn [fst] in Hsum'. destruct Hitems' as [Hf' Hm']. cbn [app] in Hf', Hm'.
  assert (Hclean : trimmed_items found = found).
  { rewrite Hf. apply trimmed_items_clean, filter_priced_clean, trimmed_items_all_clean. }
  destruct (filter_priced_again costs (trimmed_items items)) as (E1 & E2 & E3).
  rewrite Hclean in Hf', Hm'. unfold prices_of in Hsum, Hsum'. rewrite Hclean in Hsum'.
  rewrite Hf in Hf', Hm', Hsum'. rewrite E1 in Hf'. rewrite E2 in Hm'. rewrite E3 in Hsum'.
  congruence.
Qed.

(** X24: On a clean item list (what the request validator and the item parser
    deliver) nothing is dropped: every item is reported, as found or as
    not found, and items_count is the length of the list. *)
Theorem calculate_total_counts_clean_items (request : ShoppingTotalRequest)
    (resp : ShoppingTotalResponse) :
  Forall clean (items request) ->
  calculate_total request = Ok resp ->
  items_count resp = length (items request)
  /\ Permutation (items_found resp ++ items_not_found resp) (items request)
  /\ items_found resp = List.filter (priced (costs request)) (items request)
  /\ items_not_found resp
     = List.filter (fun i => negb (priced (costs request) i)) (items request).
Proof.
  intros Hclean Hcall.
  destruct (calculate_total_items request resp Hcall) as (Hf & Hm & Hc).
  rewrite (trimmed_items_clean _ Hclean) in Hf, Hm.
  assert (Hperm : Permutation (items_found resp ++ items_not_found resp) (items request)).
  { rewrite Hf, Hm. apply filter_partition_perm. }
  split; [|auto]. rewrite Hc, <- length_app. apply Permutation_length, Hperm.
Qed.

Lemma calculate_total_counts_clean_items_witness :
  exists resp : ShoppingTotalResponse,
    calculate_total example_cart = Ok resp
    /\ items_count resp = length (items example_cart).
Proof.
  eexists. split; [vm_compute; reflexivity|].
  refine (proj1 (calculate_total_counts_clean_items example_cart _ _ _)).
  - repeat constructor.
  - vm_compute. reflexivity.
Defined.

End AmountFacts.
(** ** The cost table: parser and validator *)

Module CostTableFacts.

Import PyFloat ShoppingModels ShoppingValidators Props StringFacts ItemListFacts AmountFacts.

Lemma match_name_chars (rest : string) :
  forall (name g1 g2 : string),
    match_name name rest = Some (g1, g2) ->
    forall a : ascii, In a (chars g1) -> In a (chars name) \/ In a (chars rest).
Proof.
  induction rest as [|c rest IH]; intros name g1 g2; cbn [match_name]; [discriminate|].
  destruct (if Ascii.eqb c ":" then match_price rest else None) as [price|].
  - intros [= <- <-] a Ha. left. exact Ha.
  - intros Hm a Ha. destruct (IH _ _ _ Hm a Ha) as [H|H].
    + rewrite chars_app in H. apply in_app_or in H. destruct H as [H|H]; [left; exact H|].
      right. destruct H as [<-|[]]. left. reflexivity.
    + right. right. exact H.
Qed.

Lemma match_item_price_chars (line g1 g2 : string) :
  match_item_price line = Some (g1, g2) ->
  forall a : ascii, In a (chars g1) -> In a (chars line).
Proof.
  destruct line as [|c rest]; cbn [match_item_price]; [discriminate|].
  intros Hm a Ha. destruct (match_name_chars rest _ _ _ Hm a Ha) as [H|H].
  - destruct H as [<-|[]]. left. reflexivity.
  - right. exact H.
Qed.

(** The loop over the lines keeps the table made of stored names and of
    prices that are not below zero. *)
Lemma lines_loop_entries (lines : list string) :
  Forall (fun line => forall a, In a (chars line) -> is_line_sep a = false) lines ->
  forall d c : gmap string float,
    lines_loop lines d = Ok c ->
    map_Forall (fun key price => stored_name key /\ not_negative price = true) d ->
    map_Forall (fun key price => stored_name key /\ not_negative price = true) c.
Proof.
  induction 1 as [|line lines Hline _ IH]; intros d c; cbn [lines_loop].
  - intros [= <-] Hd. exact Hd.
  - destruct (negb (PyStr.truthy (PyStr.strip line))); [apply IH|].
    destruct (match_item_price (PyStr.strip line)) as [[g1 g2]|] eqn:Hm; [|apply IH].
    destruct (PyStr.truthy (PyStr.strip g1)) eqn:Hg; cbn [negb]; [|apply IH].
    destruct (FloatParse.float_of_string (PyStr.strip g2)) as [price|]; [|discriminate].
    destruct (flt price zero) eqn:Hneg; [discriminate|].
    intros Hloop Hd. apply (IH _ _ Hloop). apply map_Forall_insert_2; [|exact Hd].
    split; [split; [split|]|].
    + rewrite truthy_strip in Hg. apply negb_true_iff in Hg.
      rewrite blank_strip. exact Hg.
    + apply DictionaryFacts.strip_idem.
    + intros a Ha. apply Hline, strip_chars.
      apply (match_item_price_chars _ _ _ Hm), strip_chars, Ha.
    + unfold not_negative. rewrite Hneg. reflexivity.
Qed.

Lemma parse_key_value_entries (text : string) (c : gmap string float) :
  parse_key_value text = Ok c ->
  c <> ∅
  /\ map_Forall (fun key price => stored_name key /\ not_negative price = true) c.
Proof.
  unfold parse_key_value.
  destruct (lines_loop (PyStr.split_at is_line_sep text) ∅) as [d|] eqn:Hloop;
    [|discriminate].
  cbn [mbind result_bind]. destruct (decide (d = ∅)); [discriminate|].
  intros [= <-]. split; [assumption|].
  apply (lines_loop_entries (PyStr.split_at is_line_sep text)) with (d := ∅);
    [|exact Hloop|apply map_Forall_empty].
  eapply Forall_impl; [apply split_at_chars|]. cbn. intros p Hp a Ha.
  apply (Hp a Ha).
Qed.

(** *** The JSON part *)

Lemma float_of_value_not_negative (value : pyvalue) (x : float) :
  lt_zero value = false -> float_of_value value = Ok x -> not_negative x = true.
Proof.
  destruct value as [|b|n|y|s|l|its]; cbn [lt_zero float_of_value];
    try (intros _ [= <-]; reflexivity).
  - intros _. destruct b; intros [= <-]; [apply of_decimal_not_negative|reflexivity].
  - intros Hn. unfold of_int. rewrite Hn.
    pose proof (of_ratio_not_negative (Z.abs n) 1) as Hr.
    destruct (of_ratio false (Z.abs n) 1); try discriminate; intros [= <-]; exact Hr.
  - intros Hy [= <-]. unfold not_negative. rewrite Hy. reflexivity.
Qed.

(** What the loop over a decoded object stores and when it stops. *)
Lemma json_loop_entries (items : list (string * pyvalue)) :
  forall d : gmap string float,
    match json_loop items d with
    | Ok c =>
        (forall key price, c !! key = Some price ->
           d !! key = Some price
           \/ exists value, In (key, value) items
                /\ is_int_or_float value = true /\ lt_zero value = false
                /\ float_of_value value = Ok price)
        /\ (forall key value, In (key, value) items -> is_Some (c !! key))
        /\ (forall key, is_Some (d !! key) -> is_Some (c !! key))
    | Raise e =>
        exists key value, In (key, value) items
          /\ (e = ValueError (CostNotNumber key) /\ is_int_or_float value = false
              \/ e = ValueError (CostNegative key)
                 /\ is_int_or_float value = true /\ lt_zero value = true
              \/ e = OverflowError
                 /\ lt_zero value = false /\ float_of_value value = Raise OverflowError)
    end.
Proof.
  induction items as [|[key value] items IH]; intros d; cbn [json_loop].
  - split; [auto|]. split; [intros key value []|auto].
  - destruct (is_int_or_float value) eqn:Hnum; cbn [negb].
    2:{ exists key, value. split; [left; reflexivity|]. auto. }
    destruct (lt_zero value) eqn:Hlt.
    { exists key, value. split; [left; reflexivity|]. auto. }
    destruct (float_of_value value) as [x|e] eqn:Hx; cbn [mbind result_bind].
    2:{ assert (He : e = OverflowError).
        { destruct value as [|b|n|y|s|l|its]; cbn [float_of_value] in Hx;
            try discriminate.
          - destruct b; discriminate.
          - unfold of_int in Hx. destruct (of_ratio _ _ _); congruence. }
        subst e. exists key, value. split; [left; reflexivity|]. auto. }
    specialize (IH (<[key := x]> d)).
    destruct (json_loop items (<[key := x]> d)) as [c|e].
    + destruct IH as (Hfrom & Hkeys & Hkept). split; [|split].
      * intros k p Hk. destruct (Hfrom k p Hk) as [Hd|(v & Hin & Hv)].
        -- apply lookup_insert_Some in Hd. destruct Hd as [[<- <-]|[_ Hd]].
           ++ right. exists value. split; [left; reflexivity|]. auto.
           ++ left. exact Hd.
        -- right. exists v. split; [right; exact Hin|exact Hv].
      * intros k v [[= <- <-]|Hin]; [|apply (Hkeys k v Hin)].
        apply Hkept. rewrite lookup_insert_eq. eauto.
      * intros k Hk. apply Hkept. destruct (decide (key = k)) as [<-|Hne].
        -- rewrite lookup_insert_eq. eauto.
        -- rewrite lookup_insert_ne by exact Hne. exact Hk.
    + destruct IH as (k & v & Hin & Hcase). exists k, v. split; [right; exact Hin|exact Hcase].
Qed.

(** The two ways [_parse_costs] returns a table. *)
Lemma parse_costs_cases (json_loads : string -> option pyvalue) (input : string)
    (c : gmap string float) :
  _parse_costs json_loads input = Ok c ->
  (exists doc, PyStr.startswith "{" (PyStr.strip input) = true
     /\ json_loads (PyStr.strip input) = Some doc /\ costs_of_json doc = Ok c)
  \/ ((PyStr.startswith "{" (PyStr.strip input) = false
       \/ json_loads (PyStr.strip input) = None)
      /\ parse_key_value (PyStr.strip input) = Ok c).
Proof.
  unfold _parse_costs.
  destruct (negb (PyStr.truthy (PyStr.strip input))); [discriminate|].
  rewrite DictionaryFacts.strip_idem.
  destruct (PyStr.startswith "{" (PyStr.strip input)); [|auto].
  destruct (json_loads (PyStr.strip input)) as [doc|]; [|auto].
  intros H. left. exists doc. auto.
Qed.

Lemma costs_loop_accepts (l : list (string * float)) :
  Forall (fun p => not_negative p.2 = true) l -> costs_loop l = inr tt.
Proof.
  induction 1 as [|[k x] l Hx _ IH]; [reflexivity|]. cbn [costs_loop].
  cbn [snd] in Hx. unfold not_negative in Hx. apply negb_true_iff in Hx.
  rewrite Hx. exact IH.
Qed.

(** X25: Whatever the format, no price of a parsed cost table is below zero, so
    the validator of the standard request accepts every listing of the
    table; and a table read in the key:value format is never empty. *)
Theorem parse_costs_passes_validation (json_loads : string -> option pyvalue)
    (input : string) (c : gmap string float) :
  _parse_costs json_loads input = Ok c ->
  map_Forall (fun _ price => not_negative price = true) c
  /\ (forall l : list (string * float),
        (forall item price, In (item, price) l -> c !! item = Some price) ->
        validate_costs l = inr l)
  /\ (PyStr.startswith "{" (PyStr.strip input) = false
      \/ json_loads (PyStr.strip input) = None -> c <> ∅).
Proof.
  intros Hparse.
  assert (Hprices : map_Forall (fun _ price => not_negative price = true) c).
  { destruct (parse_costs_cases _ _ _ Hparse) as [(doc & _ & _ & Hjson)|[_ Hkv]].
    - destruct doc as [| | | | | |items]; try discriminate. cbn [costs_of_json] in Hjson.
      pose proof (json_loop_entries items ∅) as Hloop. rewrite Hjson in Hloop.
      destruct Hloop as (Hfrom & _). intros key price Hk.
      destruct (Hfrom key price Hk) as [Hd|(v & _ & _ & Hlt & Hv)].
      + rewrite lookup_empty in Hd. discriminate.
      + apply (float_of_value_not_negative v price Hlt Hv).
    - destruct (parse_key_value_entries _ _ Hkv) as [_ Hall].
      intros key price Hk. apply (Hall key price Hk). }
  split; [exact Hprices|]. split.
  - intros l Hl. unfold validate_costs. rewrite costs_loop_accepts; [reflexivity|].
    apply List.Forall_forall. intros [k x] Hin. cbn [snd].
    apply (Hprices k x), Hl, Hin.
  - intros Hcase. destruct (parse_costs_cases _ _ _ Hparse) as [(doc & Hb & Hd & _)|[_ Hkv]].
    + destruct Hcase; congruence.
    + apply (parse_key_value_entries _ _ Hkv).
Qed.

Lemma parse_costs_passes_validation_witness :
  _parse_costs Spec.decode_nothing "a: 1.5, b: 0.75"
  = Ok (<["b" := Spec.literal 75 (-2)]> {[ "a" := Spec.literal 15 (-1) ]})
  /\ validate_costs [("a", Spec.literal 15 (-1)); ("b", Spec.literal 75 (-2))]
     = inr [("a", Spec.literal 15 (-1)); ("b", Spec.literal 75 (-2))].
Proof.
  assert (Hparse : _parse_costs Spec.decode_nothing "a: 1.5, b: 0.75"
                   = Ok (<["b" := Spec.literal 75 (-2)]> {[ "a" := Spec.literal 15 (-1) ]}))
    by (vm_compute; reflexivity).
  split; [exact Hparse|].
  refine (proj1 (proj2 (parse_costs_passes_validation _ _ _ Hparse)) _ _).
  intros item price [[= <- <-]|[[= <- <-]|[]]]; reflexivity.
Defined.

(** X26: In the key:value format every name of the table is a trimmed,
    non-blank string without comma, semicolon or newline. *)
Theorem parse_costs_key_value_names (json_loads : string -> option pyvalue)
    (input : string) (c : gmap string float) :
  _parse_costs json_loads input = Ok c ->
  PyStr.startswith "{" (PyStr.strip input) = false
  \/ json_loads (PyStr.strip input) = None ->
  forall (key : string) (price : float),
    c !! key = Some price ->
    clean key
    /\ PyStr.contains "," key = false
    /\ PyStr.contains ";" key = false
    /\ PyStr.contains newline key = false.
Proof.
  intros Hparse Hcase key price Hk.
  destruct (parse_costs_cases _ _ _ Hparse) as [(doc & Hb & Hd & _)|[_ Hkv]].
  { destruct Hcase; congruence. }
  destruct (parse_key_value_entries _ _ Hkv) as [_ Hall].
  destruct (Hall key price Hk) as [[Hclean Hsep] _].
  split; [exact Hclean|].
  assert (Hfree : forall a : ascii, is_line_sep a = true -> PyStr.contains a key = false).
  { intros a Ha. destruct (PyStr.contains a key) eqn:Hc; [|reflexivity].
    apply contains_In in Hc. rewrite (Hsep a Hc) in Ha. discriminate. }
  repeat split; apply Hfree; reflexivity.
Qed.

Lemma parse_costs_key_value_names_witness :
  _parse_costs Spec.decode_nothing " apple : 1.5 ; pear: 2" =
    Ok (<["pear" := Spec.literal 2 0]> {[ "apple" := Spec.literal 15 (-1) ]})
  /\ clean "apple" /\ PyStr.contains ";" "apple" = false.
Proof.
  assert (Hparse : _parse_costs Spec.decode_nothing " apple : 1.5 ; pear: 2"
                   = Ok (<["pear" := Spec.literal 2 0]> {[ "apple" := Spec.literal 15 (-1) ]}))
    by (vm_compute; reflexivity).
  split; [exact Hparse|].
  destruct (parse_costs_key_value_names _ _ _ Hparse (or_intror eq_refl)
              "apple" (Spec.literal 15 (-1))) as (Hc & _ & Hs & _).
  - vm_compute. reflexivity.
  - split; [exact Hc|exact Hs].
Defined.

(** X27: In the JSON part, on a decoded object: a returned table has exactly
    the keys of the object, each with float(value) of one of its values, a
    value that is an int, a float or a bool and not below zero; a failure
    names a key whose value is no such number or is below zero, or is the
    OverflowError of float() on an int too large for a float. *)
Theorem parse_costs_json_object_values (json_loads : string -> option pyvalue)
    (input : string) (items : list (string * pyvalue)) :
  blank input = false ->
  PyStr.startswith "{" (PyStr.strip input) = true ->
  json_loads (PyStr.strip input) = Some (PyDict items) ->
  match _parse_costs json_loads input with
  | Ok c =>
      (forall key price, c !! key = Some price ->
         exists value, In (key, value) items
           /\ is_int_or_float value = true /\ lt_zero value = false
           /\ float_of_value value = Ok price)
      /\ (forall key value, In (key, value) items -> is_Some (c !! key))
  | Raise e =>
      exists key value, In (key, value) items
        /\ (e = ValueError (CostNotNumber key) /\ is_int_or_float value = false
            \/ e = ValueError (CostNegative key)
               /\ is_int_or_float value = true /\ lt_zero value = true
            \/ e = OverflowError
               /\ lt_zero value = false /\ float_of_value value = Raise OverflowError)
  end.
Proof.
  intros Hb Hbrace Hdoc.
  rewrite (ParseCostsFacts.parse_costs_json_object json_loads input (PyDict items));
    [|rewrite truthy_strip, Hb; reflexivity|exact Hbrace|exact Hdoc].
  cbn [costs_of_json]. pose proof (json_loop_entries items ∅) as Hloop.
  destruct (json_loop items ∅) as [c|e]; [|exact Hloop].
  destruct Hloop as (Hfrom & Hkeys & _). split; [|exact Hkeys].
  intros key price Hk. destruct (Hfrom key price Hk) as [Hd|Hv]; [|exact Hv].
  rewrite lookup_empty in Hd. discriminate.
Qed.

Lemma parse_costs_json_object_values_witness :
  let q := Spec.dquote in
  let text := ("{" ++ q ++ "a" ++ q ++ ": 2, " ++ q ++ "b" ++ q ++ ": true}")%string in
  let items := [("a", PyInt 2); ("b", PyBool true)] in
  _parse_costs (Spec.decode_as (PyDict items)) text =
    Ok (<["b" := Spec.literal 1 0]> {[ "a" := Spec.literal 2 0 ]})
  /\ exists value, In ("b", value) items /\ float_of_value value = Ok (Spec.literal 1 0).
Proof.
  intros q text items.
  assert (Hparse : _parse_costs (Spec.decode_as (PyDict items)) text
                   = Ok (<["b" := Spec.literal 1 0]> {[ "a" := Spec.literal 2 0 ]}))
    by (vm_compute; reflexivity).
  split; [exact Hparse|].
  pose proof (parse_costs_json_object_values (Spec.decode_as (PyDict items)) text
                items eq_refl eq_refl eq_refl) as H.
  rewrite Hparse in H. destruct H as [Hfrom _].
  destruct (Hfrom "b" (Spec.literal 1 0)) as (value & Hin & _ & _ & Hv).
  - vm_compute. reflexivity.
  - exists value. auto.
Defined.

(** X28: validate_costs accepts a table exactly when no cost is below zero, and
    returns it as it is; it rejects one with the error that names the
    first item, in the order of the table, whose cost is below zero.  A
    cost that is NaN or plus infinity is not below zero: it passes. *)
Theorem validate_costs_first_negative (v : list (string * float)) :
  match validate_costs v with
  | inr v' => v' = v /\ Forall (fun p => not_negative p.2 = true) v
  | inl (NegativeCost item) =>
      exists before cost after,
        v = before ++ (item, cost) :: after
        /\ flt cost zero = true
        /\ Forall (fun p => not_negative p.2 = true) before
  | inl _ => False
  end
  /\ (Forall (fun p => p.2 = S754_nan \/ p.2 = S754_infinity false) v ->
      validate_costs v = inr v).
Proof.
  split.
  - unfold validate_costs. induction v as [|[k x] v IH]; cbn [costs_loop]; [auto|].
    destruct (flt x zero) eqn:Hx.
    + exists [], x, v. auto.
    + assert (Hnn : not_negative x = true) by (unfold not_negative; rewrite Hx; reflexivity).
      destruct (costs_loop v) as [[item| |]|[]].
      * destruct IH as (before & cost & after & -> & Hc & Hb).
        exists ((k, x) :: before), cost, after. split; [reflexivity|]. split; [exact Hc|].
        constructor; assumption.
      * exact IH.
      * exact IH.
      * destruct IH as [_ IH]. split; [reflexivity|]. constructor; assumption.
  - intros Hall. unfold validate_costs. rewrite costs_loop_accepts; [reflexivity|].
    eapply Forall_impl; [exact Hall|]. intros [k x] Hx. cbn [snd] in Hx |- *.
    destruct Hx as [->| ->]; reflexivity.
Qed.

Lemma validate_costs_first_negative_witness :
  validate_costs [("a", S754_nan); ("b", S754_infinity false)]
  = inr [("a", S754_nan); ("b", S754_infinity false)].
Proof.
  apply (proj2 (validate_costs_first_negative _)).
  constructor; [left; reflexivity|]. constructor; [right; reflexivity|]. constructor.
Defined.

End CostTableFacts.
